(** * filechart: the data pipeline of [src/extension.js]

    A shallow embedding of the parser ([parseFile]), the column selector
    ([selectColumns]), the series builder and the overlay engine
    ([processData], [createStatSeries], [createSMA], [createEMA]).

    JavaScript numbers are IEEE 754 binary64 values; they are modelled by
    Rocq's primitive [float], which is the same format with the same
    round-to-nearest-even arithmetic.  JavaScript strings are sequences of
    UTF-16 code units, modelled as [list N]. *)

From Stdlib Require Import ZArith List Bool Lia Floats String Ascii DecimalString.
From stdpp Require Import gmap.
Import ListNotations.

(** ** The JavaScript layer: values, numbers, strings and arrays *)

Module JS.

Definition number := float.

(** Conversion of an integer to the nearest binary64 value (ties to even),
    as for an integer literal or the result of [parseInt]. *)
Definition of_Z (z : Z) : number :=
  SF2Prim (binary_normalize prec emax z 0 false).

Definition of_nat (n : nat) : number := of_Z (Z.of_nat n).

(** The values an element of a [data] array can hold. *)
Inductive value :=
| Null
| Undefined
| Num (x : number).

Definition ToNumber (v : value) : number :=
  match v with
  | Null => PrimFloat.zero
  | Undefined => PrimFloat.nan
  | Num x => x
  end.

Definition isNaN (x : number) : bool := PrimFloat.is_nan x.

(** [ToBoolean]: the falsy values are null, undefined, +0, -0 and NaN. *)
Definition ToBoolean (v : value) : bool :=
  match v with
  | Null | Undefined => false
  | Num x => negb (PrimFloat.is_zero x || PrimFloat.is_nan x)
  end.

(** [a || b] *)
Definition or_else (a b : value) : value := if ToBoolean a then a else b.

(** [v !== null] *)
Definition not_null (v : value) : bool :=
  match v with
  | Null => false
  | _ => true
  end.

(** The operator [*]: both operands go through [ToNumber]. *)
Definition mul (a b : value) : number := PrimFloat.mul (ToNumber a) (ToNumber b).

(** *** Arrays *)

(** [arr[i]]: [None] stands for [undefined] (index out of range, or
    negative, which is an absent property). *)
Definition get {A} (arr : list A) (i : Z) : option A :=
  if (i <? 0)%Z then None else arr !! Z.to_nat i.

(** [arr[i]] on an array of values. *)
Definition get_value (arr : list value) (i : Z) : value :=
  match get arr i with
  | Some v => v
  | None => Undefined
  end.

(** [Array.prototype.slice(start, end)] with integer arguments: negative
    arguments count from the end, both are clamped to the array. *)
Definition clamp_index (len k : Z) : Z :=
  if (k <? 0)%Z then Z.max (len + k) 0 else Z.min k len.

Definition slice {A} (arr : list A) (start stop : Z) : list A :=
  let len := Z.of_nat (length arr) in
  let k := clamp_index len start in
  let final := clamp_index len stop in
  firstn (Z.to_nat (Z.max (final - k) 0)) (skipn (Z.to_nat k) arr).

(** [arr.slice(start)] *)
Definition slice_from {A} (arr : list A) (start : Z) : list A :=
  slice arr start (Z.of_nat (length arr)).

(** [for (let i = start; ...; i++) body], run for [n] iterations. *)
Fixpoint for_loop {S} (n : nat) (i : Z) (body : Z -> S -> S) (s : S) : S :=
  match n with
  | O => s
  | Datatypes.S n' => for_loop n' (i + 1)%Z body (body i s)
  end.

(** [Array.prototype.forEach] on an array that the callback may itself
    extend: the length is read once, before the first call, and element
    [k] is read from the array as it is when its turn comes.  The state
    threaded through the callback is the array. *)
Fixpoint forEach_from {A} (cb : A -> list A -> list A)
         (k n : nat) (arr : list A) : list A :=
  match n with
  | O => arr
  | Datatypes.S n' =>
      forEach_from cb (Datatypes.S k) n'
        (match arr !! k with
         | Some x => cb x arr
         | None => arr
         end)
  end.

Definition forEach_self {A} (cb : A -> list A -> list A) (arr : list A) : list A :=
  forEach_from cb 0 (length arr) arr.

(** [Math.max(...args)]: starts from -Infinity, NaN is contagious and
    +0 counts as larger than -0. *)
Definition max_step (highest : number) (x : number) : number :=
  if PrimFloat.is_nan highest then highest
  else if PrimFloat.is_nan x then x
  else if PrimFloat.ltb highest x then x
  else if PrimFloat.is_zero x && PrimFloat.is_zero highest
            && PrimFloat.get_sign highest && negb (PrimFloat.get_sign x)
       then x
  else highest.

Definition Math_max (args : list number) : number :=
  fold_left max_step args PrimFloat.neg_infinity.

Definition min_step (lowest : number) (x : number) : number :=
  if PrimFloat.is_nan lowest then lowest
  else if PrimFloat.is_nan x then x
  else if PrimFloat.ltb x lowest then x
  else if PrimFloat.is_zero x && PrimFloat.is_zero lowest
            && PrimFloat.get_sign x && negb (PrimFloat.get_sign lowest)
       then x
  else lowest.

Definition Math_min (args : list number) : number :=
  fold_left min_step args PrimFloat.infinity.

(** [ToNumber] of an array object: the array is turned into a primitive
    by [Array.prototype.join(",")] and the resulting string is read as
    a numeric literal.  The empty array gives the empty string, hence +0;
    two or more elements give a string with a comma, hence NaN; a single
    number prints and reads back as itself, except that -0 prints as
    the string 0; a single null or undefined prints as the empty
    string. *)
Definition Array_ToNumber (arr : list value) : number :=
  match arr with
  | [] => PrimFloat.zero
  | [Num x] => if PrimFloat.is_zero x then PrimFloat.zero else x
  | [_] => PrimFloat.zero
  | _ :: _ :: _ => PrimFloat.nan
  end.

(** *** Strings *)

Abbreviation jsstring := (list N).

(** An ASCII literal as a sequence of code units. *)
Definition str (s : string) : jsstring :=
  map N_of_ascii (list_ascii_of_string s).

Fixpoint eqb (a b : jsstring) : bool :=
  match a, b with
  | [], [] => true
  | x :: a', y :: b' => N.eqb x y && eqb a' b'
  | _, _ => false
  end.

(** The code units [String.prototype.trim] and [parseFloat] strip:
    WhiteSpace and LineTerminator of the language grammar. *)
Definition is_whitespace (c : N) : bool :=
  ((9 <=? c) && (c <=? 13) || (c =? 32) || (c =? 160) || (c =? 5760)
   || (8192 <=? c) && (c <=? 8202) || (c =? 8232) || (c =? 8233)
   || (c =? 8239) || (c =? 8287) || (c =? 12288) || (c =? 65279))%N.

Fixpoint trimStart (s : jsstring) : jsstring :=
  match s with
  | c :: s' => if is_whitespace c then trimStart s' else s
  | [] => []
  end.

Definition trimEnd (s : jsstring) : jsstring := rev (trimStart (rev s)).

Definition trim (s : jsstring) : jsstring := trimEnd (trimStart s).

(** [s.split(sep)] for a separator of one code unit. *)
Fixpoint split (sep : N) (s : jsstring) : list jsstring :=
  match s with
  | [] => [[]]
  | c :: s' =>
      if N.eqb c sep then [] :: split sep s'
      else match split sep s' with
           | h :: t => (c :: h) :: t
           | [] => [[c]]
           end
  end.

(** [s.includes(c)] for a search string of one code unit. *)
Definition includes (s : jsstring) (c : N) : bool := existsb (N.eqb c) s.

(** [arr.indexOf(x)] on an array of strings: first match, else -1. *)
Fixpoint indexOf_from (l : list jsstring) (x : jsstring) (i : Z) : Z :=
  match l with
  | [] => (-1)%Z
  | y :: l' => if eqb y x then i else indexOf_from l' x (i + 1)%Z
  end.

Definition indexOf (l : list jsstring) (x : jsstring) : Z := indexOf_from l x 0.

(** [arr.includes(i)] on an array of integers. *)
Definition includesZ (l : list Z) (i : Z) : bool := existsb (Z.eqb i) l.

(** The decimal digits of an integer. *)
Definition decimal (z : Z) : jsstring :=
  str (NilZero.string_of_int (Z.to_int z)).

(** The value of the number that an integer becomes ([of_Z]): an integer
    again, or no value when the number is an infinity. *)
Definition nearest_value (z : Z) : option Z :=
  match binary_normalize prec emax z 0 false with
  | S754_zero _ => Some 0%Z
  | S754_finite s m e =>
      Some (cond_Zopp s (if (0 <=? e)%Z then Zpos m * 2 ^ e
                         else Zpos m / 2 ^ (- e)))%Z
  | _ => None
  end.

(** Two integers that become the same number. *)
Definition same_number (a b : Z) : bool :=
  SFeqb (binary_normalize prec emax a 0 false) (binary_normalize prec emax b 0 false).

(** [Number::toString] looks for integers [n], [k] and [s] with
    [10^(k-1) <= s < 10^k], such that [s * 10^(n-k)] is the number and [k]
    is as small as can be.  For the value [X] of the number, with [k]
    digits and [n] fixed, [s] is one of the two integers around
    [X / 10^(n-k)]; of two that fit the closer one is taken, the even one
    when they are as close. *)
Definition significand (X n k : Z) : option Z :=
  let unit := (10 ^ (n - k))%Z in
  let q := (X / unit)%Z in
  let fits (s : Z) :=
    ((10 ^ (k - 1) <=? s) && (s <? 10 ^ k) && same_number (s * unit) X)%Z in
  match fits q, fits (q + 1)%Z with
  | true, true =>
      match (2 * X ?= (2 * q + 1) * unit)%Z with
      | Lt => Some q
      | Gt => Some (q + 1)%Z
      | Eq => Some (if Z.even q then q else q + 1)%Z
      end
  | true, false => Some q
  | false, true => Some (q + 1)%Z
  | false, false => None
  end.

(** The first [k] from [k] on, [fuel] tries at most, with its [n] and
    [s]; [n] is the number of digits of [X], or one more. *)
Fixpoint shortest (fuel : nat) (X digits k : Z) : option (Z * Z * Z) :=
  match fuel with
  | O => None
  | S fuel' =>
      match significand X digits k, significand X (digits + 1) k with
      | Some s, _ => Some (s, k, digits)
      | None, Some s => Some (s, k, digits + 1)%Z
      | None, None => shortest fuel' X digits (k + 1)%Z
      end
  end.

(** [Number::toString] for a positive integer value: the digits of [s]
    and zeros up to 21 digits, the exponent notation beyond. *)
Definition positive_ToString (X : Z) : jsstring :=
  let digits := Z.of_nat (length (decimal X)) in
  match shortest (length (decimal X)) X digits 1 with
  | Some (s, k, n) =>
      if (n <=? 21)%Z then decimal s ++ repeat 48%N (Z.to_nat (n - k))
      else
        match decimal s with
        | d :: [] => d :: str "e+" ++ decimal (n - 1)
        | d :: ds => d :: 46%N :: ds ++ str "e+" ++ decimal (n - 1)
        | [] => []
        end
  | None => decimal X
  end.

(** [String(n)] for the number [n] that the integer [z] becomes: the
    digits of [z] as long as [z] is a number itself, and else what
    [Number::toString] makes of the number next to it. *)
Definition Z_ToString (z : Z) : jsstring :=
  match nearest_value z with
  | Some 0%Z => str "0"
  | Some (Zpos X) => positive_ToString (Zpos X)
  | Some (Zneg X) => 45%N :: positive_ToString (Zpos X)
  | None => if (z <? 0)%Z then str "-Infinity" else str "Infinity"
  end.

(** [String(v)] where [v] is a string or undefined. *)
Definition ToString (v : option jsstring) : jsstring :=
  match v with
  | Some s => s
  | None => str "undefined"
  end.

(** *** parseFloat *)

Definition is_digit (c : N) : bool := ((48 <=? c) && (c <=? 57))%N.

Fixpoint span_digits (s : jsstring) : list N * jsstring :=
  match s with
  | c :: s' =>
      if is_digit c
      then let (ds, r) := span_digits s' in (c :: ds, r)
      else ([], s)
  | [] => ([], [])
  end.

Definition digits_value (ds : list N) : Z :=
  fold_left (fun a d => (10 * a + Z.of_N (d - 48))%Z) ds 0%Z.

(** ExponentPart: [e] or [E], an optional sign, at least one digit. *)
Definition exponent_part (s : jsstring) : option (Z * jsstring) :=
  match s with
  | c :: s' =>
      if ((c =? 101) || (c =? 69))%N then
        let '(neg, s'') :=
          match s' with
          | 43%N :: t => (false, t)
          | 45%N :: t => (true, t)
          | _ => (false, s')
          end in
        match span_digits s'' with
        | ([], _) => None
        | (ds, r) => Some (if neg then (- digits_value ds)%Z else digits_value ds, r)
        end
      else None
  | [] => None
  end.

(** The mathematical value of a literal: Infinity, or
    [mantissa * 10 ^ exponent]. *)
Inductive literal :=
| LitInfinity
| LitDecimal (mantissa exponent : Z).

Fixpoint strip_prefix (p s : jsstring) : option jsstring :=
  match p, s with
  | [], _ => Some s
  | x :: p', y :: s' => if N.eqb x y then strip_prefix p' s' else None
  | _ :: _, [] => None
  end.

(** The longest prefix of [s] that is a StrUnsignedDecimalLiteral, with
    what follows it. *)
Definition unsigned_literal (s : jsstring) : option (literal * jsstring) :=
  match strip_prefix (str "Infinity") s with
  | Some r => Some (LitInfinity, r)
  | None =>
      let (ip, r1) := span_digits s in
      let (fp, r2) :=
        match r1 with
        | 46%N :: t => span_digits t
        | _ => ([], r1)
        end in
      match ip, fp with
      | [], [] => None
      | _, _ =>
          let (e, r3) :=
            match exponent_part r2 with
            | Some er => er
            | None => (0%Z, r2)
            end in
          Some (LitDecimal (digits_value (ip ++ fp))
                           (e - Z.of_nat (length fp)), r3)
      end
  end.

(** The longest prefix that is a StrDecimalLiteral: the sign is kept
    apart, so that a negative zero can be told from zero. *)
Definition signed_literal (s : jsstring) : option (bool * literal * jsstring) :=
  match s with
  | 43%N :: t =>
      match unsigned_literal t with
      | Some (l, r) => Some (false, l, r)
      | None => None
      end
  | 45%N :: t =>
      match unsigned_literal t with
      | Some (l, r) => Some (true, l, r)
      | None => None
      end
  | _ =>
      match unsigned_literal s with
      | Some (l, r) => Some (false, l, r)
      | None => None
      end
  end.

(** The binary64 value nearest to [m * 10 ^ e], for [m >= 0].  A negative
    exponent needs a division: the quotient is taken with 64 bits or
    more and a sticky bit for the remainder, which rounds as the exact
    quotient does. *)
Definition decimal_to_number (m e : Z) : number :=
  if (0 <=? e)%Z then of_Z (m * 10 ^ e)
  else
    let d := (10 ^ (- e))%Z in
    let s := Z.max 0 (64 + Z.log2 d - Z.log2 m) in
    let (q, r) := Z.div_eucl (m * 2 ^ s) d in
    SF2Prim (binary_normalize prec emax
               (2 * q + (if (r =? 0)%Z then 0 else 1)) (- s - 1) false).

Definition literal_value (neg : bool) (l : literal) : number :=
  let x := match l with
           | LitInfinity => PrimFloat.infinity
           | LitDecimal m e => decimal_to_number m e
           end in
  if neg then PrimFloat.opp x else x.

(** [parseFloat(s)]: leading white space is skipped, the longest numeric
    prefix is read, anything after it is ignored; NaN when there is no
    such prefix. *)
Definition parseFloat (s : jsstring) : number :=
  match signed_literal (trimStart s) with
  | Some (neg, l, _) => literal_value neg l
  | None => PrimFloat.nan
  end.

End JS.


(** ** The program *)

Module FileChart.
Import JS.

(** An entry of the series list handed to the chart.  Base series have
    neither [dashStyle] nor [marker]; [name] is undefined when the
    column index has no header. *)
Record series := {
  name : option jsstring;
  data : list value;
  dashStyle : option jsstring;
  marker_enabled : option bool
}.

(** The [periods] object: a field is read only when its statistic is
    requested, and [getMovingAveragePeriods] has then set it to a positive
    integer.  A period is kept as that integer; the number it is, in the
    arithmetic and in the name of an overlay, is [of_Z] of it. *)
Record periods := { sma : Z; ema : Z }.

(** What [parseFile] returns, with the warnings it showed on the way. *)
Record parsed := {
  parsed_headers : list jsstring;
  parsed_data : list (list jsstring);
  parsed_warnings : list jsstring
}.

(** An option handed to the quick pick. *)
Record item := { label : jsstring; picked : bool }.

(** *** parseFile *)

Definition parseFile (content : jsstring) : parsed :=
  let lines := List.filter (fun line => negb (eqb (trim line) [])) (split 10 content) in
  match lines with
  | [] => {| parsed_headers := []; parsed_data := []; parsed_warnings := [] |}
  | firstLine :: _ =>
      let '(separator, warnings) :=
        if includes firstLine 9 then (9%N, [])
        else if includes firstLine 59 then (59%N, [])
        else if includes firstLine 124 then (124%N, [])
        else (9%N, [str "No valid separator detected. Defaulting to tab."]) in
      let headers := map trim (split separator firstLine) in
      let data := map (split separator) (slice_from lines 1) in
      {| parsed_headers := headers; parsed_data := data; parsed_warnings := warnings |}
  end.

(** *** selectColumns

    [showQuickPick] stands for the user: it receives the options and
    answers with the picked items, or with nothing when the pick is
    cancelled.  The map of last used columns is threaded through. *)

Definition quickPickOptions (headers : list jsstring) (lastUsed : option (list Z))
  : list item :=
  imap (fun index header =>
          {| label := header;
             picked := match lastUsed with
                       | Some l => includesZ l (Z.of_nat index)
                       | None => (0 <? Z.of_nat index)%Z
                       end |}) headers.

Definition selectColumns (showQuickPick : list item -> option (list item))
           (headers : list jsstring) (fileName : jsstring)
           (lastUsedColumns : gmap (list N) (list Z))
  : option (list Z) * gmap (list N) (list Z) :=
  let lastUsed := lastUsedColumns !! fileName in
  let options := quickPickOptions headers lastUsed in
  let selectedItems := showQuickPick options in
  match selectedItems with
  | Some ((_ :: _) as selectedItems) =>
      let selectedIndexes := map (fun item => indexOf headers (label item)) selectedItems in
      (Some (0%Z :: selectedIndexes), <[fileName := selectedIndexes]> lastUsedColumns)
  | _ =>
      match lastUsed with
      | Some lastUsed => (Some (0%Z :: lastUsed), lastUsedColumns)
      | None => (None, lastUsedColumns)
      end
  end.

(** *** The overlay engine *)

(** [statFunction(arr)] where [statFunction] is [Math.max] or [Math.min]:
    the function receives the array as its only argument (it is not
    spread), so the array is coerced to one number. *)
Definition Math_max_call (arr : list value) : number := Math_max [Array_ToNumber arr].
Definition Math_min_call (arr : list value) : number := Math_min [Array_ToNumber arr].

(** [arr => arr.reduce((a, b) => a + b, 0) / arr.length] *)
Definition average (arr : list value) : number :=
  PrimFloat.div
    (fold_left (fun a b => PrimFloat.add a (ToNumber b)) arr PrimFloat.zero)
    (of_nat (length arr)).

Definition createStatSeries (originalSeries : series) (statName : jsstring)
           (statFunction : list value -> number) : series :=
  let statValue := statFunction (List.filter not_null (data originalSeries)) in
  {| name := Some (ToString (name originalSeries) ++ str " (" ++ statName ++ str ")");
     data := map (fun _ => Num statValue) (data originalSeries);
     dashStyle := Some (str "ShortDash");
     marker_enabled := Some false |}.

Definition createSMA (originalSeries : series) (period : Z) : series :=
  let smaData :=
    for_loop (length (data originalSeries)) 0
      (fun i smaData =>
         if (i <? period - 1)%Z then smaData ++ [Null]
         else
           let slice := slice (data originalSeries) (i - period + 1) (i + 1) in
           let avg :=
             PrimFloat.div
               (fold_left (fun sum value =>
                             PrimFloat.add sum (ToNumber (or_else value (Num PrimFloat.zero))))
                          slice PrimFloat.zero)
               (of_Z period) in
           smaData ++ [Num avg])
      [] in
  {| name := Some (ToString (name originalSeries) ++ str " (SMA "
                     ++ Z_ToString period ++ str ")");
     data := smaData;
     dashStyle := Some (str "ShortDash");
     marker_enabled := Some false |}.

(** The smoothing factor [2 / (period + 1)]. *)
Definition smoothing (period : Z) : number :=
  PrimFloat.div PrimFloat.two (PrimFloat.add (of_Z period) PrimFloat.one).

(** One turn of the loop of [createEMA]. *)
Definition ema_step (k : number) (value ema : JS.value) : JS.value :=
  if not_null value
  then Num (PrimFloat.add (mul value (Num k))
                          (mul ema (Num (PrimFloat.sub PrimFloat.one k))))
  else ema.

Definition createEMA (originalSeries : series) (period : Z) : series :=
  let k := smoothing period in
  let ema := get_value (data originalSeries) 0 in
  let emaData := [ema] in
  let '(_, emaData) :=
    for_loop (length (data originalSeries) - 1) 1
      (fun i '(ema, emaData) =>
         let value := get_value (data originalSeries) i in
         let ema := ema_step k value ema in
         (ema, emaData ++ [ema]))
      (ema, emaData) in
  {| name := Some (ToString (name originalSeries) ++ str " (EMA "
                     ++ Z_ToString period ++ str ")");
     data := emaData;
     dashStyle := Some (str "ShortDot");
     marker_enabled := Some false |}.

(** *** processData *)

(** [parseFloat(row[colIndex])] followed by the NaN test. *)
Definition cell (row : list jsstring) (colIndex : Z) : value :=
  let value := parseFloat (ToString (get row colIndex)) in
  if isNaN value then Null else Num value.

Definition baseSeries (headers : list jsstring) (data : list (list jsstring))
           (colIndex : Z) : series :=
  {| name := get headers colIndex;
     data := map (fun row => cell row colIndex) data;
     dashStyle := None;
     marker_enabled := None |}.

(** The body of the [switch]: [series.push(...)] for the five known
    labels, nothing for any other one. *)
Definition addStatistic (periods : periods) (s : series)
           (series : list FileChart.series) (stat : jsstring)
  : list FileChart.series :=
  if eqb stat (str "Max") then
    series ++ [createStatSeries s (str "Max") Math_max_call]
  else if eqb stat (str "Min") then
    series ++ [createStatSeries s (str "Min") Math_min_call]
  else if eqb stat (str "Average") then
    series ++ [createStatSeries s (str "Avg") average]
  else if eqb stat (str "SMA") then
    series ++ [createSMA s (sma periods)]
  else if eqb stat (str "EMA") then
    series ++ [createEMA s (ema periods)]
  else series.

Definition processData (headers : list jsstring) (data : list (list jsstring))
           (selectedColumns : list Z) (statistics : list jsstring)
           (periods : periods)
  : list FileChart.series * list (option jsstring) :=
  let categories := map (fun row => get row 0) data in
  let series := map (baseSeries headers data) (slice_from selectedColumns 1) in
  let series :=
    forEach_self (fun s series => fold_left (addStatistic periods s) statistics series)
                 series in
  (series, categories).

End FileChart.


(** ** The specification's vocabulary *)

Module Spec.
Import JS FileChart.

(** A base series holds numbers that are not NaN, and null where the
    cell was not numeric. *)
Definition base_value (v : value) : Prop :=
  match v with
  | Null => True
  | Undefined => False
  | Num x => PrimFloat.is_nan x = false
  end.

Definition base_data (d : list value) : Prop := Forall base_value d.

(** The values of a series that are not absent. *)
Definition present (d : list value) : list number :=
  omap (fun v => match v with Num x => Some x | _ => None end) d.

(** The maximum over the values that are present. *)
Definition maximum (d : list value) : number := Math_max (present d).

(** Sum, from the left and starting at zero, and arithmetic mean. *)
Definition sum (xs : list number) : number := fold_left PrimFloat.add xs PrimFloat.zero.

Definition mean (xs : list number) : number :=
  PrimFloat.div (sum xs) (of_nat (length xs)).

(** A flat line: the same number at every index of the base series. *)
Definition flat (d : list value) (x : number) : list value :=
  replicate (length d) (Num x).




(** The recurrence of the exponential average, for a present value [v]
    and a previous average [prev]. *)
Definition ema_next (k : number) (v prev : number) : number :=
  PrimFloat.add (PrimFloat.mul v k) (PrimFloat.mul prev (PrimFloat.sub PrimFloat.one k)).

(** The averages that follow the seed [prev], one per further value of
    the series. *)
Fixpoint ema_trace (k : number) (prev : value) (rest : list value) : list value :=
  match rest with
  | [] => []
  | v :: rest' => ema_step k v prev :: ema_trace k (ema_step k v prev) rest'
  end.

(** A data point that holds a number. *)
Definition is_number (v : value) : Prop := exists x, v = Num x.

(** The statistics that can be requested. *)
Inductive statistic := Max | Min | Average | SMA | EMA.

Definition label_of (st : statistic) : jsstring :=
  match st with
  | Max => str "Max"
  | Min => str "Min"
  | Average => str "Average"
  | SMA => str "SMA"
  | EMA => str "EMA"
  end.

(** The overlay of a base series for one statistic. *)
Definition overlay (ps : periods) (b : series) (st : statistic) : series :=
  match st with
  | Max => createStatSeries b (str "Max") Math_max_call
  | Min => createStatSeries b (str "Min") Math_min_call
  | Average => createStatSeries b (str "Avg") average
  | SMA => createSMA b (sma ps)
  | EMA => createEMA b (ema ps)
  end.

Definition overlays (ps : periods) (sts : list statistic) (b : series) : list series :=
  map (overlay ps b) sts.

(** The base series: one per selected column after the first. *)
Definition bases (headers : list jsstring) (rows : list (list jsstring))
           (selection : list Z) : list series :=
  map (baseSeries headers rows) (tail selection).

(** The order in which every base series is followed at once by its own
    overlays. *)
Definition grouped (ps : periods) (sts : list statistic) (bs : list series)
  : list series :=
  flat_map (fun b => b :: overlays ps sts b) bs.

(** The order in which all base series come first and the overlays
    follow, base by base. *)
Definition bases_then_overlays (ps : periods) (sts : list statistic)
           (bs : list series) : list series :=
  bs ++ flat_map (overlays ps sts) bs.

(** A line that is empty or holds white space only. *)
Definition blank (line : jsstring) : bool := forallb is_whitespace line.

Definition kept_lines (content : jsstring) : list jsstring :=
  List.filter (fun line => negb (blank line)) (split 10 content).

Definition tab : N := 9.
Definition semicolon : N := 59.
Definition bar : N := 124.

(** The delimiter the first line calls for, and whether it is the
    fallback that comes with a warning. *)
Definition delimiter (first : jsstring) : N * bool :=
  if bool_decide (tab ∈ first) then (tab, false)
  else if bool_decide (semicolon ∈ first) then (semicolon, false)
  else if bool_decide (bar ∈ first) then (bar, false)
  else (tab, true).

(** A string with no white space at either end. *)
Definition starts_clean (s : jsstring) : Prop :=
  match s with
  | c :: _ => is_whitespace c = false
  | [] => True
  end.

Definition clean (s : jsstring) : Prop := starts_clean s /\ starts_clean (rev s).


(** Fields put back together around the delimiter. *)
Fixpoint join (sep : N) (fields : list jsstring) : jsstring :=
  match fields with
  | [] => []
  | [f] => f
  | f :: fs => f ++ sep :: join sep fs
  end.


(** A field that is, as a whole, a numeric literal (white space around it
    apart). *)
Definition valid_number (field : jsstring) : bool :=
  match signed_literal (trim field) with
  | Some (_, _, []) => true
  | _ => false
  end.

(** A field that starts, after leading white space, with a numeric
    literal. *)
Definition numeric_prefix (field : jsstring) : bool :=
  match signed_literal (trimStart field) with
  | Some _ => true
  | None => false
  end.

(** The user's answer to the quick pick is one the dialog can give:
    picked items are options, in the order of the options. *)
Definition answer_of_dialog (ui : list item -> option (list item)) : Prop :=
  forall options picked, ui options = Some picked -> sublist picked options.

(** The option of the first column is among the picked items. *)
Definition picks_first_column (headers : list jsstring) (picked : list item) : Prop :=
  exists h, head headers = Some h /\ h ∈ map label picked.

(** An index that points at a header. *)
Definition header_index (headers : list jsstring) (r : Z) : Prop :=
  (0 <= r < Z.of_nat (length headers))%Z.

(** The user cancels, or confirms without any item. *)
Definition nothing_picked (answer : option (list item)) : Prop :=
  answer = None \/ answer = Some [].

End Spec.

(** ** Sample inputs *)

Module Samples.
Import JS FileChart.

Definition num (z : Z) : value := Num (of_Z z).

(** A base series named [y] with the given data. *)
Definition base (d : list value) : series :=
  {| name := Some (str "y"); data := d; dashStyle := None; marker_enabled := None |}.

Definition one_to_five : series := base [num 1; num 2; num 3; num 4; num 5].

Definition one_gap_three : series := base [num 1; Null; num 3].

Definition ten_twenty : series := base [num 10; num 20].

Definition gap_then_twenty : series := base [Null; Null; num 20; Null; num 10].

(** A user who picks every option, one who cancels, and one who confirms
    an empty pick. *)
Definition pick_all (options : list item) : option (list item) := Some options.
Definition cancel (options : list item) : option (list item) := None.
Definition pick_none (options : list item) : option (list item) := Some [].

(** A file with two data columns and two rows, and its parse. *)
Definition two_columns : jsstring :=
  str "day;a;b" ++ [10%N] ++ str "mon;1;2" ++ [10%N] ++ str "tue;3;12abc" ++ [10%N].

Definition table : parsed := parseFile two_columns.

(** Headers, a document and a remembered selection for it. *)
Definition xy : list jsstring := [str "x"; str "y"].
Definition five_headers : list jsstring :=
  [str "t"; str "a"; str "b"; str "c"; str "d"].
Definition doc : jsstring := str "data.csv".
Definition remembered : gmap (list N) (list Z) := <[doc := [2; 4]%Z]> ∅.
Definition nothing_remembered : gmap (list N) (list Z) := ∅.

(** A user who picks every option but the first. *)
Definition pick_tail (options : list item) : option (list item) := Some (tail options).

Definition twenty : periods := {| sma := 20; ema := 20 |}.

(** A file whose data column holds nothing, then the two infinities. *)
Definition infinities : jsstring :=
  str "day;y" ++ [10%N] ++ str "mon;" ++ [10%N] ++ str "tue;-Infinity" ++ [10%N]
  ++ str "wed;Infinity".

Definition infinities_table : parsed := parseFile infinities.

End Samples.

(** ** The rest of the extension: statistics, periods, panels, the command *)

Module Extension.
Import JS FileChart.

(** *** selectStatistics *)

Record statItem := { stat_label : jsstring; stat_description : jsstring }.

Definition statisticOptions : list statItem :=
  [ {| stat_label := str "Max"; stat_description := str "Maximum value" |};
    {| stat_label := str "Min"; stat_description := str "Minimum value" |};
    {| stat_label := str "Average"; stat_description := str "Average value" |};
    {| stat_label := str "SMA"; stat_description := str "Simple Moving Average" |};
    {| stat_label := str "EMA"; stat_description := str "Exponential Moving Average" |} ].

Definition selectStatistics (showQuickPick : list statItem -> option (list statItem))
  : list jsstring :=
  match showQuickPick statisticOptions with
  | Some selectedItems => map stat_label selectedItems
  | None => []
  end.

(** *** parseInt

    [parseInt(s)] without a radix: leading white space and a sign are
    skipped, [0x] or [0X] switches to radix 16, and the longest prefix of
    digits is read.  The result is NaN when there is no digit, and else
    the number nearest to the integer the digits spell, with its sign. *)

Definition digit_of (c : N) : option Z :=
  if ((48 <=? c) && (c <=? 57))%N then Some (Z.of_N c - 48)%Z
  else if ((97 <=? c) && (c <=? 122))%N then Some (Z.of_N c - 87)%Z
  else if ((65 <=? c) && (c <=? 90))%N then Some (Z.of_N c - 55)%Z
  else None.

Fixpoint span_radix (R : Z) (s : jsstring) : list Z * jsstring :=
  match s with
  | c :: s' =>
      match digit_of c with
      | Some d =>
          if (d <? R)%Z
          then let (ds, r) := span_radix R s' in (d :: ds, r)
          else ([], s)
      | None => ([], s)
      end
  | [] => ([], [])
  end.

Definition radix_value (R : Z) (ds : list Z) : Z :=
  fold_left (fun a d => (R * a + d)%Z) ds 0%Z.

(** The sign and the integer that [parseInt] reads, if it reads one. *)
Definition read_integer (s : jsstring) : option (Z * Z) :=
  let trimmed := trimStart s in
  let '(sign, unsigned) :=
    match trimmed with
    | 45%N :: t => ((-1)%Z, t)
    | 43%N :: t => (1%Z, t)
    | _ => (1%Z, trimmed)
    end in
  let '(R, digits) :=
    match unsigned with
    | 48%N :: 120%N :: t => (16%Z, t)
    | 48%N :: 88%N :: t => (16%Z, t)
    | _ => (10%Z, unsigned)
    end in
  match span_radix R digits with
  | ([], _) => None
  | (ds, _) => Some (sign, radix_value R ds)
  end.

Definition parseInt (s : jsstring) : number :=
  match read_integer s with
  | None => PrimFloat.nan
  | Some (sign, mathInt) =>
      if ((sign <? 0) && (mathInt =? 0))%Z then PrimFloat.neg_zero
      else of_Z (sign * mathInt)
  end.

(** *** getMovingAveragePeriod and getMovingAveragePeriods *)

(** [validateInput]: [None] is null (the value is accepted), [Some] is
    the message shown under the box. *)
Definition validateInput (value : jsstring) : option jsstring :=
  let num := parseInt value in
  if PrimFloat.ltb PrimFloat.zero num then None
  else Some (str "Please enter a positive integer").

(** The input box: the user types one candidate after the other; the box
    closes with the first one that validates, or with undefined when the
    user gives up. *)
Definition showInputBox (validateInput : jsstring -> option jsstring)
           (typed : list jsstring) : option jsstring :=
  List.find (fun value => match validateInput value with
                          | None => true
                          | Some _ => false
                          end) typed.

(** [period ? parseInt(period) : 20]: the empty string is falsy. *)
Definition getMovingAveragePeriod (typed : jsstring -> list jsstring)
           (type : jsstring) : number :=
  let period := showInputBox validateInput (typed type) in
  match period with
  | Some (c :: p) => parseInt (c :: p)
  | Some [] | None => of_Z 20
  end.

(** The object [getMovingAveragePeriods] builds: a property is there only
    for a statistic that was requested. *)
Record periodsObject := {
  periods_sma : option number;
  periods_ema : option number
}.

(** [statistics.includes(label)] *)
Definition includes_label (statistics : list jsstring) (label : jsstring) : bool :=
  existsb (eqb label) statistics.

Definition getMovingAveragePeriods (typed : jsstring -> list jsstring)
           (statistics : list jsstring) : periodsObject :=
  {| periods_sma :=
       if includes_label statistics (str "SMA")
       then Some (getMovingAveragePeriod typed (str "SMA")) else None;
     periods_ema :=
       if includes_label statistics (str "EMA")
       then Some (getMovingAveragePeriod typed (str "EMA")) else None |}.

(** [createSMA] and [createEMA] take the period as an integer that stands
    for the number it becomes ([of_Z]).  This is the integer for a
    period: its value, and for an infinity the first integer that
    becomes one.  A period of [getMovingAveragePeriods] is never NaN and
    never a fraction; 0 stands where the object has no property, which
    [processData] never reads. *)
Definition integer_of (x : number) : Z :=
  match Prim2SF x with
  | S754_zero _ | S754_nan => 0%Z
  | S754_infinity s => cond_Zopp s (2 ^ 1024)%Z
  | S754_finite s m e =>
      cond_Zopp s (if (0 <=? e)%Z then Zpos m * 2 ^ e else Zpos m / 2 ^ (- e))%Z
  end.

Definition period_field (f : option number) : Z :=
  match f with
  | Some x => integer_of x
  | None => 0%Z
  end.

Definition periods_of (o : periodsObject) : periods :=
  {| sma := period_field (periods_sma o); ema := period_field (periods_ema o) |}.

(** *** Panels and their stored state

    [State] is the state object the chart posts; the extension stores it
    and hands it back without looking into it.  [basename] is
    [path.basename]. *)

Section Panels.
Context {State : Type}.
Variable basename : jsstring -> jsstring.

(** What [getWebviewContent] interpolates into the page. *)
Record page := {
  page_series : list series;
  page_categories : list (option jsstring);
  page_title : jsstring;
  page_type : jsstring;
  page_state : option State
}.

Definition getWebviewContent (series : list FileChart.series)
           (categories : list (option jsstring)) (chartTitle chartType : jsstring)
           (state : option State) : page :=
  {| page_series := series; page_categories := categories;
     page_title := chartTitle; page_type := chartType; page_state := state |}.

(** A webview panel: its title, the page it shows, and how many
    listeners were registered on it for messages and for changes of
    visibility. *)
Record panel := {
  panel_title : jsstring;
  panel_html : option page;
  message_listeners : nat;
  view_listeners : nat
}.

(** The maps [panels] and [states] of [activate]. *)
Record store := {
  panels : gmap (list N) panel;
  states : gmap (list N) State
}.

(** What the user gets to see, or the chart gets sent. *)
Inductive effect :=
| ShowErrorMessage (message : jsstring)
| ShowWarningMessage (message : jsstring)
| CreatePanel (panelId title : jsstring)
| RevealPanel (panelId : jsstring)
| PostRestoreState (panelId : jsstring) (state : option State).

Definition panelIdOf (fileName : jsstring) : jsstring := str "chart-" ++ fileName.

Definition showChart (series : list FileChart.series)
           (categories : list (option jsstring)) (fileName chartType : jsstring)
           (st : store) : store * list effect :=
  let chartTitle := str "Chart: " ++ basename fileName in
  let panelId := panelIdOf fileName in
  let '(panel, panels1, shown) :=
    match panels st !! panelId with
    | Some panel => (panel, panels st, [RevealPanel panelId])
    | None =>
        let panel := {| panel_title := chartTitle; panel_html := None;
                        message_listeners := 0; view_listeners := 0 |} in
        (panel, <[panelId := panel]> (panels st), [CreatePanel panelId chartTitle])
    end in
  let state := states st !! panelId in
  let panel :=
    {| panel_title := panel_title panel;
       panel_html := Some (getWebviewContent series categories chartTitle chartType state);
       message_listeners := S (message_listeners panel);
       view_listeners := S (view_listeners panel) |} in
  ({| panels := <[panelId := panel]> panels1; states := states st |}, shown).

(** The callback of [onDidDispose]. *)
Definition onDidDispose (panelId : jsstring) (st : store) : store :=
  {| panels := delete panelId (panels st); states := delete panelId (states st) |}.

(** The user closes the panel of [panelId], if there is one. *)
Definition dispose (panelId : jsstring) (st : store) : store :=
  match panels st !! panelId with
  | Some _ => onDidDispose panelId st
  | None => st
  end.

(** A message from the chart. *)
Inductive message :=
| StateUpdate (state : State)
| Error (text : jsstring)
| OtherCommand.

(** One callback of [onDidReceiveMessage]. *)
Definition onDidReceiveMessage (panelId : jsstring) (m : message) (st : store)
  : store * list effect :=
  match m with
  | StateUpdate state =>
      ({| panels := panels st; states := <[panelId := state]> (states st) |}, [])
  | Error text => (st, [ShowErrorMessage text])
  | OtherCommand => (st, [])
  end.

(** One callback of [onDidChangeViewState]. *)
Definition onDidChangeViewState (panelId : jsstring) (visible : bool) (st : store)
  : store * list effect :=
  if visible then (st, [PostRestoreState panelId (states st !! panelId)])
  else (st, []).

(** An event runs every callback registered for it, one after the
    other. *)
Fixpoint run_listeners (n : nat) (listener : store -> store * list effect)
         (st : store) : store * list effect :=
  match n with
  | O => (st, [])
  | S n' =>
      let '(st1, e1) := listener st in
      let '(st2, e2) := run_listeners n' listener st1 in
      (st2, e1 ++ e2)
  end.

(** The chart of [fileName] posts a message. *)
Definition receiveMessage (fileName : jsstring) (m : message) (st : store)
  : store * list effect :=
  match panels st !! panelIdOf fileName with
  | Some panel =>
      run_listeners (message_listeners panel)
                    (onDidReceiveMessage (panelIdOf fileName) m) st
  | None => (st, [])
  end.

(** The panel of [fileName] becomes visible or hidden. *)
Definition changeViewState (fileName : jsstring) (visible : bool) (st : store)
  : store * list effect :=
  match panels st !! panelIdOf fileName with
  | Some panel =>
      run_listeners (view_listeners panel)
                    (onDidChangeViewState (panelIdOf fileName) visible) st
  | None => (st, [])
  end.

(** *** The command [extension.fileChart] *)

Record document := { fileName : jsstring; getText : jsstring }.

(** The user, at the four places where the command waits for one. *)
Record user := {
  pickColumns : list item -> option (list item);
  pickChartType : list jsstring -> option jsstring;
  pickStatistics : list statItem -> option (list statItem);
  typePeriod : jsstring -> list jsstring
}.

(** All that [activate] keeps between two runs of the command. *)
Record world := {
  lastUsedColumns : gmap (list N) (list Z);
  charts : store
}.

Definition chartTypes : list jsstring :=
  [str "line"; str "spline"; str "bar"; str "column"; str "pie"].

Definition fileChart (u : user) (activeTextEditor : option document) (w : world)
  : world * list effect :=
  match activeTextEditor with
  | Some editor =>
      let parsed := parseFile (getText editor) in
      let headers := parsed_headers parsed in
      let data := parsed_data parsed in
      let warned := map ShowWarningMessage (parsed_warnings parsed) in
      if (0 <? length headers)%nat then
        let '(selectedColumns, lastUsed) :=
          selectColumns (pickColumns u) headers (fileName editor) (lastUsedColumns w) in
        match selectedColumns with
        | Some selectedColumns =>
            match pickChartType u chartTypes with
            | Some (c :: t) =>
                let chartType := c :: t in
                let statistics := selectStatistics (pickStatistics u) in
                let periods := getMovingAveragePeriods (typePeriod u) statistics in
                let '(series, categories) :=
                  processData headers data selectedColumns statistics
                              (periods_of periods) in
                let '(charts1, shown) :=
                  showChart series categories (fileName editor) chartType (charts w) in
                ({| lastUsedColumns := lastUsed; charts := charts1 |}, warned ++ shown)
            | Some [] | None =>
                ({| lastUsedColumns := lastUsed; charts := charts w |}, warned)
            end
        | None => ({| lastUsedColumns := lastUsed; charts := charts w |}, warned)
        end
      else (w, warned ++ [ShowErrorMessage (str "No valid data found in the file.")])
  | None => (w, [ShowErrorMessage (str "No active text editor found.")])
  end.

End Panels.

End Extension.

(** ** More of the vocabulary, and more samples *)

Module Notions.
Import JS FileChart Extension.

(** How often the delimiter occurs in a line. *)
Definition occurrences (sep : N) (line : jsstring) : nat :=
  length (List.filter (N.eqb sep) line).

(** A table written out: the fields of a line joined by the delimiter,
    the lines joined by line feeds. *)
Definition written (sep : N) (table : list (list jsstring)) : jsstring :=
  Spec.join 10 (map (Spec.join sep) table).

(** A field that holds neither the delimiter nor a line feed. *)
Definition plain_field (sep : N) (f : jsstring) : Prop := (sep ∉ f) /\ (10%N ∉ f).

(** A line of a written table that the parser keeps whole: it has a
    field, its fields are plain, and it is not blank. *)
Definition plain_line (sep : N) (fields : list jsstring) : Prop :=
  fields <> [] /\ Forall (plain_field sep) fields
  /\ Spec.blank (Spec.join sep fields) = false.

(** What may follow the digits of an integer: nothing, or a code unit
    that is white space. *)
Definition ends_number (r : jsstring) : Prop :=
  match r with
  | c :: _ => is_whitespace c = true
  | [] => True
  end.

(** What may follow the digits of a period: nothing, or a code unit that
    is neither a decimal digit nor the [x] of a hexadecimal prefix. *)
Definition ends_integer (r : jsstring) : Prop :=
  match r with
  | c :: _ => is_digit c = false /\ c <> 120%N /\ c <> 88%N
  | [] => True
  end.

(** The statistic a label stands for, if any. *)
Definition statistic_of (label : jsstring) : option Spec.statistic :=
  List.find (fun st => eqb label (Spec.label_of st))
            [Spec.Max; Spec.Min; Spec.Average; Spec.SMA; Spec.EMA].

(** The requested statistics that [processData] knows. *)
Definition requested (statistics : list jsstring) : list Spec.statistic :=
  omap statistic_of statistics.

Definition all_statistics : list Spec.statistic :=
  [Spec.Max; Spec.Min; Spec.Average; Spec.SMA; Spec.EMA].

(** The answer to the statistics pick is one the dialog can give. *)
Definition statistics_of_dialog (ui : list statItem -> option (list statItem)) : Prop :=
  forall options picked, ui options = Some picked -> sublist picked options.

(** Every value of the series is absent. *)
Definition all_absent (d : list value) : Prop := Forall (fun v => v = Null) d.

(** The store keeps a state only for a panel that is open, and every
    open panel shows a page and has its listeners. *)
Definition store_ok {State} (st : @store State) : Prop :=
  (forall id, is_Some (states st !! id) -> is_Some (panels st !! id))
  /\ (forall id p, panels st !! id = Some p ->
        is_Some (panel_html p)
        /\ (1 <= message_listeners p)%nat /\ (1 <= view_listeners p)%nat).

(** The chart type pick is cancelled (or gives the empty string). *)
Definition no_chart_type (answer : option jsstring) : Prop :=
  answer = None \/ answer = Some [].

(** The store before any chart was shown. *)
Definition no_charts {State} : @store State := {| panels := ∅; states := ∅ |}.

End Notions.

Module MoreSamples.
Import JS FileChart Extension.

(** A table of two columns and two rows. *)
Definition small_table : list (list jsstring) :=
  [[str "day"; str "a"]; [str "mon"; str "1"]; [str "tue"; str "2"]].

(** [path.basename] for paths with forward slashes. *)
Definition basename (path : jsstring) : jsstring := List.last (split 47 path) [].

(** A user who keeps the marked columns, wants lines, asks for the two
    moving averages and types a period with a unit. *)
Definition keen : user :=
  {| pickColumns := fun options => Some (List.filter picked options);
     pickChartType := fun _ => Some (str "line");
     pickStatistics := fun options => Some (List.filter
                         (fun o => eqb (stat_label o) (str "SMA")
                                   || eqb (stat_label o) (str "EMA")) options);
     typePeriod := fun _ => [str "abc"; str "2 days"] |}.

(** A user who keeps the marked columns and then closes the pick of the
    chart type. *)
Definition hesitant : user :=
  {| pickColumns := fun options => Some (List.filter picked options);
     pickChartType := fun _ => None;
     pickStatistics := fun _ => None;
     typePeriod := fun _ => [] |}.

(** The store after one chart was shown for [report.csv]; the states it
    keeps are numbers. *)
Definition shown_once : @store nat :=
  (showChart basename [] [] (str "report.csv") (str "line") Notions.no_charts).1.

Definition fresh_world : @world nat :=
  {| lastUsedColumns := ∅; charts := Notions.no_charts |}.

Definition blank_document : document :=
  {| fileName := str "empty.csv"; getText := str "  " ++ [10%N; 9%N; 10%N] |}.

Definition report : document :=
  {| fileName := str "report.csv";
     getText := Notions.written 59 small_table |}.

End MoreSamples.

(** ** Magnitudes of binary64 numbers

    Notions for saying that an operation does not overflow: the
    magnitude of a finite number with mantissa [m] and exponent [e] is
    the number of binary digits of [m] plus [e]. *)

Module Binary64.
Local Open Scope Z_scope.

(** A number that is zero or finite. *)
Definition SFfinite (x : spec_float) : Prop :=
  match x with
  | S754_zero _ | S754_finite _ _ _ => True
  | _ => False
  end.

(** A number below [2 ^ B] in magnitude. *)
Definition SFbelow (B : Z) (x : spec_float) : Prop :=
  match x with
  | S754_zero _ => True
  | S754_finite _ m e => Zpos (digits2_pos m) + e <= B
  | _ => False
  end.

(** A number of sign [s] that is [2 ^ (A - 1)] at least in magnitude. *)
Definition SFabove (A : Z) (s : bool) (x : spec_float) : Prop :=
  match x with
  | S754_infinity b => b = s
  | S754_finite b m e => b = s /\ A <= Zpos (digits2_pos m) + e
  | _ => False
  end.

Definition SF_one : spec_float := S754_finite false 4503599627370496 (-52).
Definition SF_two : spec_float := S754_finite false 4503599627370496 (-51).

(** A number that is not negative. *)
Definition SFnonneg (x : spec_float) : Prop :=
  match x with
  | S754_zero _ => True
  | S754_infinity s | S754_finite s _ _ => s = false
  | S754_nan => False
  end.

End Binary64.

(** ** Facts about binary64 arithmetic

    The sign of a zero is the one place where [value || 0] and "absent
    counts as zero" could part: a running sum that starts at +0 is never
    a negative zero, so adding either zero to it changes nothing. *)

Module FloatFacts.
Local Open Scope Z_scope.

Lemma shr_1_halves mrs :
  0 <= shr_m mrs ->
  2 * shr_m (shr_1 mrs) <= shr_m mrs < 2 * shr_m (shr_1 mrs) + 2.
Proof.
  destruct mrs as [m r s]; simpl.
  destruct m as [|[p|p|]|p]; simpl; lia.
Qed.

Lemma iter_shr_1_lower p : forall mrs c,
  0 <= shr_m mrs ->
  c * 2 ^ Zpos p <= shr_m mrs ->
  0 <= shr_m (SpecFloat.iter_pos shr_1 p mrs) /\ c <= shr_m (SpecFloat.iter_pos shr_1 p mrs).
Proof.
  induction p as [p IH|p IH|]; intros mrs c Hm Hc; simpl SpecFloat.iter_pos.
  - pose proof (shr_1_halves mrs Hm) as H1.
    replace (2 ^ Zpos p~1) with (2 * (2 ^ Zpos p * 2 ^ Zpos p)) in Hc
      by (rewrite <- Z.pow_add_r, <- Z.pow_succ_r by lia; f_equal; lia).
    assert (H2 : (c * 2 ^ Zpos p) * 2 ^ Zpos p <= shr_m (shr_1 mrs)) by nia.
    destruct (IH (shr_1 mrs) (c * 2 ^ Zpos p)) as [H3 H4]; [lia | exact H2 |].
    apply IH; assumption.
  - replace (2 ^ Zpos p~0) with (2 ^ Zpos p * 2 ^ Zpos p) in Hc
      by (rewrite <- Z.pow_add_r by lia; f_equal; lia).
    destruct (IH mrs (c * 2 ^ Zpos p)) as [H3 H4]; [lia | lia |].
    apply IH; assumption.
  - pose proof (shr_1_halves mrs Hm) as H1. change (2 ^ 1) with 2 in Hc. lia.
Qed.







Lemma shr_fexp_nonneg m e l :
  0 <= m -> 0 <= shr_m (fst (shr_fexp prec emax m e l)).
Proof.
  intros Hm. unfold shr_fexp, shr.
  assert (Hrec : shr_m (shr_record_of_loc m l) = m)
    by (destruct l as [|[]]; reflexivity).
  destruct (fexp prec emax (Zdigits2 m + e) - e) as [|q|q]; simpl fst;
    try (rewrite Hrec; lia).
  apply (iter_shr_1_lower q _ 0); rewrite Hrec; lia.
Qed.

Lemma binary_round_aux_not_nan sx m e l :
  0 <= m -> binary_round_aux prec emax sx m e l <> S754_nan.
Proof.
  intros Hm. unfold binary_round_aux.
  pose proof (shr_fexp_nonneg m e l Hm) as H1.
  destruct (shr_fexp prec emax m e l) as [mrs' e']. simpl fst in H1.
  assert (H3 : 0 <= round_nearest_even (shr_m mrs') (loc_of_shr_record mrs')).
  { unfold round_nearest_even.
    destruct (loc_of_shr_record mrs') as [|[]]; try lia.
    destruct (Z.even (shr_m mrs')); lia. }
  pose proof (shr_fexp_nonneg _ e' loc_Exact H3) as H4.
  destruct (shr_fexp prec emax _ e' loc_Exact) as [mrs'' e'']. simpl fst in H4.
  destruct (shr_m mrs'') as [|m''|m'']; try lia; try discriminate.
  destruct (e'' <=? emax - prec); discriminate.
Qed.

Lemma binary_round_not_nan sx m e : binary_round prec emax sx m e <> S754_nan.
Proof.
  unfold binary_round.
  destruct (shl_align m e (fexp prec emax (Zpos (digits2_pos m) + e))) as [mz ez].
  apply binary_round_aux_not_nan. lia.
Qed.

Lemma binary_normalize_not_nan m e sz :
  binary_normalize prec emax m e sz <> S754_nan.
Proof.
  destruct m; simpl; [discriminate| |]; apply binary_round_not_nan.
Qed.

Lemma is_nan_Prim2SF x : PrimFloat.is_nan x = true <-> Prim2SF x = S754_nan.
Proof.
  unfold Prim2SF. destruct (PrimFloat.is_nan x); [tauto|].
  split; [discriminate|].
  destruct (PrimFloat.is_zero x); [discriminate|].
  destruct (PrimFloat.is_infinity x); [discriminate|].
  destruct (Z.frexp x) as [r ex].
  destruct (shr_fexp _ _ _ _ _) as [shr e'].
  destruct (shr_m shr); discriminate.
Qed.

Lemma not_nan_Prim2SF x : Prim2SF x <> S754_nan -> PrimFloat.is_nan x = false.
Proof.
  intros H. destruct (PrimFloat.is_nan x) eqn:E; [|reflexivity].
  by apply is_nan_Prim2SF in E.
Qed.

Lemma opp_not_nan x : PrimFloat.is_nan x = false -> PrimFloat.is_nan (- x)%float = false.
Proof.
  intros H. apply not_nan_Prim2SF. rewrite opp_spec.
  intros Hn. assert (Prim2SF x = S754_nan) as Hx
    by (destruct (Prim2SF x); simpl in Hn; congruence).
  apply is_nan_Prim2SF in Hx. congruence.
Qed.

(** A number built from the specification format is a NaN only when the
    specification says so. *)
Lemma SF2Prim_not_nan x : x <> S754_nan -> PrimFloat.is_nan (SF2Prim x) = false.
Proof.
  intros Hx. destruct x as [[]|[]| |s m e]; try reflexivity; [congruence|].
  unfold SF2Prim.
  assert (H : PrimFloat.is_nan (Z.ldexp (of_uint63 (Uint63.of_Z (Zpos m))) e) = false).
  { apply not_nan_Prim2SF. rewrite FloatLemmas.Z_ldexp_spec, of_uint63_spec.
    pose proof (binary_normalize_not_nan (Uint63.to_Z (Uint63.of_Z (Zpos m))) 0 false) as Hn.
    destruct (binary_normalize _ _ _ _ _); simpl; try congruence.
    apply binary_round_not_nan. }
  destruct s; [by apply opp_not_nan|exact H].
Qed.


Lemma is_zero_spec x : PrimFloat.is_zero x = true -> exists s, Prim2SF x = S754_zero s.
Proof.
  unfold PrimFloat.is_zero. rewrite FloatAxioms.eqb_spec.
  change (Prim2SF PrimFloat.zero) with (S754_zero false).
  destruct (Prim2SF x) as [s|s| |s m e]; eauto;
    unfold SFeqb, SFcompare; try destruct s; discriminate.
Qed.

(** Adding a zero of either sign to a number that is not a negative zero
    gives the same result. *)
Lemma add_zero_any_sign s x :
  Prim2SF s <> S754_zero true -> PrimFloat.is_zero x = true ->
  (s + x)%float = (s + PrimFloat.zero)%float.
Proof.
  intros Hs Hx. apply is_zero_spec in Hx as [b Hb].
  apply Prim2SF_inj. rewrite !FloatAxioms.add_spec, Hb.
  change (Prim2SF PrimFloat.zero) with (S754_zero false).
  unfold SF64add, SFadd.
  destruct (Prim2SF s) as [[]|[]| |]; destruct b; try reflexivity. congruence.
Qed.

Lemma add_zero_r x : Prim2SF x <> S754_zero true -> (x + PrimFloat.zero)%float = x.
Proof.
  intros Hx. apply Prim2SF_inj. rewrite FloatAxioms.add_spec.
  change (Prim2SF PrimFloat.zero) with (S754_zero false).
  unfold SF64add, SFadd.
  destruct (Prim2SF x) as [[]|[]| |]; try reflexivity. congruence.
Qed.


(** *** Magnitudes: what rounding does to the size of a number *)

Lemma digits2_pos_bounds p :
  2 ^ (Zpos (digits2_pos p) - 1) <= Zpos p < 2 ^ Zpos (digits2_pos p).
Proof.
  induction p as [p IH|p IH|]; simpl digits2_pos; [| |simpl; lia];
    rewrite Pos2Z.inj_succ;
    replace (Z.succ (Zpos (digits2_pos p)) - 1)
      with (Z.succ (Zpos (digits2_pos p) - 1)) by lia;
    rewrite !Z.pow_succ_r by lia; lia.
Qed.

Lemma Zdigits2_log2 m : 0 < m -> Zdigits2 m = Z.log2 m + 1.
Proof.
  destruct m as [|p|p]; try lia. intros _. simpl Zdigits2.
  pose proof (digits2_pos_bounds p) as H.
  rewrite (Z.log2_unique (Zpos p) (Zpos (digits2_pos p) - 1)); [lia|lia|].
  replace (Z.succ (Zpos (digits2_pos p) - 1)) with (Zpos (digits2_pos p)) by lia.
  exact H.
Qed.

Lemma Zdigits2_nonneg m : 0 <= Zdigits2 m.
Proof. destruct m; simpl; lia. Qed.

Lemma Zdigits2_pos m : 0 < m -> 0 < Zdigits2 m.
Proof. destruct m; simpl; lia. Qed.

Lemma Zdigits2_mono a b : 0 <= a <= b -> Zdigits2 a <= Zdigits2 b.
Proof.
  intros [Ha Hab]. destruct (Z.eq_dec a 0) as [->|Hne]; [apply Zdigits2_nonneg|].
  rewrite !Zdigits2_log2 by lia. pose proof (Z.log2_le_mono a b Hab). lia.
Qed.

Lemma Zdigits2_succ m : 0 <= m -> Zdigits2 (m + 1) <= Zdigits2 m + 1.
Proof.
  intros Hm. destruct (Z.eq_dec m 0) as [->|Hne]; [simpl; lia|].
  rewrite !Zdigits2_log2 by lia. pose proof (Z.log2_succ_le m).
  change (Z.succ m) with (m + 1) in *. lia.
Qed.

Lemma Zdigits2_div_pow2 m n :
  0 <= m -> 0 <= n -> Zdigits2 (m / 2 ^ n) = Z.max 0 (Zdigits2 m - n).
Proof.
  intros Hm Hn. destruct (Z.eq_dec m 0) as [->|Hne].
  { rewrite Z.div_0_l by (apply Z.pow_nonzero; lia). simpl. lia. }
  assert (Hp : 0 < 2 ^ n) by (apply Z.pow_pos_nonneg; lia).
  destruct (Z.eq_dec (m / 2 ^ n) 0) as [Hz|Hnz].
  - rewrite Hz. simpl Zdigits2.
    apply Z.div_small_iff in Hz; [|lia].
    destruct Hz as [Hz|Hz]; [|lia].
    assert (Z.log2 m < n) by (apply Z.log2_lt_pow2; lia).
    rewrite Zdigits2_log2 by lia. lia.
  - assert (0 <= m / 2 ^ n) by (apply Z.div_pos; lia).
    rewrite !Zdigits2_log2 by lia.
    rewrite <- Z.shiftr_div_pow2, Z.log2_shiftr by lia.
    assert (2 ^ n <= m).
    { destruct (Z.le_gt_cases (2 ^ n) m) as [|Hlt]; [assumption|].
      rewrite Z.div_small in Hnz by lia. lia. }
    assert (n <= Z.log2 m) by (apply Z.log2_le_pow2; lia).
    lia.
Qed.

Lemma Zdigits2_mul_pow2 m n : 0 < m -> 0 <= n -> Zdigits2 (m * 2 ^ n) = Zdigits2 m + n.
Proof.
  intros Hm Hn. assert (0 < 2 ^ n) by (apply Z.pow_pos_nonneg; lia).
  rewrite !Zdigits2_log2 by nia. rewrite Z.log2_mul_pow2 by lia. lia.
Qed.

Lemma Zdigits2_le m d : 0 <= m -> 0 <= d -> (Zdigits2 m <= d <-> m < 2 ^ d).
Proof.
  intros Hm Hd. assert (0 < 2 ^ d) by (apply Z.pow_pos_nonneg; lia).
  destruct (Z.eq_dec m 0) as [->|Hne]; [simpl; lia|].
  rewrite Zdigits2_log2 by lia. rewrite Z.log2_lt_pow2 by lia. lia.
Qed.

Lemma Zdigits2_add a b : 0 <= a -> 0 <= b ->
  Zdigits2 (a + b) <= Z.max (Zdigits2 a) (Zdigits2 b) + 1.
Proof.
  intros Ha Hb.
  pose proof (Zdigits2_nonneg a). pose proof (Zdigits2_nonneg b).
  apply Zdigits2_le; [lia|lia|].
  assert (a < 2 ^ Zdigits2 a) by (apply Zdigits2_le; lia).
  assert (b < 2 ^ Zdigits2 b) by (apply Zdigits2_le; lia).
  assert (2 ^ Zdigits2 a <= 2 ^ Z.max (Zdigits2 a) (Zdigits2 b))
    by (apply Z.pow_le_mono_r; lia).
  assert (2 ^ Zdigits2 b <= 2 ^ Z.max (Zdigits2 a) (Zdigits2 b))
    by (apply Z.pow_le_mono_r; lia).
  rewrite Z.pow_add_r by lia. lia.
Qed.

(** The quotient of two mantissas has about as many digits as the
    difference says. *)
Lemma Zdigits2_div a b : 0 <= a -> 0 < b ->
  Zdigits2 (a / b) <= Z.max 0 (Zdigits2 a - Zdigits2 b + 1).
Proof.
  intros Ha Hb.
  assert (Hq : 0 <= a / b) by (apply Z.div_pos; lia).
  pose proof (Zdigits2_nonneg a). pose proof (Zdigits2_pos b Hb).
  apply Zdigits2_le; [lia|lia|].
  assert (Hlow : 2 ^ (Zdigits2 b - 1) <= b).
  { rewrite Zdigits2_log2 by lia.
    replace (Z.log2 b + 1 - 1) with (Z.log2 b) by lia.
    apply Z.log2_spec. lia. }
  assert (Hup : a < 2 ^ Zdigits2 a) by (apply Zdigits2_le; lia).
  apply Z.div_lt_upper_bound; [lia|].
  set (d := Z.max 0 (Zdigits2 a - Zdigits2 b + 1)).
  assert (2 ^ Zdigits2 a <= 2 ^ (Zdigits2 b - 1) * 2 ^ d).
  { rewrite <- Z.pow_add_r by lia. apply Z.pow_le_mono_r; lia. }
  assert (0 < 2 ^ d) by (apply Z.pow_pos_nonneg; lia).
  nia.
Qed.

Lemma shr_1_m mrs : 0 <= shr_m mrs -> shr_m (shr_1 mrs) = shr_m mrs / 2.
Proof.
  rewrite <- Z.div2_div.
  destruct mrs as [[|[p|p|]|p] r s]; simpl; intros; try reflexivity; lia.
Qed.

Lemma iter_shr_1_m p : forall mrs,
  0 <= shr_m mrs ->
  shr_m (SpecFloat.iter_pos shr_1 p mrs) = shr_m mrs / 2 ^ Zpos p.
Proof.
  assert (Hpow : forall q, 0 < 2 ^ Zpos q) by (intros; apply Z.pow_pos_nonneg; lia).
  induction p as [p IH|p IH|]; intros mrs Hm; simpl SpecFloat.iter_pos.
  - assert (H1 : 0 <= shr_m (shr_1 mrs))
      by (rewrite shr_1_m by assumption; apply Z.div_pos; lia).
    assert (H2 : 0 <= shr_m (SpecFloat.iter_pos shr_1 p (shr_1 mrs))).
    { rewrite IH by assumption. apply Z.div_pos; [lia|apply Hpow]. }
    rewrite IH, IH, shr_1_m by assumption.
    pose proof (Hpow p).
    rewrite !Z.div_div by lia. f_equal.
    replace (2 ^ Zpos p~1) with (2 * (2 ^ Zpos p * 2 ^ Zpos p))
      by (rewrite <- Z.pow_add_r, <- Z.pow_succ_r by lia; f_equal; lia).
    lia.
  - assert (H2 : 0 <= shr_m (SpecFloat.iter_pos shr_1 p mrs)).
    { rewrite IH by assumption. apply Z.div_pos; [lia|apply Hpow]. }
    rewrite IH, IH by assumption.
    pose proof (Hpow p).
    rewrite !Z.div_div by lia. f_equal.
    replace (2 ^ Zpos p~0) with (2 ^ Zpos p * 2 ^ Zpos p)
      by (rewrite <- Z.pow_add_r by lia; f_equal; lia).
    reflexivity.
  - rewrite shr_1_m by assumption. reflexivity.
Qed.

(** What [shr_fexp] does to a mantissa: the exponent is raised to the
    canonical one, if it is below it, and the mantissa is cut to fit. *)
Lemma shr_fexp_spec m e l :
  0 <= m ->
  shr_m (fst (shr_fexp prec emax m e l))
  = m / 2 ^ (Z.max e (fexp prec emax (Zdigits2 m + e)) - e)
  /\ snd (shr_fexp prec emax m e l) = Z.max e (fexp prec emax (Zdigits2 m + e)).
Proof.
  intros Hm. unfold shr_fexp, shr.
  assert (Hrec : shr_m (shr_record_of_loc m l) = m)
    by (destruct l as [|[]]; reflexivity).
  destruct (fexp prec emax (Zdigits2 m + e) - e) as [|q|q] eqn:Hn;
    cbn [fst snd].
  - replace (Z.max e (fexp prec emax (Zdigits2 m + e)) - e) with 0 by lia.
    rewrite Hrec, Z.div_1_r. split; [reflexivity|lia].
  - replace (Z.max e (fexp prec emax (Zdigits2 m + e)) - e) with (Zpos q) by lia.
    rewrite iter_shr_1_m, Hrec by (rewrite Hrec; lia). split; [reflexivity|lia].
  - replace (Z.max e (fexp prec emax (Zdigits2 m + e)) - e) with 0 by lia.
    rewrite Hrec, Z.div_1_r. split; [reflexivity|lia].
Qed.

Lemma round_nearest_even_bounds m l :
  m <= round_nearest_even m l <= m + 1.
Proof.
  unfold round_nearest_even. destruct l as [|[]]; try lia.
  destruct (Z.even m); lia.
Qed.

(** Rounding, step by step: the mantissa is cut, moved up by one at
    most, and cut again. *)
Lemma binary_round_aux_spec s m e l :
  0 <= m ->
  exists m2,
    m / 2 ^ (Z.max e (fexp prec emax (Zdigits2 m + e)) - e) <= m2
    /\ m2 <= m / 2 ^ (Z.max e (fexp prec emax (Zdigits2 m + e)) - e) + 1
    /\ binary_round_aux prec emax s m e l
       = let e1 := Z.max e (fexp prec emax (Zdigits2 m + e)) in
         let e3 := Z.max e1 (fexp prec emax (Zdigits2 m2 + e1)) in
         match m2 / 2 ^ (e3 - e1) with
         | Z0 => S754_zero s
         | Zpos m3 => if e3 <=? emax - prec then S754_finite s m3 e3
                      else S754_infinity s
         | Zneg _ => S754_nan
         end.
Proof.
  intros Hm. unfold binary_round_aux.
  destruct (shr_fexp_spec m e l Hm) as [H1 H2].
  destruct (shr_fexp prec emax m e l) as [mrs' e']. cbn [fst snd] in H1, H2.
  pose proof (round_nearest_even_bounds (shr_m mrs') (loc_of_shr_record mrs')) as Hr.
  set (m2 := round_nearest_even (shr_m mrs') (loc_of_shr_record mrs')) in *.
  assert (H0 : 0 <= shr_m mrs').
  { rewrite H1. apply Z.div_pos; [lia|apply Z.pow_pos_nonneg; lia]. }
  destruct (shr_fexp_spec m2 e' loc_Exact) as [H3 H4]; [lia|].
  destruct (shr_fexp prec emax m2 e' loc_Exact) as [mrs'' e'']. cbn [fst snd] in H3, H4.
  exists m2. rewrite <- H1. split; [lia|]. split; [lia|].
  cbn zeta. rewrite <- H2, <- H3, <- H4. reflexivity.
Qed.

Lemma fexp_eq x : fexp prec emax x = Z.max (x - 53) (-1074).
Proof. reflexivity. Qed.

Lemma binary_round_aux_below s m e l B :
  0 <= m -> e <= 971 -> Zdigits2 m + e <= B -> -1074 <= B -> B <= 1023 ->
  Binary64.SFbelow (B + 1) (binary_round_aux prec emax s m e l).
Proof.
  intros Hm He HD HB1 HB2.
  destruct (binary_round_aux_spec s m e l Hm) as (m2 & Hlo & Hhi & ->).
  cbn zeta. rewrite !fexp_eq in *.
  remember (Z.max e (Z.max (Zdigits2 m + e - 53) (-1074))) as e1 eqn:He1.
  remember (m / 2 ^ (e1 - e)) as m1 eqn:Hm1.
  assert (H1 : 0 <= m1) by (subst m1; apply Z.div_pos; [lia|apply Z.pow_pos_nonneg; lia]).
  assert (Hd1 : Zdigits2 m1 = Z.max 0 (Zdigits2 m - (e1 - e)))
    by (subst m1; apply Zdigits2_div_pow2; lia).
  assert (Hd2 : Zdigits2 m2 <= Zdigits2 m1 + 1).
  { etransitivity; [apply (Zdigits2_mono m2 (m1 + 1)); lia|].
    apply Zdigits2_succ; lia. }
  pose proof (Zdigits2_nonneg m) as Hdm.
  remember (Z.max e1 (Z.max (Zdigits2 m2 + e1 - 53) (-1074))) as e3 eqn:He3.
  assert (Hd3 : Zdigits2 (m2 / 2 ^ (e3 - e1)) = Z.max 0 (Zdigits2 m2 - (e3 - e1)))
    by (apply Zdigits2_div_pow2; lia).
  destruct (m2 / 2 ^ (e3 - e1)) as [|m3|m3] eqn:E3.
  - exact I.
  - destruct (Z.leb_spec e3 (emax - prec)) as [_|Hov].
    + simpl. simpl Zdigits2 in Hd3. lia.
    + unfold emax, prec in Hov. lia.
  - assert (0 <= m2 / 2 ^ (e3 - e1))
      by (apply Z.div_pos; [lia|apply Z.pow_pos_nonneg; lia]). lia.
Qed.

Lemma binary_round_aux_above s m e l A :
  0 < m -> A <= Zdigits2 m + e -> -1074 < A ->
  Binary64.SFabove A s (binary_round_aux prec emax s m e l).
Proof.
  intros Hm HA HA'.
  destruct (binary_round_aux_spec s m e l) as (m2 & Hlo & Hhi & ->); [lia|].
  cbn zeta. rewrite !fexp_eq in *.
  remember (Z.max e (Z.max (Zdigits2 m + e - 53) (-1074))) as e1 eqn:He1.
  remember (m / 2 ^ (e1 - e)) as m1 eqn:Hm1.
  assert (H1 : 0 <= m1) by (subst m1; apply Z.div_pos; [lia|apply Z.pow_pos_nonneg; lia]).
  assert (Hd1 : Zdigits2 m1 = Z.max 0 (Zdigits2 m - (e1 - e)))
    by (subst m1; apply Zdigits2_div_pow2; lia).
  assert (Hd2 : Zdigits2 m1 <= Zdigits2 m2) by (apply Zdigits2_mono; lia).
  pose proof (Zdigits2_pos m Hm) as Hdm.
  remember (Z.max e1 (Z.max (Zdigits2 m2 + e1 - 53) (-1074))) as e3 eqn:He3.
  assert (Hd3 : Zdigits2 (m2 / 2 ^ (e3 - e1)) = Z.max 0 (Zdigits2 m2 - (e3 - e1)))
    by (apply Zdigits2_div_pow2; lia).
  destruct (m2 / 2 ^ (e3 - e1)) as [|m3|m3] eqn:E3.
  - simpl Zdigits2 in Hd3. lia.
  - destruct (e3 <=? emax - prec); simpl; [|reflexivity].
    split; [reflexivity|]. simpl Zdigits2 in Hd3. lia.
  - assert (0 <= m2 / 2 ^ (e3 - e1))
      by (apply Z.div_pos; [lia|apply Z.pow_pos_nonneg; lia]). lia.
Qed.

Lemma iter_xO m d : Zpos (Pos.iter xO m d) = Zpos m * 2 ^ Zpos d.
Proof.
  induction d as [|d IH] using Pos.peano_ind.
  - simpl. lia.
  - rewrite Pos.iter_succ, Pos2Z.inj_xO, IH, Pos2Z.inj_succ, Z.pow_succ_r by lia. lia.
Qed.

(** [shl_align] lowers the exponent to the one asked for, if it is above
    it, and leaves the value alone. *)
Lemma shl_align_spec mx ex ex' :
  snd (shl_align mx ex ex') = Z.min ex ex'
  /\ Zpos (fst (shl_align mx ex ex')) = Zpos mx * 2 ^ (ex - Z.min ex ex').
Proof.
  unfold shl_align. destruct (ex' - ex) as [|d|d] eqn:E; cbn [fst snd].
  - replace (ex - Z.min ex ex') with 0 by lia. split; lia.
  - replace (ex - Z.min ex ex') with 0 by lia. split; lia.
  - replace (ex - Z.min ex ex') with (Zpos d) by lia. rewrite iter_xO. split; lia.
Qed.

Lemma shl_align_digits mx ex ex' :
  Zdigits2 (Zpos (fst (shl_align mx ex ex'))) + snd (shl_align mx ex ex')
  = Zpos (digits2_pos mx) + ex.
Proof.
  destruct (shl_align_spec mx ex ex') as [-> ->].
  rewrite Zdigits2_mul_pow2 by lia. simpl Zdigits2. lia.
Qed.

Lemma binary_round_below s m e B :
  Zpos (digits2_pos m) + e <= B -> -1074 <= B -> B <= 1023 ->
  Binary64.SFbelow (B + 1) (binary_round prec emax s m e).
Proof.
  intros HD HB1 HB2. unfold binary_round.
  pose proof (shl_align_digits m e (fexp prec emax (Zpos (digits2_pos m) + e))) as Hd.
  destruct (shl_align_spec m e (fexp prec emax (Zpos (digits2_pos m) + e))) as [He _].
  destruct (shl_align m e _) as [mz ez]. cbn [fst snd] in *.
  rewrite fexp_eq in He.
  apply binary_round_aux_below; lia.
Qed.

Lemma binary_round_above s m e A :
  A <= Zpos (digits2_pos m) + e -> -1074 < A ->
  Binary64.SFabove A s (binary_round prec emax s m e).
Proof.
  intros HA HA'. unfold binary_round.
  pose proof (shl_align_digits m e (fexp prec emax (Zpos (digits2_pos m) + e))) as Hd.
  destruct (shl_align m e _) as [mz ez]. cbn [fst snd] in *.
  apply binary_round_aux_above; lia.
Qed.

(** What rounding returns is a number of the format. *)
Lemma binary_round_valid s m e : valid_binary (binary_round prec emax s m e) = true.
Proof.
  unfold binary_round.
  pose proof (shl_align_digits m e (fexp prec emax (Zpos (digits2_pos m) + e))) as Hd.
  destruct (shl_align_spec m e (fexp prec emax (Zpos (digits2_pos m) + e))) as [He _].
  destruct (shl_align m e _) as [mz ez]. cbn [fst snd] in *.
  destruct (binary_round_aux_spec s (Zpos mz) ez loc_Exact) as (m2 & Hlo & Hhi & ->);
    [lia|].
  cbn zeta. rewrite !fexp_eq in *.
  remember (Z.max ez (Z.max (Zdigits2 (Zpos mz) + ez - 53) (-1074))) as e1 eqn:He1.
  remember (Zpos mz / 2 ^ (e1 - ez)) as m1 eqn:Hm1.
  assert (H1 : 0 <= m1) by (subst m1; apply Z.div_pos; [lia|apply Z.pow_pos_nonneg; lia]).
  assert (Hd1 : Zdigits2 m1 = Z.max 0 (Zdigits2 (Zpos mz) - (e1 - ez)))
    by (subst m1; apply Zdigits2_div_pow2; lia).
  assert (Hd2 : Zdigits2 m1 <= Zdigits2 m2) by (apply Zdigits2_mono; lia).
  remember (Z.max e1 (Z.max (Zdigits2 m2 + e1 - 53) (-1074))) as e3 eqn:He3.
  assert (Hd3 : Zdigits2 (m2 / 2 ^ (e3 - e1)) = Z.max 0 (Zdigits2 m2 - (e3 - e1)))
    by (apply Zdigits2_div_pow2; lia).
  destruct (m2 / 2 ^ (e3 - e1)) as [|m3|m3] eqn:E3; [reflexivity| |].
  - destruct (Z.leb_spec e3 (emax - prec)) as [Hle|Hov]; [|reflexivity].
    simpl. unfold bounded, canonical_mantissa. rewrite fexp_eq.
    simpl Zdigits2 in Hd3.
    apply andb_true_intro. split; [apply Z.eqb_eq|apply Z.leb_le; exact Hle].
    lia.
  - assert (0 <= m2 / 2 ^ (e3 - e1))
      by (apply Z.div_pos; [lia|apply Z.pow_pos_nonneg; lia]). lia.
Qed.

Lemma binary_normalize_valid m e sz :
  valid_binary (binary_normalize prec emax m e sz) = true.
Proof. destruct m; simpl; [reflexivity| |]; apply binary_round_valid. Qed.

(** A number of the format has 53 digits at most, so it is below
    [2 ^ 1024] in magnitude. *)
Lemma valid_below x : valid_binary x = true -> Binary64.SFfinite x -> Binary64.SFbelow 1024 x.
Proof.
  destruct x as [s|s| |s m e]; simpl; try tauto. intros H _.
  unfold bounded, canonical_mantissa in H. rewrite fexp_eq in H.
  apply andb_prop in H as [H1 H2]. apply Z.eqb_eq in H1. apply Z.leb_le in H2.
  unfold emax, prec in H2. lia.
Qed.

Lemma valid_exponent s m e :
  valid_binary (S754_finite s m e) = true -> -1074 <= e <= 971.
Proof.
  simpl. unfold bounded, canonical_mantissa. rewrite fexp_eq. intros H.
  apply andb_prop in H as [H1 H2]. apply Z.eqb_eq in H1. apply Z.leb_le in H2.
  unfold emax, prec in H2. lia.
Qed.

Lemma binary_normalize_below m e sz B :
  Zdigits2 (Z.abs m) + e <= B -> -1074 <= B -> B <= 1023 ->
  Binary64.SFbelow (B + 1) (binary_normalize prec emax m e sz).
Proof.
  destruct m as [|p|p]; simpl; intros; [exact I| |]; by apply binary_round_below.
Qed.

(** The quotient that [SFdiv] hands to the rounding. *)
Lemma SFdiv_core_binary_spec m1 e1 m2 e2 :
  0 < m1 -> 0 < m2 ->
  let '(q, e', _) := SFdiv_core_binary prec emax m1 e1 m2 e2 in
  0 <= q
  /\ e' <= fexp prec emax (Zdigits2 m1 + e1 - (Zdigits2 m2 + e2))
  /\ Zdigits2 q + e' <= Z.max e' (Zdigits2 m1 + e1 - (Zdigits2 m2 + e2) + 1).
Proof.
  intros H1 H2. unfold SFdiv_core_binary.
  remember (Z.min (fexp prec emax (Zdigits2 m1 + e1 - (Zdigits2 m2 + e2))) (e1 - e2))
    as e' eqn:He'.
  remember (match e1 - e2 - e' with
            | 0 => m1
            | Zpos _ => Z.shiftl m1 (e1 - e2 - e')
            | Zneg _ => 0
            end) as m' eqn:Hm'.
  assert (Hm : m' = m1 * 2 ^ (e1 - e2 - e')).
  { subst m'. destruct (e1 - e2 - e') as [|s|s] eqn:Es; [lia| |lia].
    rewrite Z.shiftl_mul_pow2 by lia. reflexivity. }
  pose proof (Z_div_mod m' m2 ltac:(lia)) as Hdiv.
  assert (Hq : fst (Z.div_eucl m' m2) = m' / m2) by reflexivity.
  destruct (Z.div_eucl m' m2) as [q r]. cbn [fst] in Hq.
  assert (Hp : 0 < 2 ^ (e1 - e2 - e')) by (apply Z.pow_pos_nonneg; lia).
  assert (H0 : 0 < m') by nia.
  assert (Hd : Zdigits2 m' = Zdigits2 m1 + (e1 - e2 - e'))
    by (rewrite Hm; apply Zdigits2_mul_pow2; lia).
  pose proof (Zdigits2_div m' m2 ltac:(lia) H2) as Hdq. rewrite <- Hq in Hdq.
  split; [rewrite Hq; apply Z.div_pos; lia|]. split; lia.
Qed.

Lemma digits_of_one : Zpos (digits2_pos 4503599627370496) = 53.
Proof. reflexivity. Qed.

(** One more than a number that is not negative is one at least. *)
Lemma SFadd_one_above x :
  Binary64.SFnonneg x -> Binary64.SFabove 1 false (SFadd prec emax x Binary64.SF_one).
Proof.
  destruct x as [s|s| |s mx ex]; simpl; try tauto.
  - intros _. split; [reflexivity|lia].
  - intros ->. cbn [cond_Zopp].
    set (ez := Z.min ex (-52)).
    pose proof (shl_align_digits 4503599627370496 (-52) ez) as Hd.
    destruct (shl_align_spec 4503599627370496 (-52) ez) as [He _].
    destruct (shl_align 4503599627370496 (-52) ez) as [m1 e1].
    destruct (shl_align mx ex ez) as [mx' ex']. cbn [fst snd] in *.
    change (Zpos mx' + Zpos m1) with (Zpos (mx' + m1)). cbn [binary_normalize].
    apply binary_round_above; [|lia].
    assert (Zdigits2 (Zpos m1) <= Zdigits2 (Zpos (mx' + m1)))
      by (apply Zdigits2_mono; lia).
    simpl Zdigits2 in *. rewrite digits_of_one in Hd. subst ez. lia.
Qed.

(** Two over a number that is one at least is below eight. *)
Lemma SFdiv_two_below d :
  valid_binary d = true -> Binary64.SFabove 1 false d ->
  Binary64.SFbelow 3 (SFdiv prec emax Binary64.SF_two d).
Proof.
  destruct d as [s|s| |s md ed]; simpl; try tauto. intros Hv [-> Hd].
  pose proof (SFdiv_core_binary_spec 4503599627370496 (-51) (Zpos md) ed
                ltac:(lia) ltac:(lia)) as H.
  destruct (SFdiv_core_binary prec emax 4503599627370496 (-51) (Zpos md) ed)
    as [[q e'] l].
  destruct H as (Hq & He & Hdq). rewrite fexp_eq in He.
  change (Zdigits2 4503599627370496) with 53 in *.
  change (Zdigits2 (Zpos md)) with (Zpos (digits2_pos md)) in *.
  apply (binary_round_aux_below _ q e' l 2); lia.
Qed.

(** One minus a number below eight is finite. *)
Lemma SFsub_one_finite k :
  valid_binary k = true -> Binary64.SFbelow 3 k ->
  Binary64.SFfinite (SFsub prec emax Binary64.SF_one k).
Proof.
  destruct k as [s|s| |s mk ek]; simpl; try tauto. intros Hv Hk.
  apply (valid_exponent s mk ek) in Hv.
  set (ez := Z.min (-52) ek).
  pose proof (shl_align_digits 4503599627370496 (-52) ez) as Hd1.
  pose proof (shl_align_digits mk ek ez) as Hdk.
  destruct (shl_align_spec 4503599627370496 (-52) ez) as [He1 _].
  destruct (shl_align_spec mk ek ez) as [Hek _].
  destruct (shl_align 4503599627370496 (-52) ez) as [m1 e1].
  destruct (shl_align mk ek ez) as [mk' ek']. cbn [fst snd] in *.
  assert (Hb : Binary64.SFbelow 5 (binary_normalize prec emax
                            (cond_Zopp false (Zpos m1) - cond_Zopp s (Zpos mk'))
                            ez false)).
  { apply (binary_normalize_below _ _ _ 4); [|lia|lia].
    pose proof (Zdigits2_add (Zpos m1) (Zpos mk') ltac:(lia) ltac:(lia)) as Ha.
    assert (Hm : Zdigits2 (Z.abs (cond_Zopp false (Zpos m1) - cond_Zopp s (Zpos mk')))
                 <= Zdigits2 (Zpos m1 + Zpos mk'))
      by (apply Zdigits2_mono; destruct s; simpl cond_Zopp; lia).
    simpl Zdigits2 in Hd1, Hdk. simpl (Zdigits2 (Zpos _)) in Ha.
    rewrite digits_of_one in Hd1. subst ez. lia. }
  destruct (binary_normalize _ _ _ _ _); simpl in *; tauto.
Qed.

(** Rounding a number of the format gives the number back. *)
Lemma binary_round_aux_canonical s m e :
  fexp prec emax (Zpos (digits2_pos m) + e) = e -> e <= 971 ->
  binary_round_aux prec emax s (Zpos m) e loc_Exact = S754_finite s m e.
Proof.
  intros Hc He. unfold binary_round_aux, shr_fexp. simpl Zdigits2.
  rewrite Hc, Z.sub_diag. cbn [shr shr_record_of_loc loc_of_shr_record shr_m
                                round_nearest_even].
  simpl Zdigits2. rewrite Hc, Z.sub_diag. cbn [shr shr_record_of_loc shr_m].
  destruct (Z.leb_spec e (emax - prec)) as [|H]; [reflexivity|].
  unfold emax, prec in H. lia.
Qed.

(** An integer of 53 digits at most is a number as it is. *)
Lemma binary_round_small s p :
  Zpos (digits2_pos p) <= 53 ->
  exists m e,
    binary_round prec emax s p 0 = S754_finite s m e
    /\ e <= 0 /\ Zpos m = Zpos p * 2 ^ (- e).
Proof.
  intros Hd. unfold binary_round.
  pose proof (shl_align_digits p 0 (fexp prec emax (Zpos (digits2_pos p) + 0))) as Hdig.
  destruct (shl_align_spec p 0 (fexp prec emax (Zpos (digits2_pos p) + 0))) as [He Hm].
  destruct (shl_align p 0 _) as [mz ez]. cbn [fst snd] in *.
  rewrite fexp_eq in *.
  exists mz, ez. split; [|split; [lia|rewrite Hm; f_equal; f_equal; lia]].
  apply binary_round_aux_canonical; [|lia].
  simpl Zdigits2 in Hdig. rewrite Hdig, fexp_eq. lia.
Qed.

Lemma shr_1_even k :
  0 <= k ->
  shr_1 {| shr_m := 2 * k; shr_r := false; shr_s := false |}
  = {| shr_m := k; shr_r := false; shr_s := false |}.
Proof. destruct k as [|k|k]; [reflexivity|reflexivity|lia]. Qed.

(** Cutting zeros off a mantissa is exact. *)
Lemma iter_shr_1_exact p : forall k,
  0 <= k ->
  SpecFloat.iter_pos shr_1 p {| shr_m := k * 2 ^ Zpos p; shr_r := false; shr_s := false |}
  = {| shr_m := k; shr_r := false; shr_s := false |}.
Proof.
  induction p as [p IH|p IH|]; intros k Hk.
  - assert (0 < 2 ^ Zpos p) by (apply Z.pow_pos_nonneg; lia).
    replace (k * 2 ^ Zpos p~1) with (2 * ((k * 2 ^ Zpos p) * 2 ^ Zpos p)).
    + cbn [SpecFloat.iter_pos]. rewrite shr_1_even by nia.
      rewrite IH by nia. by apply IH.
    + replace (2 ^ Zpos p~1) with (2 * (2 ^ Zpos p * 2 ^ Zpos p))
        by (rewrite <- Z.pow_add_r, <- Z.pow_succ_r by lia; f_equal; lia).
      lia.
  - assert (0 < 2 ^ Zpos p) by (apply Z.pow_pos_nonneg; lia).
    replace (k * 2 ^ Zpos p~0) with ((k * 2 ^ Zpos p) * 2 ^ Zpos p).
    + cbn [SpecFloat.iter_pos]. rewrite IH by nia. by apply IH.
    + replace (2 ^ Zpos p~0) with (2 ^ Zpos p * 2 ^ Zpos p)
        by (rewrite <- Z.pow_add_r by lia; f_equal; lia).
      lia.
  - change (2 ^ 1) with 2. rewrite Z.mul_comm. cbn [SpecFloat.iter_pos].
    by apply shr_1_even.
Qed.

(** The value of a number with a positive exponent, written out, rounds
    to the number. *)
Lemma binary_round_shifted s m e M :
  fexp prec emax (Zpos (digits2_pos m) + e) = e -> 0 < e <= 971 ->
  Zpos M = Zpos m * 2 ^ e ->
  binary_round prec emax s M 0 = S754_finite s m e.
Proof.
  intros Hc He HM.
  assert (HD : Zpos (digits2_pos M) = Zpos (digits2_pos m) + e).
  { change (Zpos (digits2_pos M)) with (Zdigits2 (Zpos M)).
    rewrite HM, Zdigits2_mul_pow2 by lia. reflexivity. }
  unfold binary_round.
  replace (Zpos (digits2_pos M) + 0) with (Zpos (digits2_pos m) + e) by lia.
  rewrite Hc.
  assert (Hal : shl_align M 0 e = (M, 0))
    by (unfold shl_align; destruct e; try lia; reflexivity).
  rewrite Hal.
  unfold binary_round_aux, shr_fexp.
  replace (Zdigits2 (Zpos M) + 0) with (Zpos (digits2_pos m) + e)
    by (simpl Zdigits2; lia).
  rewrite Hc, Z.sub_0_r.
  destruct e as [|e|e]; try lia.
  cbn [shr shr_record_of_loc]. rewrite HM, iter_shr_1_exact by lia.
  cbn [loc_of_shr_record shr_m round_nearest_even].
  change (Zdigits2 (Zpos m)) with (Zpos (digits2_pos m)).
  rewrite Z.add_0_l, Hc, Z.sub_diag. cbn [shr shr_record_of_loc shr_m].
  destruct (Z.leb_spec (Zpos e) (emax - prec)) as [|H]; [reflexivity|].
  unfold emax, prec in H. lia.
Qed.

(** An integer as a number: the integer, rounded to the format. *)
Lemma Prim2SF_of_Z (z : Z) :
  Prim2SF (JS.of_Z z) = binary_normalize prec emax z 0 false.
Proof. unfold JS.of_Z. apply Prim2SF_SF2Prim, binary_normalize_valid. Qed.

(** A positive integer becomes a positive number, one at least, and a
    negative integer a negative one. *)
Lemma of_Z_positive (z : Z) :
  0 < z -> Binary64.SFabove 1 false (Prim2SF (JS.of_Z z)).
Proof.
  intros Hz. rewrite Prim2SF_of_Z. destruct z as [|p|p]; try lia.
  cbn [binary_normalize]. apply binary_round_above; lia.
Qed.

Lemma of_Z_negative (z : Z) :
  z < 0 -> Binary64.SFabove 1 true (Prim2SF (JS.of_Z z)).
Proof.
  intros Hz. rewrite Prim2SF_of_Z. destruct z as [|p|p]; try lia.
  cbn [binary_normalize]. apply binary_round_above; lia.
Qed.

(** [0 < n] on numbers is [0 < z] on the integers they come from. *)
Lemma ltb_zero_of_Z (z : Z) :
  PrimFloat.ltb PrimFloat.zero (JS.of_Z z) = (0 <? z).
Proof.
  rewrite ltb_spec. change (Prim2SF PrimFloat.zero) with (S754_zero false).
  destruct (Z.ltb_spec 0 z) as [Hz|Hz].
  - pose proof (of_Z_positive z Hz) as H.
    destruct (Prim2SF (JS.of_Z z)) as [?|?| |? ? ?]; simpl in H; try tauto.
    + by subst.
    + by destruct H as [-> _].
  - destruct (Z.eq_dec z 0) as [->|Hne]; [reflexivity|].
    pose proof (of_Z_negative z ltac:(lia)) as H.
    destruct (Prim2SF (JS.of_Z z)) as [?|?| |? ? ?]; simpl in H; try tauto.
    + by subst.
    + by destruct H as [-> _].
Qed.

End FloatFacts.

(** ** Loops and arrays *)

Module ArrayFacts.
Import JS.

Lemma map_is_fmap {A B} (f : A -> B) (l : list A) : map f l = f <$> l.
Proof. reflexivity. Qed.

Lemma for_loop_ext {S} (body1 body2 : Z -> S -> S) n : forall i s,
  (forall j t, body1 j t = body2 j t) ->
  for_loop n i body1 s = for_loop n i body2 s.
Proof.
  induction n as [|n IH]; intros i s H; simpl; [reflexivity|].
  rewrite H. apply IH, H.
Qed.

(** A loop that pushes one element per turn builds the array of these
    elements. *)
Lemma for_loop_push {A} (f : Z -> A) n : forall i acc,
  for_loop n i (fun j acc => acc ++ [f j]) acc
  = acc ++ map (fun j => f (i + Z.of_nat j)%Z) (seq 0 n).
Proof.
  induction n as [|n IH]; intros i acc; simpl.
  - by rewrite app_nil_r.
  - rewrite IH, <- app_assoc. simpl. rewrite Z.add_0_r. do 2 f_equal.
    rewrite <- seq_shift, map_map. apply map_ext. intros j. f_equal. lia.
Qed.

Lemma for_loop_push_length {A} (f : Z -> A) n i acc :
  length (for_loop n i (fun j acc => acc ++ [f j]) acc) = (length acc + n)%nat.
Proof. by rewrite for_loop_push, length_app, length_map, length_seq. Qed.

Lemma for_loop_push_lookup {A} (f : Z -> A) n (i : nat) :
  (i < n)%nat ->
  for_loop n 0 (fun j acc => acc ++ [f j]) [] !! i = Some (f (Z.of_nat i)).
Proof.
  intros Hi. rewrite for_loop_push. simpl. rewrite map_is_fmap, list_lookup_fmap.
  by rewrite lookup_seq_lt.
Qed.

Lemma get_nat {A} (l : list A) (i : nat) : get l (Z.of_nat i) = l !! i.
Proof.
  unfold get. destruct (Z.ltb_spec (Z.of_nat i) 0); [lia|]. by rewrite Nat2Z.id.
Qed.

Lemma slice_from_1 {A} (l : list A) : slice_from l 1 = tail l.
Proof.
  unfold slice_from, slice, clamp_index.
  destruct l as [|x l]; [reflexivity|].
  cbn [length tail]. 
  destruct (Z.ltb_spec 1 0); [lia|].
  destruct (Z.ltb_spec (Z.of_nat (S (length l))) 0); [lia|].
  rewrite !Z.min_l by lia.
  change (Z.to_nat 1) with 1%nat. change (drop 1 (x :: l)) with l.
  rewrite firstn_all2; [reflexivity|]. lia.
Qed.


End ArrayFacts.

(** ** The simple moving average *)

Module MovingAverage.
Import JS FileChart ArrayFacts FloatFacts.




(** The array the loop of [createSMA] builds, read at one index. *)
Lemma createSMA_lookup (s : series) (p : Z) (i : nat) :
  (i < length (data s))%nat ->
  data (createSMA s p) !! i
  = Some (if (Z.of_nat i <? p - 1)%Z then Null
          else Num (PrimFloat.div
                      (fold_left
                         (fun sum value =>
                            PrimFloat.add sum (ToNumber (or_else value (Num PrimFloat.zero))))
                         (slice (data s) (Z.of_nat i - p + 1) (Z.of_nat i + 1))
                         PrimFloat.zero)
                      (of_Z p))).
Proof.
  intros Hi. unfold createSMA. cbn [data].
  set (f := fun j : Z =>
              if (j <? p - 1)%Z then Null
              else Num (PrimFloat.div
                          (fold_left
                             (fun sum value =>
                                PrimFloat.add sum
                                  (ToNumber (or_else value (Num PrimFloat.zero))))
                             (slice (data s) (j - p + 1) (j + 1)) PrimFloat.zero)
                          (of_Z p))).
  rewrite (for_loop_ext _ (fun j acc => acc ++ [f j])).
  - by rewrite for_loop_push_lookup.
  - intros j t. unfold f. by destruct (j <? p - 1)%Z.
Qed.

Lemma createSMA_length (s : series) (p : Z) :
  length (data (createSMA s p)) = length (data s).
Proof.
  unfold createSMA. cbn [data].
  rewrite (for_loop_ext _
             (fun j acc => acc ++ [if (j <? p - 1)%Z then Null
                                   else Num (PrimFloat.div
                          (fold_left
                             (fun sum value =>
                                PrimFloat.add sum
                                  (ToNumber (or_else value (Num PrimFloat.zero))))
                             (slice (data s) (j - p + 1) (j + 1)) PrimFloat.zero)
                          (of_Z p))])).
  - by rewrite for_loop_push_length.
  - intros j t. by destruct (j <? p - 1)%Z.
Qed.



Lemma sma_one_to_five :
  data (createSMA Samples.one_to_five 3)
  = [Null; Null; Samples.num 2; Samples.num 3; Samples.num 4].
Proof. vm_compute. reflexivity. Qed.

(** Absent values count in the divisor: a gap pulls the average toward
    zero. *)
Lemma sma_gap_counts :
  data (createSMA Samples.one_gap_three 3) = [Null; Null; Num (PrimFloat.div (of_Z 4) (of_Z 3))].
Proof. vm_compute. reflexivity. Qed.

End MovingAverage.

(** ** The Max and Average overlays *)

Module StatOverlay.
Import JS FileChart ArrayFacts.

Lemma map_const_replicate {A B} (c : B) (l : list A) :
  map (fun _ => c) l = replicate (length l) c.
Proof. induction l as [|x l IH]; simpl; [reflexivity|]. by rewrite IH. Qed.

(** Every point of a statistic overlay is the one scalar. *)
Lemma createStatSeries_flat (s : series) (statName : jsstring)
      (statFunction : list value -> number) :
  data (createStatSeries s statName statFunction)
  = Spec.flat (data s) (statFunction (List.filter not_null (data s))).
Proof. unfold createStatSeries, Spec.flat. cbn [data]. apply map_const_replicate. Qed.

Lemma filter_present_length (d : list value) :
  Spec.base_data d -> length (List.filter not_null d) = length (Spec.present d).
Proof.
  induction 1 as [|v d Hv _ IH]; [reflexivity|].
  destruct v; simpl in *; [assumption|contradiction|]. by rewrite IH.
Qed.

Lemma filter_present_sum (d : list value) : forall acc,
  Spec.base_data d ->
  fold_left (fun a b => PrimFloat.add a (ToNumber b)) (List.filter not_null d) acc
  = fold_left PrimFloat.add (Spec.present d) acc.
Proof.
  induction d as [|v d IH]; intros acc Hd; [reflexivity|].
  inversion Hd as [|? ? Hv Hd']; subst.
  destruct v; simpl in *; [by apply IH|contradiction|by apply IH].
Qed.

(** The Average overlay is the mean over the values that are present. *)
Lemma average_overlay_mean (s : series) :
  Spec.base_data (data s) ->
  data (createStatSeries s (str "Avg") average)
  = Spec.flat (data s) (Spec.mean (Spec.present (data s))).
Proof.
  intros Hd. rewrite createStatSeries_flat. f_equal.
  unfold average, Spec.mean, Spec.sum.
  by rewrite filter_present_sum, filter_present_length.
Qed.

(** [Math.max] is handed the array itself: with two values or more the
    array reads as NaN, and so does the maximum. *)
Lemma Math_max_call_two (arr : list value) :
  (2 <= length arr)%nat -> Math_max_call arr = PrimFloat.nan.
Proof.
  destruct arr as [|a [|b arr]]; simpl; try lia. intros _. by destruct a.
Qed.

Lemma max_overlay_nan (s : series) :
  Spec.base_data (data s) ->
  (2 <= length (Spec.present (data s)))%nat ->
  data (createStatSeries s (str "Max") Math_max_call)
  = Spec.flat (data s) PrimFloat.nan.
Proof.
  intros Hd Hlen. rewrite createStatSeries_flat. f_equal.
  apply Math_max_call_two. by rewrite filter_present_length.
Qed.

(** C1, at the base series [1, absent, 3]. The Average overlay is the
    flat line of the mean, 2, but the Max overlay is a flat line of NaN:
    the maximum over the present values is 3, and the overlay does not
    hold it. *)
Theorem max_overlay_one_gap_three :
  data (createStatSeries Samples.one_gap_three (str "Max") Math_max_call)
  = [Num PrimFloat.nan; Num PrimFloat.nan; Num PrimFloat.nan]
  /\ Spec.flat (data Samples.one_gap_three) (Spec.maximum (data Samples.one_gap_three))
     = [Samples.num 3; Samples.num 3; Samples.num 3]
  /\ data (createStatSeries Samples.one_gap_three (str "Avg") average)
     = [Samples.num 2; Samples.num 2; Samples.num 2].
Proof. repeat split; vm_compute; reflexivity. Qed.

End StatOverlay.

(** ** The exponential moving average *)

Module Exponential.
Import JS FileChart ArrayFacts FloatFacts.

Lemma ema_loop (k : number) (d : list value) n : forall (i : nat) ema acc,
  (i + n = length d)%nat ->
  snd (for_loop n (Z.of_nat i)
         (fun j '(ema, emaData) =>
            let value := get_value d j in
            let ema := ema_step k value ema in
            (ema, emaData ++ [ema]))
         (ema, acc))
  = acc ++ Spec.ema_trace k ema (drop i d).
Proof.
  induction n as [|n IH]; intros i ema acc Hlen.
  - rewrite drop_ge by lia. simpl. by rewrite app_nil_r.
  - destruct (lookup_lt_is_Some_2 d i) as [v Hv]; [lia|].
    rewrite (drop_S _ _ _ Hv). cbn [for_loop Spec.ema_trace].
    replace (Z.of_nat i + 1)%Z with (Z.of_nat (S i)) by lia.
    assert (Hg : get_value d (Z.of_nat i) = v)
      by (unfold get_value; by rewrite get_nat, Hv).
    cbv beta iota. rewrite Hg, IH by lia. by rewrite <- app_assoc.
Qed.

(** The array [createEMA] returns: the seed, then the trace of the
    recurrence over the rest of the series. *)
Lemma createEMA_data (s : series) (p : Z) :
  data (createEMA s p)
  = get_value (data s) 0
      :: Spec.ema_trace (smoothing p) (get_value (data s) 0) (drop 1 (data s)).
Proof.
  unfold createEMA. destruct (data s) as [|x d]; [reflexivity|].
  cbn [length]. rewrite Nat.sub_succ, Nat.sub_0_r.
  match goal with
  | |- context [for_loop ?n ?i ?body ?init] => set (r := for_loop n i body init)
  end.
  assert (Hr : snd r = [get_value (x :: d) 0]
                       ++ Spec.ema_trace (smoothing p) (get_value (x :: d) 0)
                            (drop 1 (x :: d))).
  { subst r. apply (ema_loop (smoothing p) (x :: d) (length d) 1). simpl. lia. }
  destruct r as [e emaData]. exact Hr.
Qed.

Lemma ema_trace_length k prev rest :
  length (Spec.ema_trace k prev rest) = length rest.
Proof.
  revert prev. induction rest as [|v rest IH]; intros prev; simpl; [reflexivity|].
  by rewrite IH.
Qed.

(** For a series that is not empty the overlay has one value per index. *)
Lemma createEMA_length (s : series) (p : Z) :
  data s <> [] -> length (data (createEMA s p)) = length (data s).
Proof.
  intros Hne. rewrite createEMA_data. simpl. rewrite ema_trace_length, length_drop.
  destruct (data s); [contradiction|]. simpl. lia.
Qed.

Lemma createEMA_seed (s : series) (p : Z) :
  data (createEMA s p) !! 0%nat = Some (get_value (data s) 0).
Proof. by rewrite createEMA_data. Qed.

Lemma ema_trace_step k rest : forall prev i v e,
  rest !! i = Some v ->
  (prev :: Spec.ema_trace k prev rest) !! i = Some e ->
  Spec.ema_trace k prev rest !! i = Some (ema_step k v e).
Proof.
  induction rest as [|w rest IH]; intros prev i v e Hv He; [done|].
  destruct i as [|i]; simpl in *.
  - by inversion Hv; inversion He; subst.
  - by apply IH.
Qed.

(** Every value after the seed follows the recurrence: from the previous
    average and the value of the base series at the same index. *)
Lemma createEMA_step (s : series) (p : Z) (i : nat) (v e : value) :
  data s !! S i = Some v ->
  data (createEMA s p) !! i = Some e ->
  data (createEMA s p) !! S i = Some (ema_step (smoothing p) v e).
Proof.
  rewrite createEMA_data. intros Hv He. cbn [lookup list_lookup].
  apply ema_trace_step; [|exact He]. by rewrite lookup_drop.
Qed.

Lemma ema_step_present k x e :
  ema_step k (Num x) (Num e) = Num (Spec.ema_next k x e).
Proof. reflexivity. Qed.

Lemma ema_step_absent k e : ema_step k Null e = e.
Proof. reflexivity. Qed.

(** The example of the specification: 10, 20 with period 3. *)
Lemma ema_ten_twenty :
  data (createEMA Samples.ten_twenty 3) = [Samples.num 10; Samples.num 15].
Proof. vm_compute. reflexivity. Qed.

(** C3, at the empty base series (a file that has a header line and no
    data row). The seed [data[0]] is read and pushed before the loop
    looks at the length: the overlay holds one value, undefined, where the
    base series holds none. *)
Theorem ema_of_empty_series (p : Z) :
  data (createEMA (Samples.base []) p) = [Undefined]
  /\ length (data (createEMA (Samples.base []) p)) <> length (data (Samples.base [])).
Proof. rewrite createEMA_data. simpl. split; [reflexivity|discriminate]. Qed.

Lemma ema_trace_nulls k n rest :
  Spec.ema_trace k Null (replicate n Null ++ rest)
  = replicate n Null ++ Spec.ema_trace k Null rest.
Proof.
  induction n as [|n IH]; [reflexivity|].
  cbn [replicate app Spec.ema_trace]. by rewrite !ema_step_absent, IH.
Qed.

Lemma ema_step_number k v x : Spec.is_number (ema_step k v (Num x)).
Proof. unfold ema_step. destruct (not_null v); eexists; reflexivity. Qed.

(** Once the average is a number it stays one. *)
Lemma ema_trace_numbers k rest : forall x,
  Forall Spec.is_number (Spec.ema_trace k (Num x) rest).
Proof.
  induction rest as [|v rest IH]; intros x; simpl; constructor.
  - apply ema_step_number.
  - destruct (ema_step_number k v x) as [y ->]. apply IH.
Qed.

Lemma absent_prefix (d : list value) (i : nat) (w : value) :
  (forall j, (j < i)%nat -> d !! j = Some Null) ->
  d !! i = Some w ->
  d = replicate i Null ++ w :: drop (S i) d.
Proof.
  intros Hnull Hw. rewrite <- (take_drop_middle d i w Hw) at 1. f_equal.
  apply list_eq. intros j. destruct (decide (j < i)%nat) as [Hj|Hj].
  - rewrite lookup_take_lt, lookup_replicate_2 by lia. by apply Hnull.
  - rewrite lookup_take_ge by lia. symmetry. apply lookup_replicate_None. lia.
Qed.

(** For a positive period the smoothing factor is finite, and so is
    what is left of one: neither [2 / (period + 1)] nor [1 - k]
    overflows. *)
Lemma smoothing_rest_finite (p : Z) :
  (0 < p)%Z ->
  Binary64.SFfinite (Prim2SF (PrimFloat.sub PrimFloat.one (smoothing p))).
Proof.
  intros Hp. unfold smoothing.
  set (d := PrimFloat.add (of_Z p) PrimFloat.one).
  set (k := PrimFloat.div PrimFloat.two d).
  assert (Hx : Binary64.SFnonneg (Prim2SF (of_Z p))).
  { pose proof (of_Z_positive p Hp) as H.
    destruct (Prim2SF (of_Z p)); simpl in *; tauto. }
  assert (Hd : Binary64.SFabove 1 false (Prim2SF d)).
  { unfold d. rewrite FloatAxioms.add_spec. by apply SFadd_one_above. }
  assert (Hk : Binary64.SFbelow 3 (Prim2SF k)).
  { unfold k. rewrite div_spec. apply SFdiv_two_below; [apply Prim2SF_valid|exact Hd]. }
  rewrite sub_spec. apply SFsub_one_finite; [apply Prim2SF_valid|exact Hk].
Qed.

Lemma zero_times_finite (x : number) :
  Binary64.SFfinite (Prim2SF x) ->
  PrimFloat.is_zero (PrimFloat.mul PrimFloat.zero x) = true.
Proof.
  unfold PrimFloat.is_zero. rewrite FloatAxioms.eqb_spec, mul_spec.
  change (Prim2SF PrimFloat.zero) with (S754_zero false).
  destruct (Prim2SF x) as [[]|[]| |[] m e]; simpl; tauto || reflexivity.
Qed.

(** With a positive period, the recurrence run on an absent accumulator
    gives [v * k]: the accumulator, read as zero, adds a zero. *)
Lemma ema_next_from_absent (p : Z) (v : number) :
  (0 < p)%Z ->
  Prim2SF (PrimFloat.mul v (smoothing p)) <> S754_zero true ->
  Spec.ema_next (smoothing p) v PrimFloat.zero = PrimFloat.mul v (smoothing p).
Proof.
  intros Hp Hv. unfold Spec.ema_next.
  rewrite (add_zero_any_sign _ _ Hv
             (zero_times_finite _ (smoothing_rest_finite p Hp))).
  by apply add_zero_r.
Qed.

(** C10. When the first value of the base series is absent, the first
    value of the overlay is absent too; at the first index [i] that
    holds a number [v] the overlay holds the recurrence run with the
    absent accumulator read as zero, which for a positive period is
    [v * k] and not [v]; and from [i] on every value of the overlay is a
    number value, never null again.  Such a value need not be a number
    one can plot: see [ema_nan_after_present]. *)
Theorem ema_absent_seed (s : series) (p : Z) :
  data s !! 0%nat = Some Null ->
  data (createEMA s p) !! 0%nat = Some Null
  /\ forall (i : nat) (v : number),
      (forall j, (j < i)%nat -> data s !! j = Some Null) ->
      data s !! i = Some (Num v) ->
      data (createEMA s p) !! i
      = Some (Num (Spec.ema_next (smoothing p) v PrimFloat.zero))
      /\ ((0 < p)%Z ->
          Prim2SF (PrimFloat.mul v (smoothing p)) <> S754_zero true ->
          data (createEMA s p) !! i = Some (Num (PrimFloat.mul v (smoothing p))))
      /\ (forall j, (i <= j < length (data s))%nat ->
                    exists x, data (createEMA s p) !! j = Some (Num x)).
Proof.
  intros H0. split.
  { rewrite createEMA_seed. unfold get_value.
    change 0%Z with (Z.of_nat 0). by rewrite get_nat, H0. }
  intros i v Hnull Hv.
  destruct i as [|i]; [congruence|].
  pose proof (absent_prefix _ _ _ Hnull Hv) as Hd.
  set (rest := drop (S (S i)) (data s)) in Hd.
  set (k := smoothing p).
  assert (Hout : data (createEMA s p)
                 = replicate (S i) Null
                     ++ Num (Spec.ema_next k v PrimFloat.zero)
                     :: Spec.ema_trace k (Num (Spec.ema_next k v PrimFloat.zero)) rest).
  { rewrite createEMA_data. fold k. rewrite Hd. cbn [replicate app drop].
    change (get_value (Null :: replicate i Null ++ Num v :: rest) 0) with Null.
    rewrite drop_0, ema_trace_nulls. reflexivity. }
  assert (Hi : data (createEMA s p) !! S i
               = Some (Num (Spec.ema_next k v PrimFloat.zero))).
  { rewrite Hout, lookup_app_r; rewrite length_replicate; [|lia].
    by rewrite Nat.sub_diag. }
  split; [exact Hi|].
  split; [intros Hp Hvk; rewrite Hi; unfold k; by rewrite ema_next_from_absent|].
  intros j [Hij Hj].
  rewrite Hout, lookup_app_r; rewrite length_replicate; [|lia].
  assert (Hlen : length (data s) = (S i + S (length rest))%nat).
  { rewrite Hd at 1. rewrite length_app, length_replicate. reflexivity. }
  destruct (j - S i)%nat as [|m] eqn:Hm; [by eexists|].
  cbn [lookup list_lookup].
  destruct (lookup_lt_is_Some_2
              (Spec.ema_trace k (Num (Spec.ema_next k v PrimFloat.zero)) rest) m)
    as [e He]; [rewrite ema_trace_length; lia|].
  pose proof (ema_trace_numbers k rest (Spec.ema_next k v PrimFloat.zero)) as Hnum.
  rewrite Forall_lookup in Hnum. destruct (Hnum m e He) as [x ->].
  by exists x.
Qed.

(** The series [absent, absent, 20, absent, 10] with period 3: the
    overlay holds 10 = 20 * 0.5 at index 2, not 20. *)
Lemma ema_absent_seed_witness :
  data (createEMA Samples.gap_then_twenty 3) !! 0%nat = Some Null
  /\ data (createEMA Samples.gap_then_twenty 3) !! 2%nat = Some (Samples.num 10)
  /\ (forall j, (2 <= j < 5)%nat ->
                exists x, data (createEMA Samples.gap_then_twenty 3) !! j = Some (Num x)).
Proof.
  destruct (ema_absent_seed Samples.gap_then_twenty 3) as [H0 H]; [reflexivity|].
  destruct (H 2%nat (of_Z 20)) as (_ & H2 & H3).
  - intros [|[|j]] Hj; [reflexivity|reflexivity|lia].
  - reflexivity.
  - split; [exact H0|]. split; [|exact H3].
    apply H2; [lia|]. vm_compute. discriminate.
Defined.

(** C10: a value after the first present one can be NaN, which the
    builder itself takes for absent.  The column [, -Infinity, Infinity]
    with period 3: the overlay is absent, then -Infinity, then
    [Infinity * 0.5 + -Infinity * 0.5], which is NaN. *)
Lemma ema_nan_after_present :
  data (baseSeries (parsed_headers Samples.infinities_table)
          (parsed_data Samples.infinities_table) 1)
  = [Null; Num PrimFloat.neg_infinity; Num PrimFloat.infinity]
  /\ data (createEMA
             (baseSeries (parsed_headers Samples.infinities_table)
                (parsed_data Samples.infinities_table) 1) 3)
     = [Null; Num PrimFloat.neg_infinity; Num PrimFloat.nan]
  /\ isNaN PrimFloat.nan = true.
Proof. repeat split; vm_compute; reflexivity. Qed.

Lemma ema_gap_then_twenty :
  data (createEMA Samples.gap_then_twenty 3)
  = [Null; Null; Samples.num 10; Samples.num 10; Samples.num 10].
Proof. vm_compute. reflexivity. Qed.

End Exponential.

(** ** The series list of [processData] *)

Module Pipeline.
Import JS FileChart ArrayFacts.

(** A callback that only appends: [forEach] visits the elements the array
    had when it started, in order, and the appended ones pile up behind
    them. *)
Lemma forEach_from_push {A} (cb : A -> list A -> list A) (g : A -> list A)
      (bs : list A) :
  (forall x arr, cb x arr = arr ++ g x) ->
  forall n k extra,
    (k + n = length bs)%nat ->
    forEach_from cb k n (bs ++ extra) = bs ++ extra ++ flat_map g (drop k bs).
Proof.
  intros Hcb. induction n as [|n IH]; intros k extra Hlen.
  - rewrite drop_ge by lia. simpl. by rewrite app_nil_r.
  - destruct (lookup_lt_is_Some_2 bs k) as [x Hx]; [lia|].
    cbn [forEach_from]. rewrite (lookup_app_l_Some _ _ _ _ Hx), Hcb.
    rewrite <- app_assoc, IH by lia.
    rewrite (drop_S _ _ _ Hx). cbn [flat_map]. by rewrite <- !app_assoc.
Qed.

Lemma forEach_self_push {A} (cb : A -> list A -> list A) (g : A -> list A)
      (bs : list A) :
  (forall x arr, cb x arr = arr ++ g x) ->
  forEach_self cb bs = bs ++ flat_map g bs.
Proof.
  intros Hcb. unfold forEach_self.
  rewrite <- (app_nil_r bs) at 2.
  rewrite (forEach_from_push cb g bs Hcb) by lia. by rewrite drop_0.
Qed.

Lemma addStatistic_known (ps : periods) (s : series) (acc : list series)
      (st : Spec.statistic) :
  addStatistic ps s acc (Spec.label_of st) = acc ++ [Spec.overlay ps s st].
Proof. by destruct st. Qed.

(** The inner loop over the requested statistics. *)
Lemma fold_addStatistic (ps : periods) (s : series) (sts : list Spec.statistic) :
  forall acc,
    fold_left (addStatistic ps s) (map Spec.label_of sts) acc
    = acc ++ Spec.overlays ps sts s.
Proof.
  induction sts as [|st sts IH]; intros acc; simpl.
  - by rewrite app_nil_r.
  - by rewrite addStatistic_known, IH, <- app_assoc.
Qed.

(** The series list: the base series, then the overlays base by base. *)
Lemma processData_series headers rows selection (sts : list Spec.statistic) ps :
  fst (processData headers rows selection (map Spec.label_of sts) ps)
  = Spec.bases headers rows selection
      ++ flat_map (Spec.overlays ps sts) (Spec.bases headers rows selection).
Proof.
  unfold processData. cbn [fst]. rewrite slice_from_1.
  apply forEach_self_push. intros s acc. apply fold_addStatistic.
Qed.

Lemma overlays_length ps sts (bs : list series) :
  length (flat_map (Spec.overlays ps sts) bs) = (length bs * length sts)%nat.
Proof.
  induction bs as [|b bs IH]; simpl; [reflexivity|].
  rewrite length_app, IH. unfold Spec.overlays. by rewrite length_map.
Qed.

(** C4, as amended. The series list holds all base series first, in
    selection order, and then, for each base series in selection order,
    its overlays in request order. *)
Theorem series_bases_then_overlays headers rows selection
        (sts : list Spec.statistic) ps :
  fst (processData headers rows selection (map Spec.label_of sts) ps)
  = Spec.bases_then_overlays ps sts (Spec.bases headers rows selection).
Proof. apply processData_series. Qed.

(** C5. With [B] base series and [S] requested statistics the list has
    [B * (1 + S)] entries: the base series, then one overlay per pair of
    a base series and a statistic, each computed from the base series
    of its pair. *)
Theorem one_overlay_per_pair headers rows selection
        (sts : list Spec.statistic) ps :
  let bs := Spec.bases headers rows selection in
  let out := fst (processData headers rows selection (map Spec.label_of sts) ps) in
  length out = (length bs * (1 + length sts))%nat
  /\ take (length bs) out = bs
  /\ drop (length bs) out = flat_map (fun b => map (Spec.overlay ps b) sts) bs
  /\ Forall (fun o => exists b st, b ∈ bs /\ st ∈ sts /\ o = Spec.overlay ps b st)
            (drop (length bs) out).
Proof.
  intros bs out. subst out. rewrite processData_series. fold bs.
  rewrite length_app, overlays_length, take_app_length, drop_app_length.
  repeat split; [lia|].
  apply Forall_forall. intros o Ho%list_elem_of_In.
  apply in_flat_map in Ho as (b & Hb & Ho).
  apply in_map_iff in Ho as (st & <- & Hst).
  exists b, st. by rewrite !list_elem_of_In.
Qed.

(** C4: with two base series and one statistic the order is not "each
    base series followed at once by its overlays". *)
Lemma series_not_grouped :
  fst (processData (parsed_headers Samples.table) (parsed_data Samples.table)
         [0; 1; 2]%Z (map Spec.label_of [Spec.Average]) Samples.twenty)
  <> Spec.grouped Samples.twenty [Spec.Average]
       (Spec.bases (parsed_headers Samples.table) (parsed_data Samples.table)
          [0; 1; 2]%Z).
Proof. vm_compute. discriminate. Qed.

End Pipeline.

(** ** The series builder *)

Module SeriesBuilder.
Import JS FileChart ArrayFacts FloatFacts.

Lemma of_Z_not_nan z : isNaN (of_Z z) = false.
Proof. apply SF2Prim_not_nan, binary_normalize_not_nan. Qed.

Lemma decimal_to_number_not_nan m e : isNaN (decimal_to_number m e) = false.
Proof.
  unfold decimal_to_number. destruct (0 <=? e)%Z; [apply of_Z_not_nan|].
  destruct (Z.div_eucl _ _). apply SF2Prim_not_nan, binary_normalize_not_nan.
Qed.

Lemma literal_value_not_nan neg l : isNaN (literal_value neg l) = false.
Proof.
  unfold literal_value, isNaN.
  destruct neg; [apply opp_not_nan|]; destruct l;
    (reflexivity || apply decimal_to_number_not_nan).
Qed.

(** [parseFloat] gives NaN exactly when the string has no numeric
    prefix. *)
Lemma parseFloat_prefix (f : jsstring) :
  isNaN (parseFloat f) = negb (Spec.numeric_prefix f).
Proof.
  unfold parseFloat, Spec.numeric_prefix.
  destruct (signed_literal (trimStart f)) as [[[neg l] r]|]; simpl;
    [apply literal_value_not_nan|reflexivity].
Qed.

Lemma cell_missing (row : list jsstring) (col : Z) :
  get row col = None -> cell row col = Null.
Proof. intros H. unfold cell. rewrite H. reflexivity. Qed.

Lemma cell_field (row : list jsstring) (col : Z) (f : jsstring) :
  get row col = Some f ->
  cell row col = if Spec.numeric_prefix f then Num (parseFloat f) else Null.
Proof.
  intros H. unfold cell. rewrite H. cbn [ToString].
  rewrite parseFloat_prefix. by destruct (Spec.numeric_prefix f).
Qed.

Lemma baseSeries_lookup headers rows col (i : nat) row :
  rows !! i = Some row ->
  data (baseSeries headers rows col) !! i = Some (cell row col).
Proof.
  intros H. unfold baseSeries. cbn [data].
  by rewrite map_is_fmap, list_lookup_fmap, H.
Qed.

(** The data of a base series is made of base values. *)
Lemma baseSeries_base_data headers rows col :
  Spec.base_data (data (baseSeries headers rows col)).
Proof.
  unfold baseSeries, Spec.base_data. cbn [data].
  induction rows as [|row rows IH]; simpl; constructor; [|exact IH].
  unfold cell. destruct (isNaN _) eqn:E; [exact I|exact E].
Qed.

(** C9, as amended. The builder is a total function that gives every
    row, short or long, one data point. The point is absent when the row
    has no field at the column, and when the field does not start (after
    leading white space) with a numeric literal; a field that starts with
    one yields the number of that prefix, whatever follows it. *)
Theorem base_series_cells headers rows col (i : nat) row :
  rows !! i = Some row ->
  length (data (baseSeries headers rows col)) = length rows
  /\ (get row col = None ->
      data (baseSeries headers rows col) !! i = Some Null)
  /\ (forall f, get row col = Some f -> Spec.numeric_prefix f = false ->
                data (baseSeries headers rows col) !! i = Some Null)
  /\ (forall f, get row col = Some f -> Spec.numeric_prefix f = true ->
                data (baseSeries headers rows col) !! i = Some (Num (parseFloat f))
                /\ isNaN (parseFloat f) = false).
Proof.
  intros Hrow. rewrite (baseSeries_lookup _ _ _ _ _ Hrow).
  split; [unfold baseSeries; cbn [data]; apply length_map|].
  split; [intros H; by rewrite cell_missing|].
  split; intros f Hf Hp; rewrite (cell_field _ _ _ Hf), Hp; [reflexivity|].
  split; [reflexivity|]. by rewrite parseFloat_prefix, Hp.
Qed.

Lemma base_series_cells_witness :
  data (baseSeries (parsed_headers Samples.table) (parsed_data Samples.table) 1)
    !! 1%nat = Some (Samples.num 3).
Proof.
  refine (proj1 (proj2 (proj2 (proj2
            (base_series_cells (parsed_headers Samples.table)
               (parsed_data Samples.table) 1 1
               [str "tue"; str "3"; str "12abc"] _))) (str "3") _ _)).
  - reflexivity.
  - reflexivity.
  - reflexivity.
Defined.

(** The empty string, a word and a missing field are absent. *)
Lemma absent_cells :
  cell [str "a"; []] 1 = Null /\ cell [str "a"; str "abc"] 1 = Null
  /\ cell [str "a"] 1 = Null.
Proof. repeat split; vm_compute; reflexivity. Qed.

(** C9: a field that is not a number as a whole, but starts with one, is
    not absent. *)
Lemma invalid_number_not_absent :
  get [str "tue"; str "3"; str "12abc"] 2 = Some (str "12abc")
  /\ Spec.valid_number (str "12abc") = false
  /\ data (baseSeries (parsed_headers Samples.table) (parsed_data Samples.table) 2)
       !! 1%nat = Some (Samples.num 12)
  /\ data (baseSeries (parsed_headers Samples.table) (parsed_data Samples.table) 2)
       !! 1%nat <> Some Null.
Proof. repeat split; try (vm_compute; reflexivity). vm_compute. discriminate. Qed.

End SeriesBuilder.

(** ** The parser *)

Module Parser.
Import JS FileChart ArrayFacts.

Lemma eqb_nil (s : jsstring) : eqb s [] = true <-> s = [].
Proof. destruct s; simpl; split; congruence. Qed.

Lemma trimStart_blank (s : jsstring) : trimStart s = [] <-> Spec.blank s = true.
Proof.
  unfold Spec.blank. induction s as [|c s IH]; simpl; [tauto|].
  destruct (is_whitespace c); simpl; [exact IH|]. split; discriminate.
Qed.

Lemma blank_app_false (s t : jsstring) :
  Spec.blank t = false -> Spec.blank (s ++ t) = false.
Proof.
  unfold Spec.blank. intros H. rewrite forallb_app, H. apply andb_false_r.
Qed.

Lemma trimStart_head (s : jsstring) :
  trimStart s = [] \/ exists c r, trimStart s = c :: r /\ is_whitespace c = false.
Proof.
  induction s as [|c s IH]; simpl; [by left|].
  destruct (is_whitespace c) eqn:E; [exact IH|]. right. by exists c, s.
Qed.

(** The test [line.trim() !== ''] keeps the lines that are not blank. *)
Lemma trim_blank (s : jsstring) : eqb (trim s) [] = Spec.blank s.
Proof.
  apply eq_true_iff_eq. rewrite eqb_nil, <- trimStart_blank.
  unfold trim, trimEnd.
  destruct (trimStart_head s) as [H|(c & r & H & Hc)]; rewrite H.
  - simpl. tauto.
  - split; [|discriminate]. intros Hrev.
    apply (f_equal (@rev N)) in Hrev. rewrite rev_involutive in Hrev.
    simpl in Hrev. apply trimStart_blank in Hrev.
    rewrite blank_app_false in Hrev; [discriminate|]. simpl. by rewrite Hc.
Qed.

Lemma kept_lines_filter (content : jsstring) :
  List.filter (fun line => negb (eqb (trim line) [])) (split 10 content)
  = Spec.kept_lines content.
Proof.
  unfold Spec.kept_lines. apply filter_ext. intros line. by rewrite trim_blank.
Qed.

Lemma includes_elem (s : jsstring) (c : N) : includes s c = bool_decide (c ∈ s).
Proof.
  unfold includes. apply eq_true_iff_eq.
  rewrite bool_decide_eq_true, existsb_exists, list_elem_of_In.
  split.
  - intros (x & Hx & Heq). apply N.eqb_eq in Heq. by subst.
  - intros H. exists c. split; [exact H|apply N.eqb_refl].
Qed.

Lemma split_not_nil sep s : split sep s <> [].
Proof.
  destruct s as [|c s]; simpl; [discriminate|].
  destruct (N.eqb c sep); [discriminate|]. destruct (split sep s); discriminate.
Qed.

Lemma join_cons sep f g fs :
  Spec.join sep (f :: g :: fs) = f ++ sep :: Spec.join sep (g :: fs).
Proof. reflexivity. Qed.



(** The separator [parseFile] settles on, read off the first line. *)
Lemma separator_choice (first : jsstring) :
  (if includes first 9 then (9%N, [])
   else if includes first 59 then (59%N, [])
   else if includes first 124 then (124%N, [])
   else (9%N, [str "No valid separator detected. Defaulting to tab."]))
  = ((Spec.delimiter first).1,
     if (Spec.delimiter first).2
     then [str "No valid separator detected. Defaulting to tab."] else []).
Proof.
  unfold Spec.delimiter, Spec.tab, Spec.semicolon, Spec.bar.
  rewrite !includes_elem.
  by repeat (case_bool_decide; [reflexivity|]).
Qed.

Lemma trimStart_clean (s : jsstring) : Spec.starts_clean (trimStart s).
Proof.
  induction s as [|c s IH]; simpl; [exact I|].
  destruct (is_whitespace c) eqn:E; [exact IH|exact E].
Qed.

Lemma trimStart_id (s : jsstring) : Spec.starts_clean s -> trimStart s = s.
Proof. destruct s as [|c s]; simpl; [reflexivity|]. by intros ->. Qed.

(** [trimStart] takes a blank prefix away. *)
Lemma trimStart_split (s : jsstring) :
  exists w, s = w ++ trimStart s /\ Spec.blank w = true.
Proof.
  induction s as [|c s (w & Hw & Hb)]; simpl; [by exists []|].
  destruct (is_whitespace c) eqn:E.
  - exists (c :: w). split; [simpl; by rewrite <- Hw|]. simpl. by rewrite E.
  - by exists [].
Qed.

Lemma trimEnd_keeps_start (s : jsstring) :
  Spec.starts_clean s -> Spec.starts_clean (trimEnd s).
Proof.
  intros Hs. unfold trimEnd.
  destruct (trimStart_split (rev s)) as (w & Hw & Hb).
  apply (f_equal (@rev N)) in Hw. rewrite rev_involutive, rev_app_distr in Hw.
  destruct (rev (trimStart (rev s))) as [|c t] eqn:E; [exact I|].
  rewrite Hw in Hs. exact Hs.
Qed.

(** What [trim] returns has no white space at either end, and trimming
    it again changes nothing. *)
Lemma trim_clean (s : jsstring) : Spec.clean (trim s).
Proof.
  split.
  - apply trimEnd_keeps_start, trimStart_clean.
  - unfold trim, trimEnd. rewrite rev_involutive. apply trimStart_clean.
Qed.

Lemma trim_id (s : jsstring) : Spec.clean s -> trim s = s.
Proof.
  intros [H1 H2]. unfold trim, trimEnd.
  rewrite (trimStart_id s H1), (trimStart_id (rev s) H2). apply rev_involutive.
Qed.




(** A file of blank lines, and a line without any delimiter. *)
Lemma parseFile_blank :
  parseFile (str " " ++ [10%N; 9%N; 10%N])
  = {| parsed_headers := []; parsed_data := []; parsed_warnings := [] |}.
Proof. vm_compute. reflexivity. Qed.

Lemma parseFile_no_delimiter :
  parseFile (str "a b" ++ [10%N] ++ str "1 2")
  = {| parsed_headers := [str "a b"]; parsed_data := [[str "1 2"]];
       parsed_warnings := [str "No valid separator detected. Defaulting to tab."] |}.
Proof. vm_compute. reflexivity. Qed.

(** Header fields are trimmed, data fields are not. *)
Lemma parseFile_trims_headers_only :
  parseFile (str " x ; y " ++ [10%N] ++ str " 1 ; 2 ")
  = {| parsed_headers := [str "x"; str "y"];
       parsed_data := [[str " 1 "; str " 2 "]];
       parsed_warnings := [] |}.
Proof. vm_compute. reflexivity. Qed.

End Parser.

(** ** The column selector *)

Module Selector.
Import JS FileChart ArrayFacts.

Lemma eqb_eq (a b : jsstring) : eqb a b = true <-> a = b.
Proof.
  revert b. induction a as [|x a IH]; intros [|y b]; simpl; try (split; congruence).
  rewrite andb_true_iff, N.eqb_eq, IH. split; [intros [-> ->]|intros [= -> ->]]; done.
Qed.

(** [indexOf] finds the position of a label that is there. *)
Lemma indexOf_from_elem (l : list jsstring) (x : jsstring) : forall i,
  x ∈ l -> exists n : nat, indexOf_from l x i = (i + Z.of_nat n)%Z /\ l !! n = Some x.
Proof.
  induction l as [|y l IH]; intros i Hx; [by apply elem_of_nil in Hx|].
  simpl. destruct (eqb y x) eqn:E.
  - apply eqb_eq in E as ->. exists 0%nat. split; [lia|reflexivity].
  - apply elem_of_cons in Hx as [->|Hx].
    + assert (eqb y y = true) by by apply eqb_eq. congruence.
    + destruct (IH (i + 1)%Z Hx) as (n & Hn & Hl).
      exists (S n). split; [lia|exact Hl].
Qed.

Lemma indexOf_elem (l : list jsstring) (x : jsstring) :
  x ∈ l -> exists n : nat, indexOf l x = Z.of_nat n /\ l !! n = Some x.
Proof. intros H. destruct (indexOf_from_elem l x 0 H) as (n & Hn & Hl). eauto. Qed.

(** The options carry the headers as labels, in order. *)
Lemma options_labels headers lastUsed :
  map label (quickPickOptions headers lastUsed) = headers.
Proof.
  unfold quickPickOptions. rewrite map_is_fmap. apply list_eq. intros i.
  rewrite list_lookup_fmap, list_lookup_imap. by destruct (headers !! i).
Qed.

Lemma picked_labels headers lastUsed (picked : list item) :
  sublist picked (quickPickOptions headers lastUsed) ->
  sublist (map label picked) headers.
Proof.
  intros H. rewrite <- (options_labels headers lastUsed), !map_is_fmap.
  by apply fmap_sublist.
Qed.

(** What [selectColumns] does with either kind of answer. *)
Lemma selectColumns_picked (ui : list item -> option (list item))
      (headers : list jsstring) (fileName : list N) (st : gmap (list N) (list Z)) it its :
  ui (quickPickOptions headers (st !! fileName)) = Some (it :: its) ->
  selectColumns ui headers fileName st
  = (Some (0%Z :: map (fun item => indexOf headers (label item)) (it :: its)),
     <[fileName := map (fun item => indexOf headers (label item)) (it :: its)]> st).
Proof. intros H. unfold selectColumns. by rewrite H. Qed.

Lemma selectColumns_nothing (ui : list item -> option (list item))
      (headers : list jsstring) (fileName : list N) (st : gmap (list N) (list Z)) :
  Spec.nothing_picked (ui (quickPickOptions headers (st !! fileName))) ->
  selectColumns ui headers fileName st
  = (match st !! fileName with
     | Some prior => Some (0%Z :: prior)
     | None => None
     end, st).
Proof.
  intros [H|H]; unfold selectColumns; rewrite H; by destruct (st !! fileName).
Qed.

(** C8. When the user cancels or confirms an empty pick, the selector
    returns [0] followed by the selection stored for the document, or no
    selection when none is stored; the store is left as it was. *)
Theorem nothing_picked_falls_back (ui : list item -> option (list item))
      (headers : list jsstring) (fileName : list N)
        (st : gmap (list N) (list Z)) :
  Spec.nothing_picked (ui (quickPickOptions headers (st !! fileName))) ->
  (st !! fileName = None ->
   selectColumns ui headers fileName st = (None, st))
  /\ (forall prior, st !! fileName = Some prior ->
      selectColumns ui headers fileName st = (Some (0%Z :: prior), st)).
Proof.
  intros H. rewrite (selectColumns_nothing _ _ _ _ H).
  split; [intros ->|intros prior ->]; reflexivity.
Qed.

Lemma nothing_picked_falls_back_witness :
  selectColumns Samples.cancel Samples.five_headers Samples.doc Samples.remembered
  = (Some [0; 2; 4]%Z, Samples.remembered)
  /\ selectColumns Samples.pick_none Samples.five_headers Samples.doc
       Samples.nothing_remembered
     = (None, Samples.nothing_remembered).
Proof.
  split.
  - apply (nothing_picked_falls_back Samples.cancel Samples.five_headers
             Samples.doc Samples.remembered); [by left|reflexivity].
  - apply (nothing_picked_falls_back Samples.pick_none Samples.five_headers
             Samples.doc Samples.nothing_remembered); [by right|reflexivity].
Defined.

(** C7, as amended. A selection that is returned starts with index 0.
    After a pick that is not empty the rest are the positions of the
    picked labels (first match), in pick order; they point at headers,
    and they are distinct and differ from 0 when the headers are distinct
    and the option of the first column is not among the picked items.
    After a cancelled or empty pick the rest is the stored selection. *)
Theorem selection_starts_at_zero (ui : list item -> option (list item))
      (headers : list jsstring) (fileName : list N)
        (st : gmap (list N) (list Z)) sel :
  (selectColumns ui headers fileName st).1 = Some sel ->
  exists rest,
    sel = 0%Z :: rest
    /\ (Spec.nothing_picked (ui (quickPickOptions headers (st !! fileName))) ->
        st !! fileName = Some rest)
    /\ (forall picked,
          ui (quickPickOptions headers (st !! fileName)) = Some picked ->
          picked <> [] ->
          rest = map (fun item => indexOf headers (label item)) picked
          /\ (sublist picked (quickPickOptions headers (st !! fileName)) ->
              Forall (Spec.header_index headers) rest
              /\ (NoDup headers -> ~ Spec.picks_first_column headers picked ->
                  NoDup sel))).
Proof.
  intros Hsel.
  destruct (ui (quickPickOptions headers (st !! fileName))) as [[|it its]|] eqn:Hui.
  - (* an empty pick *)
    rewrite selectColumns_nothing in Hsel by (rewrite Hui; by right).
    destruct (st !! fileName) as [prior|]; [|discriminate].
    injection Hsel as <-. exists prior. split; [reflexivity|].
    split; [reflexivity|]. intros picked [= <-] Hne. contradiction.
  - (* a pick that is not empty *)
    rewrite (selectColumns_picked _ _ _ _ _ _ Hui) in Hsel.
    remember (it :: its) as chosen eqn:Hchosen. cbn [fst] in Hsel.
    injection Hsel as <-.
    exists (map (fun item => indexOf headers (label item)) chosen).
    split; [reflexivity|].
    split; [intros [H|H]; congruence|].
    intros picked [= <-] _. split; [reflexivity|]. intros Hsub.
    pose proof (picked_labels _ _ _ Hsub) as Hlabels.
    assert (Hin : forall item, item ∈ chosen -> label item ∈ headers).
    { intros item Hitem. apply (elem_of_sublist (map label chosen)); [|done].
      rewrite map_is_fmap. by apply list_elem_of_fmap_2. }
    split.
    + rewrite map_is_fmap. apply Forall_fmap, Forall_forall. intros item Hitem.
      destruct (indexOf_elem headers _ (Hin item Hitem)) as (n & Hn & Hl).
      unfold Spec.header_index. simpl. rewrite Hn.
      apply lookup_lt_Some in Hl. lia.
    + intros Hnodup Hfirst. apply NoDup_cons. split.
      * rewrite map_is_fmap. intros (item & H0 & Hitem)%list_elem_of_fmap.
        destruct (indexOf_elem headers _ (Hin item Hitem)) as (n & Hn & Hl).
        apply Hfirst. exists (label item). split.
        -- rewrite head_lookup. assert (n = 0%nat) as -> by lia. exact Hl.
        -- rewrite map_is_fmap. by apply list_elem_of_fmap_2.
      * rewrite <- (map_map label (indexOf headers)).
        rewrite (map_is_fmap (indexOf headers)).
        apply NoDup_fmap_2_strong; [|by eapply sublist_NoDup].
        intros x y Hx Hy Heq.
        destruct (indexOf_elem headers x) as (n & Hn & Hl);
          [by eapply elem_of_sublist|].
        destruct (indexOf_elem headers y) as (m & Hm & Hl');
          [by eapply elem_of_sublist|].
        assert (n = m) as -> by lia. congruence.
  - (* a cancelled pick *)
    rewrite selectColumns_nothing in Hsel by (rewrite Hui; by left).
    destruct (st !! fileName) as [prior|]; [|discriminate].
    injection Hsel as <-. exists prior. split; [reflexivity|].
    split; [reflexivity|]. intros picked [=].
Qed.

Lemma selection_starts_at_zero_witness :
  exists rest,
    [0; 1]%Z = 0%Z :: rest
    /\ (Spec.nothing_picked
          (Samples.pick_tail (quickPickOptions Samples.xy (Samples.nothing_remembered !! Samples.doc))) ->
        Samples.nothing_remembered !! Samples.doc = Some rest)
    /\ (forall picked,
          Samples.pick_tail (quickPickOptions Samples.xy (Samples.nothing_remembered !! Samples.doc))
          = Some picked ->
          picked <> [] ->
          rest = map (fun item => indexOf Samples.xy (label item)) picked
          /\ (sublist picked (quickPickOptions Samples.xy (Samples.nothing_remembered !! Samples.doc)) ->
              Forall (Spec.header_index Samples.xy) rest
              /\ (NoDup Samples.xy -> ~ Spec.picks_first_column Samples.xy picked ->
                  NoDup [0; 1]%Z))).
Proof.
  apply (selection_starts_at_zero Samples.pick_tail Samples.xy Samples.doc Samples.nothing_remembered).
  reflexivity.
Defined.

(** C7: every header is an option, the first one too. A user who picks
    all options gets index 0 twice. *)
Lemma first_column_picked_twice :
  Spec.answer_of_dialog Samples.pick_all
  /\ (selectColumns Samples.pick_all Samples.xy Samples.doc Samples.nothing_remembered).1
     = Some [0; 0; 1]%Z
  /\ ~ NoDup [0; 0; 1]%Z.
Proof.
  split; [|split].
  - intros options picked [= <-]. reflexivity.
  - reflexivity.
  - rewrite NoDup_cons. intros [H _]. apply H. by left.
Qed.

(** Labels are resolved by first match: two columns with one label give
    the same index twice. *)
Lemma duplicate_labels_repeat :
  (selectColumns Samples.pick_tail [str "t"; str "a"; str "a"] Samples.doc Samples.nothing_remembered).1
  = Some [0; 1; 1]%Z.
Proof. reflexivity. Qed.

End Selector.

(** ** More about the parser *)

Module ParserMore.
Import JS FileChart ArrayFacts Parser.

(** [parseFile], with the blank lines gone and the delimiter named. *)
Lemma parseFile_kept (content : jsstring) :
  parseFile content
  = match Spec.kept_lines content with
    | [] => {| parsed_headers := []; parsed_data := []; parsed_warnings := [] |}
    | first :: rest =>
        {| parsed_headers := map trim (split (Spec.delimiter first).1 first);
           parsed_data := map (split (Spec.delimiter first).1) rest;
           parsed_warnings :=
             if (Spec.delimiter first).2
             then [str "No valid separator detected. Defaulting to tab."] else [] |}
    end.
Proof.
  unfold parseFile. rewrite kept_lines_filter.
  destruct (Spec.kept_lines content) as [|first rest]; [reflexivity|].
  by rewrite separator_choice, slice_from_1.
Qed.

(** A file has no headers exactly when all its lines are blank; then it
    has no rows and no warning either.  Otherwise there is a row for every
    further line that is not blank, and no row is without a field. *)
Theorem parseFile_shape (content : jsstring) :
  (parsed_headers (parseFile content) = [] <-> Spec.kept_lines content = [])
  /\ (parsed_headers (parseFile content) = [] ->
      parsed_data (parseFile content) = []
      /\ parsed_warnings (parseFile content) = [])
  /\ length (parsed_data (parseFile content))
     = (length (Spec.kept_lines content) - 1)%nat
  /\ Forall (fun row => row <> []) (parsed_data (parseFile content)).
Proof.
  rewrite parseFile_kept.
  destruct (Spec.kept_lines content) as [|first rest]; cbn [parsed_headers parsed_data parsed_warnings].
  - repeat split; constructor.
  - pose proof (split_not_nil (Spec.delimiter first).1 first) as Hne.
    assert (Hh : map trim (split (Spec.delimiter first).1 first) <> [])
      by (destruct (split _ first); [contradiction|discriminate]).
    split; [split; [contradiction|discriminate]|].
    split; [contradiction|].
    split; [rewrite length_map; simpl; lia|].
    rewrite map_is_fmap. apply Forall_fmap, Forall_forall.
    intros line _. apply split_not_nil.
Qed.

(** No header starts or ends with white space: trimming a header again
    gives the header back. *)
Theorem headers_trimmed (content : jsstring) :
  Forall (fun h => Spec.clean h /\ trim h = h) (parsed_headers (parseFile content)).
Proof.
  rewrite parseFile_kept.
  destruct (Spec.kept_lines content) as [|first rest]; cbn [parsed_headers];
    [constructor|].
  rewrite map_is_fmap. apply Forall_fmap, Forall_forall. intros f _. simpl.
  split; [apply trim_clean|apply trim_id, trim_clean].
Qed.

Lemma split_length sep (s : jsstring) :
  length (split sep s) = S (Notions.occurrences sep s).
Proof.
  unfold Notions.occurrences.
  induction s as [|c s IH]; simpl; [reflexivity|].
  rewrite (N.eqb_sym sep c).
  destruct (N.eqb c sep); simpl; [by rewrite IH|].
  destruct (split sep s) as [|h t]; simpl in *; [discriminate|exact IH].
Qed.

(** A line with [k] delimiters gives [k + 1] fields, for the headers and
    for every row: rows are neither padded nor cut to the number of
    headers. *)
Theorem field_counts (content first : jsstring) (rest : list jsstring) :
  Spec.kept_lines content = first :: rest ->
  length (parsed_headers (parseFile content))
  = S (Notions.occurrences (Spec.delimiter first).1 first)
  /\ Forall2 (fun line row =>
                length row = S (Notions.occurrences (Spec.delimiter first).1 line))
             rest (parsed_data (parseFile content)).
Proof.
  intros Hk. rewrite parseFile_kept, Hk. cbn [parsed_headers parsed_data].
  split; [by rewrite length_map, split_length|].
  induction rest as [|line rest' IH] in |- *; simpl; constructor;
    [apply split_length|apply IH].
Qed.

Lemma field_counts_witness :
  length (parsed_headers (parseFile Samples.two_columns)) = 3%nat
  /\ Forall2 (fun line row => length row = S (Notions.occurrences 59 line))
             [str "mon;1;2"; str "tue;3;12abc"]
             (parsed_data (parseFile Samples.two_columns)).
Proof.
  exact (field_counts Samples.two_columns (str "day;a;b")
           [str "mon;1;2"; str "tue;3;12abc"] eq_refl).
Defined.

Lemma split_no_sep sep (f : jsstring) : sep ∉ f -> split sep f = [f].
Proof.
  induction f as [|c f IH]; intros Hf; simpl; [reflexivity|].
  apply not_elem_of_cons in Hf as [Hc Hf].
  destruct (N.eqb_spec c sep); [congruence|]. by rewrite IH.
Qed.

Lemma split_app_sep sep (f r : jsstring) :
  sep ∉ f -> split sep (f ++ sep :: r) = f :: split sep r.
Proof.
  induction f as [|c f IH]; intros Hf; simpl.
  - by rewrite N.eqb_refl.
  - apply not_elem_of_cons in Hf as [Hc Hf].
    destruct (N.eqb_spec c sep); [congruence|]. by rewrite IH.
Qed.

(** Splitting what was joined gives the fields back. *)
Lemma split_join sep (fields : list jsstring) :
  fields <> [] -> Forall (fun f => sep ∉ f) fields ->
  split sep (Spec.join sep fields) = fields.
Proof.
  intros Hne Hf. induction Hf as [|f fs Hf Hfs IH]; [contradiction|].
  destruct fs as [|g fs]; [by apply split_no_sep|].
  rewrite join_cons, split_app_sep by assumption. f_equal. by apply IH.
Qed.

Lemma join_no_other sep c (fields : list jsstring) :
  c <> sep -> Forall (fun f => c ∉ f) fields -> c ∉ Spec.join sep fields.
Proof.
  intros Hc Hf. induction Hf as [|f fs Hf Hfs IH]; [apply not_elem_of_nil|].
  destruct fs as [|g fs]; [exact Hf|].
  rewrite join_cons, elem_of_app, elem_of_cons. intros [H|[H|H]]; tauto.
Qed.

Lemma delimiter_cases (first : jsstring) sep :
  Spec.delimiter first = (sep, false) -> sep <> 10%N.
Proof.
  unfold Spec.delimiter, Spec.tab, Spec.semicolon, Spec.bar.
  repeat case_bool_decide; intros [= <-]; discriminate.
Qed.

(** A table that is written out with a delimiter the first line calls
    for parses back to its header line and its rows, without a warning.
    The header fields must be trimmed already. *)
Theorem written_table_parses sep (headers : list jsstring)
        (rows : list (list jsstring)) :
  Spec.delimiter (Spec.join sep headers) = (sep, false) ->
  Forall (Notions.plain_line sep) (headers :: rows) ->
  Forall Spec.clean headers ->
  parseFile (Notions.written sep (headers :: rows))
  = {| parsed_headers := headers; parsed_data := rows; parsed_warnings := [] |}.
Proof.
  intros Hd Hlines Hclean.
  assert (Hsep : sep <> 10%N) by exact (delimiter_cases _ _ Hd).
  assert (Hkept : Spec.kept_lines (Notions.written sep (headers :: rows))
                  = map (Spec.join sep) (headers :: rows)).
  { unfold Spec.kept_lines, Notions.written. rewrite split_join.
    - apply forallb_filter_id.
      rewrite forallb_forall. intros line (fs & <- & Hfs)%in_map_iff.
      rewrite Forall_forall in Hlines.
      destruct (Hlines fs) as (_ & _ & Hb); [by apply list_elem_of_In|].
      by rewrite Hb.
    - discriminate.
    - rewrite map_is_fmap. apply Forall_fmap. eapply Forall_impl; [exact Hlines|].
      intros fs (_ & Hfs & _). simpl. apply join_no_other; [congruence|].
      eapply Forall_impl; [exact Hfs|]. by intros f [_ H]. }
  rewrite parseFile_kept, Hkept. cbn [map]. rewrite Hd. cbn [fst snd].
  inversion Hlines as [|? ? (Hne & Hfs & _) Hrows]; subst.
  f_equal.
  - rewrite split_join; [|assumption|].
    + rewrite map_is_fmap. apply list_eq. intros i. rewrite list_lookup_fmap.
      destruct (headers !! i) as [h|] eqn:Hh; [|reflexivity]. simpl. f_equal.
      apply trim_id. rewrite Forall_lookup in Hclean. by eapply Hclean.
    + eapply Forall_impl; [exact Hfs|]. by intros f [H _].
  - rewrite map_map. rewrite <- (map_id rows) at 2. apply map_ext_in.
    intros fs Hin. rewrite Forall_forall in Hrows.
    destruct (Hrows fs) as (Hne' & Hfs' & _); [by apply list_elem_of_In|].
    apply split_join; [assumption|].
    eapply Forall_impl; [exact Hfs'|]. by intros f [H _].
Qed.

Lemma written_table_parses_witness :
  parseFile (Notions.written 59 MoreSamples.small_table)
  = {| parsed_headers := [str "day"; str "a"];
       parsed_data := [[str "mon"; str "1"]; [str "tue"; str "2"]];
       parsed_warnings := [] |}.
Proof.
  apply (written_table_parses 59 [str "day"; str "a"]
           [[str "mon"; str "1"]; [str "tue"; str "2"]]).
  - reflexivity.
  - repeat constructor; try discriminate;
      by (intros H; repeat (apply elem_of_cons in H as [H|H]; [discriminate|]);
          by apply elem_of_nil in H).
  - repeat constructor.
Defined.

End ParserMore.

(** ** More about the column selector *)

Module SelectorMore.
Import JS FileChart ArrayFacts Selector.

(** Whatever selection the selector returned last for a document is what
    a cancelled or empty pick for that document returns next, whichever
    headers the file has by then; the store stays as it is. *)
Theorem last_selection_returns (ui ui' : list item -> option (list item))
        (headers headers' : list jsstring) (f : list N)
        (st st' : gmap (list N) (list Z)) (sel : list Z) :
  selectColumns ui headers f st = (Some sel, st') ->
  Spec.nothing_picked (ui' (quickPickOptions headers' (st' !! f))) ->
  selectColumns ui' headers' f st' = (Some sel, st').
Proof.
  intros Hfirst Hnothing. rewrite (selectColumns_nothing _ _ _ _ Hnothing).
  destruct (ui (quickPickOptions headers (st !! f))) as [[|it its]|] eqn:Hui.
  - rewrite selectColumns_nothing in Hfirst by (rewrite Hui; by right).
    destruct (st !! f) as [prior|] eqn:Hp; [|discriminate].
    injection Hfirst as <- <-. by rewrite Hp.
  - rewrite (selectColumns_picked _ _ _ _ _ _ Hui) in Hfirst.
    injection Hfirst as <- <-. by rewrite lookup_insert_eq.
  - rewrite selectColumns_nothing in Hfirst by (rewrite Hui; by left).
    destruct (st !! f) as [prior|] eqn:Hp; [|discriminate].
    injection Hfirst as <- <-. by rewrite Hp.
Qed.

Lemma last_selection_returns_witness :
  selectColumns Samples.cancel Samples.xy Samples.doc
    (<[Samples.doc := [1; 2; 3; 4]%Z]> Samples.nothing_remembered)
  = (Some [0; 1; 2; 3; 4]%Z,
     <[Samples.doc := [1; 2; 3; 4]%Z]> Samples.nothing_remembered).
Proof.
  apply (last_selection_returns Samples.pick_tail Samples.cancel
           Samples.five_headers Samples.xy Samples.doc Samples.nothing_remembered).
  - reflexivity.
  - by left.
Defined.

Lemma selectColumns_store (ui : list item -> option (list item))
      (headers : list jsstring) (f g : list N) (st : gmap (list N) (list Z)) :
  g <> f -> (selectColumns ui headers f st).2 !! g = st !! g.
Proof.
  intros Hg. unfold selectColumns.
  destruct (ui _) as [[|it its]|]; destruct (st !! f); simpl;
    try reflexivity; by rewrite lookup_insert_ne.
Qed.

(** A pick for one document leaves what is stored for any other
    document alone, and so does not change what the selector returns for
    the other document. *)
Theorem other_documents_untouched (ui ui' : list item -> option (list item))
        (headers headers' : list jsstring) (f g : list N)
        (st : gmap (list N) (list Z)) :
  g <> f ->
  (selectColumns ui headers f st).2 !! g = st !! g
  /\ (selectColumns ui' headers' g (selectColumns ui headers f st).2).1
     = (selectColumns ui' headers' g st).1.
Proof.
  intros Hg. pose proof (selectColumns_store ui headers f g st Hg) as H.
  split; [exact H|]. unfold selectColumns at 1 3. rewrite H.
  by destruct (ui' _) as [[|it its]|]; destruct (st !! g).
Qed.

Lemma other_documents_untouched_witness :
  (selectColumns Samples.pick_all Samples.xy (str "other.csv") Samples.remembered).2
    !! Samples.doc = Some [2; 4]%Z.
Proof.
  refine (proj1 (other_documents_untouched Samples.pick_all Samples.cancel
                   Samples.xy Samples.xy (str "other.csv") Samples.doc
                   Samples.remembered _)).
  discriminate.
Defined.

Lemma get_indexOf (headers : list jsstring) (l : jsstring) :
  l ∈ headers -> get headers (indexOf headers l) = Some l.
Proof.
  intros H. destruct (indexOf_elem headers l H) as (n & -> & Hn).
  by rewrite get_nat.
Qed.

(** After a pick that is not empty, the base series of the chart are
    named after the picked labels, in pick order. *)
Theorem base_series_named_after_picks (ui : list item -> option (list item))
        (headers : list jsstring) (rows : list (list jsstring)) (f : list N)
        (st : gmap (list N) (list Z)) (picked : list item) :
  ui (quickPickOptions headers (st !! f)) = Some picked ->
  picked <> [] ->
  sublist picked (quickPickOptions headers (st !! f)) ->
  exists sel,
    (selectColumns ui headers f st).1 = Some sel
    /\ map name (Spec.bases headers rows sel) = map (fun it => Some (label it)) picked.
Proof.
  intros Hui Hne Hsub. destruct picked as [|it its]; [contradiction|].
  rewrite (selectColumns_picked _ _ _ _ _ _ Hui). eexists. split; [reflexivity|].
  unfold Spec.bases. cbn [tail]. rewrite !map_map. apply map_ext_in.
  intros item Hitem. cbn [baseSeries name]. apply get_indexOf.
  apply (elem_of_sublist (map label (it :: its))).
  - rewrite map_is_fmap. apply list_elem_of_fmap_2. by apply list_elem_of_In.
  - by eapply picked_labels.
Qed.

Lemma base_series_named_after_picks_witness :
  exists sel,
    (selectColumns Samples.pick_tail (parsed_headers Samples.table) Samples.doc
       Samples.nothing_remembered).1 = Some sel
    /\ map name (Spec.bases (parsed_headers Samples.table)
                   (parsed_data Samples.table) sel)
       = [Some (str "a"); Some (str "b")].
Proof.
  refine (base_series_named_after_picks Samples.pick_tail
            (parsed_headers Samples.table) (parsed_data Samples.table)
            Samples.doc Samples.nothing_remembered
            (tail (quickPickOptions (parsed_headers Samples.table) None)) _ _ _).
  - reflexivity.
  - discriminate.
  - simpl. apply sublist_cons. reflexivity.
Defined.

Lemma indexOf_NoDup (headers : list jsstring) (n : nat) (l : jsstring) :
  NoDup headers -> headers !! n = Some l -> indexOf headers l = Z.of_nat n.
Proof.
  intros Hnd Hn.
  destruct (indexOf_elem headers l) as (m & -> & Hm);
    [by eapply list_elem_of_lookup_2|].
  f_equal. by eapply NoDup_lookup.
Qed.

Lemma filter_marked_default (headers : list jsstring) :
  List.filter picked (quickPickOptions headers None)
  = tail (quickPickOptions headers None).
Proof.
  unfold quickPickOptions. destruct headers as [|h hs]; [reflexivity|].
  cbn [imap tail List.filter picked]. change (0 <? Z.of_nat 0)%Z with false. cbv iota.
  apply forallb_filter_id. rewrite forallb_forall.
  intros it Hit%list_elem_of_In.
  apply list_elem_of_lookup in Hit as (i & Hi).
  rewrite list_lookup_imap in Hi. destruct (hs !! i); [|discriminate].
  injection Hi as <-. simpl. apply Z.ltb_lt. lia.
Qed.

(** Without a stored selection every column but the first is marked.
    Confirming the marks as they are, on distinct headers, selects every
    column in order and stores the columns after the first. *)
Theorem default_pick_selects_all (ui : list item -> option (list item))
        (headers : list jsstring) (f : list N) (st : gmap (list N) (list Z)) :
  NoDup headers ->
  (2 <= length headers)%nat ->
  st !! f = None ->
  ui (quickPickOptions headers None)
  = Some (List.filter picked (quickPickOptions headers None)) ->
  selectColumns ui headers f st
  = (Some (map Z.of_nat (seq 0 (length headers))),
     <[f := map Z.of_nat (seq 1 (length headers - 1))]> st).
Proof.
  intros Hnd Hlen Hf Hui. rewrite filter_marked_default in Hui.
  destruct headers as [|h0 [|h1 hs]]; simpl in Hlen; try lia.
  assert (Hidx : map (fun it => indexOf (h0 :: h1 :: hs) (label it))
                     (tail (quickPickOptions (h0 :: h1 :: hs) None))
                 = map Z.of_nat (seq 1 (length (h1 :: hs)))).
  { rewrite <- (map_map label (indexOf (h0 :: h1 :: hs))).
    replace (map label (tail (quickPickOptions (h0 :: h1 :: hs) None)))
      with (tail (map label (quickPickOptions (h0 :: h1 :: hs) None)))
      by (by destruct (quickPickOptions (h0 :: h1 :: hs) None)).
    rewrite options_labels. cbn [tail].
    rewrite !map_is_fmap. apply list_eq. intros i.
    rewrite !list_lookup_fmap.
    destruct (decide (i < length (h1 :: hs))%nat) as [Hi|Hi].
    - rewrite lookup_seq_lt by exact Hi.
      destruct (lookup_lt_is_Some_2 (h1 :: hs) i Hi) as [x Hx].
      rewrite Hx. simpl. f_equal. by apply indexOf_NoDup.
    - rewrite lookup_seq_ge by lia. by rewrite lookup_ge_None_2 by lia. }
  unfold selectColumns. rewrite Hf, Hui.
  destruct (tail (quickPickOptions (h0 :: h1 :: hs) None)) as [|it its] eqn:Ht;
    [discriminate Hidx|].
  rewrite Hidx. cbn [length]. rewrite Nat.sub_succ, Nat.sub_0_r. reflexivity.
Qed.

Lemma default_pick_selects_all_witness :
  selectColumns (fun options => Some (List.filter picked options))
    Samples.five_headers Samples.doc Samples.nothing_remembered
  = (Some [0; 1; 2; 3; 4]%Z,
     <[Samples.doc := [1; 2; 3; 4]%Z]> Samples.nothing_remembered).
Proof.
  apply (default_pick_selects_all (fun options => Some (List.filter picked options))
           Samples.five_headers Samples.doc Samples.nothing_remembered).
  - apply NoDup_ListNoDup. repeat constructor; simpl;
      intros H; repeat (destruct H as [H|H]; [discriminate|]); exact H.
  - simpl. lia.
  - reflexivity.
  - reflexivity.
Defined.

End SelectorMore.

(** ** More about the series list *)

Module PipelineMore.
Import JS FileChart ArrayFacts Pipeline.

Lemma statistic_of_label (st : Spec.statistic) :
  Notions.statistic_of (Spec.label_of st) = Some st.
Proof. by destruct st. Qed.

Lemma requested_labels (sts : list Spec.statistic) :
  Notions.requested (map Spec.label_of sts) = sts.
Proof.
  unfold Notions.requested. induction sts as [|st sts IH]; [reflexivity|].
  change (omap Notions.statistic_of (map Spec.label_of (st :: sts)))
    with (match Notions.statistic_of (Spec.label_of st) with
          | Some y => y :: omap Notions.statistic_of (map Spec.label_of sts)
          | None => omap Notions.statistic_of (map Spec.label_of sts)
          end).
  by rewrite statistic_of_label, IH.
Qed.

(** One turn of the [switch], for any label. *)
Lemma addStatistic_any (ps : periods) (s : series) (acc : list series)
      (stat : jsstring) :
  addStatistic ps s acc stat
  = acc ++ match Notions.statistic_of stat with
           | Some st => [Spec.overlay ps s st]
           | None => []
           end.
Proof.
  unfold addStatistic, Notions.statistic_of. cbn [List.find Spec.label_of].
  repeat (match goal with
          | |- context [eqb stat ?l] => destruct (eqb stat l); [reflexivity|]
          end).
  by rewrite app_nil_r.
Qed.

Lemma fold_addStatistic_any (ps : periods) (s : series) (stats : list jsstring) :
  forall acc,
    fold_left (addStatistic ps s) stats acc
    = acc ++ Spec.overlays ps (Notions.requested stats) s.
Proof.
  unfold Notions.requested.
  induction stats as [|stat stats IH]; intros acc; cbn [fold_left].
  - by rewrite app_nil_r.
  - rewrite addStatistic_any, IH, <- app_assoc.
    change (omap Notions.statistic_of (stat :: stats))
      with (match Notions.statistic_of stat with
            | Some y => y :: omap Notions.statistic_of stats
            | None => omap Notions.statistic_of stats
            end).
    by destruct (Notions.statistic_of stat).
Qed.

Lemma processData_series_any headers rows selection (stats : list jsstring) ps :
  fst (processData headers rows selection stats ps)
  = Spec.bases headers rows selection
      ++ flat_map (Spec.overlays ps (Notions.requested stats))
           (Spec.bases headers rows selection).
Proof.
  unfold processData. cbn [fst]. rewrite slice_from_1.
  apply forEach_self_push. intros s acc. apply fold_addStatistic_any.
Qed.

(** A label that is none of the five adds no series and breaks nothing:
    the list is the one for the known labels alone.  Without any known
    label it is the list of the base series. *)
Theorem unknown_statistics_ignored headers rows selection
        (stats : list jsstring) ps :
  fst (processData headers rows selection stats ps)
  = Spec.bases_then_overlays ps (Notions.requested stats)
      (Spec.bases headers rows selection)
  /\ fst (processData headers rows selection stats ps)
     = fst (processData headers rows selection
              (map Spec.label_of (Notions.requested stats)) ps)
  /\ (Notions.requested stats = [] ->
      fst (processData headers rows selection stats ps)
      = Spec.bases headers rows selection).
Proof.
  rewrite !processData_series_any, requested_labels.
  split; [reflexivity|]. split; [reflexivity|]. intros ->.
  rewrite <- (app_nil_r (Spec.bases _ _ _)) at 3. f_equal.
  induction (Spec.bases headers rows selection); [reflexivity|assumption].
Qed.

Lemma overlay_length ps (b : series) (st : Spec.statistic) :
  data b <> [] -> length (data (Spec.overlay ps b st)) = length (data b).
Proof.
  intros Hne. destruct st; cbn [Spec.overlay].
  1-3: unfold createStatSeries; cbn [data]; apply length_map.
  - apply MovingAverage.createSMA_length.
  - by apply Exponential.createEMA_length.
Qed.

(** When the table has a data row, every series of the list, base or
    overlay, has one data point per row, and so has the list of
    categories: the series are aligned with the categories. *)
Theorem series_aligned headers rows selection (stats : list jsstring) ps :
  rows <> [] ->
  Forall (fun s => length (data s) = length rows)
         (fst (processData headers rows selection stats ps))
  /\ length (snd (processData headers rows selection stats ps)) = length rows.
Proof.
  intros Hrows. split; [|unfold processData; cbn [snd]; apply length_map].
  rewrite processData_series_any.
  assert (Hb : Forall (fun s => length (data s) = length rows)
                      (Spec.bases headers rows selection)).
  { unfold Spec.bases. rewrite map_is_fmap. apply Forall_fmap, Forall_forall.
    intros col _. simpl. apply length_map. }
  apply Forall_app. split; [exact Hb|].
  induction Hb as [|b bs Hlen _ IH]; [constructor|].
  cbn [flat_map]. apply Forall_app. split; [|exact IH].
  unfold Spec.overlays. rewrite map_is_fmap. apply Forall_fmap, Forall_forall.
  intros st _. simpl. rewrite overlay_length; [exact Hlen|].
  intros Hnil. rewrite Hnil in Hlen. simpl in Hlen.
  destruct rows; [contradiction|discriminate].
Qed.

Lemma series_aligned_witness :
  Forall (fun s => length (data s) = 2%nat)
         (fst (processData (parsed_headers Samples.table) (parsed_data Samples.table)
                 [0; 1; 2]%Z [str "EMA"; str "Median"; str "Max"] Samples.twenty))
  /\ length (snd (processData (parsed_headers Samples.table)
                    (parsed_data Samples.table)
                    [0; 1; 2]%Z [str "EMA"; str "Median"; str "Max"] Samples.twenty))
     = 2%nat.
Proof.
  apply (series_aligned (parsed_headers Samples.table) (parsed_data Samples.table)).
  discriminate.
Defined.

(** No base series ever holds NaN or undefined: each of its points is
    null or a number that is not NaN. *)
Theorem base_series_hold_base_values headers rows selection :
  Forall (fun b => Spec.base_data (data b)) (Spec.bases headers rows selection).
Proof.
  unfold Spec.bases. rewrite map_is_fmap. apply Forall_fmap, Forall_forall.
  intros col _. apply SeriesBuilder.baseSeries_base_data.
Qed.

(** A period is read only for its own statistic: without a request for
    SMA the list does not depend on the SMA period, and likewise for
    EMA. *)
Theorem unread_period headers rows selection (stats : list jsstring)
        (a b e : Z) :
  (Spec.SMA ∉ Notions.requested stats ->
   fst (processData headers rows selection stats {| sma := a; ema := e |})
   = fst (processData headers rows selection stats {| sma := b; ema := e |}))
  /\ (Spec.EMA ∉ Notions.requested stats ->
      fst (processData headers rows selection stats {| sma := e; ema := a |})
      = fst (processData headers rows selection stats {| sma := e; ema := b |})).
Proof.
  rewrite !processData_series_any.
  split; intros Hno; f_equal; apply flat_map_ext; intros s;
    unfold Spec.overlays; apply map_ext_in; intros st Hst%list_elem_of_In;
    destruct st; try reflexivity; contradiction.
Qed.

End PipelineMore.

(** ** Cells with white space around a number *)

Module Cells.
Import JS FileChart ArrayFacts.

Lemma digit_not_whitespace (c : N) : is_digit c = true -> is_whitespace c = false.
Proof.
  unfold is_digit, is_whitespace. intros H.
  apply andb_prop in H as [H1 H2]. apply N.leb_le in H1, H2.
  repeat (apply orb_false_intro);
    try (apply N.eqb_neq; lia);
    apply andb_false_iff; (left; apply N.leb_gt; lia) || (right; apply N.leb_gt; lia).
Qed.

Lemma whitespace_not_digit (c : N) : is_whitespace c = true -> is_digit c = false.
Proof.
  intros H. destruct (is_digit c) eqn:E; [|reflexivity].
  apply digit_not_whitespace in E. congruence.
Qed.

Lemma blank_ends_number (r : jsstring) : Spec.blank r = true -> Notions.ends_number r.
Proof. destruct r as [|c r]; simpl; [done|]. by intros [H _]%andb_prop. Qed.

Lemma span_digits_app (ds r : jsstring) :
  forallb is_digit ds = true -> Notions.ends_number r -> span_digits (ds ++ r) = (ds, r).
Proof.
  intros Hds Hr. induction ds as [|d ds IH]; simpl in *.
  - destruct r as [|c r]; [reflexivity|]. simpl.
    by rewrite (whitespace_not_digit c Hr).
  - apply andb_prop in Hds as [Hd Hds]. by rewrite Hd, IH.
Qed.

Lemma trimStart_app_blank (w s : jsstring) :
  Spec.blank w = true -> trimStart (w ++ s) = trimStart s.
Proof.
  induction w as [|c w IH]; simpl; [reflexivity|].
  intros [Hc Hw]%andb_prop. rewrite Hc. by apply IH.
Qed.

(** A code unit that is white space is none of the marks a numeric
    literal goes on with. *)
Lemma whitespace_no_mark (c : N) :
  is_whitespace c = true -> c <> 46%N /\ c <> 101%N /\ c <> 69%N.
Proof.
  intros H. repeat split; intros ->; discriminate H.
Qed.

Lemma after_digits (r : jsstring) :
  Notions.ends_number r ->
  match r with
  | 46%N :: t => span_digits t
  | _ => ([], r)
  end = ([], r)
  /\ exponent_part r = None.
Proof.
  destruct r as [|c r]; [done|]. simpl. intros Hc.
  destruct (whitespace_no_mark c Hc) as (H1 & H2 & H3).
  split.
  - destruct c as [|p]; [reflexivity|].
    do 6 (destruct p as [p|p|]; try reflexivity). congruence.
  - by rewrite (proj2 (N.eqb_neq c 101) H2), (proj2 (N.eqb_neq c 69) H3).
Qed.

Lemma digits_literal (d : N) (ds r : jsstring) :
  is_digit d = true -> forallb is_digit ds = true -> Notions.ends_number r ->
  signed_literal (d :: ds ++ r)
  = Some (false, LitDecimal (digits_value (d :: ds)) 0, r).
Proof.
  intros Hd Hds Hr.
  assert (Hspan : span_digits (d :: ds ++ r) = (d :: ds, r))
    by (apply (span_digits_app (d :: ds) r); [simpl; by rewrite Hd|done]).
  destruct (after_digits r Hr) as [Hdot Hexp].
  assert (Hu : unsigned_literal (d :: ds ++ r)
               = Some (LitDecimal (digits_value (d :: ds)) 0, r)).
  { unfold unsigned_literal.
    replace (strip_prefix (str "Infinity") (d :: ds ++ r)) with (@None jsstring).
    - rewrite Hspan, Hdot, Hexp. by rewrite app_nil_r.
    - unfold is_digit in Hd. apply andb_prop in Hd as [H1 H2].
      apply N.leb_le in H1, H2.
      change (str "Infinity") with (73%N :: str "nfinity"). cbn [strip_prefix].
      destruct (N.eqb_spec 73 d); [lia|reflexivity]. }
  unfold signed_literal. rewrite Hu.
  unfold is_digit in Hd. apply andb_prop in Hd as [H1 H2].
  apply N.leb_le in H1, H2.
  destruct d as [|p]; [reflexivity|].
  do 6 (destruct p as [p|p|]; try reflexivity); lia.
Qed.

(** A field that holds a decimal integer, with white space before or
    after it (the carriage return that ends a line of a file with CRLF
    line ends, say), yields that integer: the parser leaves the white
    space in the field and the builder reads past it. *)
Theorem integer_cell (row : list jsstring) (col : Z)
        (before digits after : jsstring) :
  get row col = Some (before ++ digits ++ after) ->
  Spec.blank before = true ->
  digits <> [] ->
  forallb is_digit digits = true ->
  Spec.blank after = true ->
  cell row col = Num (of_Z (digits_value digits)).
Proof.
  intros Hget Hb Hne Hds Ha. unfold cell. rewrite Hget. cbn [ToString].
  destruct digits as [|d ds]; [contradiction|].
  simpl in Hds. apply andb_prop in Hds as [Hd Hds].
  assert (Hp : parseFloat (before ++ (d :: ds) ++ after)
               = of_Z (digits_value (d :: ds))).
  { unfold parseFloat. rewrite trimStart_app_blank by exact Hb.
    cbn [app trimStart]. rewrite (digit_not_whitespace d Hd).
    rewrite (digits_literal d ds after Hd Hds (blank_ends_number _ Ha)).
    unfold literal_value, decimal_to_number. cbn [Z.leb Z.compare].
    by rewrite Z.pow_0_r, Z.mul_1_r. }
  rewrite Hp. by rewrite SeriesBuilder.of_Z_not_nan.
Qed.

Lemma integer_cell_witness :
  cell [str "mon"; str " 42" ++ [13%N]] 1 = Num (of_Z 42).
Proof.
  apply (integer_cell [str "mon"; str " 42" ++ [13%N]] 1 (str " ") (str "42") [13%N]);
    reflexivity || discriminate.
Defined.

(** The sign of a literal is kept. *)
Lemma signed_cells :
  cell [str "a"; str "-3.5"] 1 = Num (-3.5)%float
  /\ cell [str "a"; str "+2"] 1 = Num 2%float
  /\ cell [str "a"; str " -12e1x"] 1 = Num (-120)%float
  /\ cell [str "a"; str "-Infinity"] 1 = Num PrimFloat.neg_infinity
  /\ cell [str "a"; str "-0"] 1 = Num PrimFloat.neg_zero.
Proof. repeat split; vm_compute; reflexivity. Qed.

End Cells.

(** ** More about the overlays *)

Module OverlayMore.
Import JS FileChart ArrayFacts FloatFacts StatOverlay.

(** The Average overlay of a base series is the flat line of the mean of
    the values that are present: absent values count neither in the sum
    nor in the divisor. *)
Theorem average_is_mean_of_present (s : series) :
  Spec.base_data (data s) ->
  data (createStatSeries s (str "Avg") average)
  = Spec.flat (data s) (Spec.mean (Spec.present (data s))).
Proof. apply average_overlay_mean. Qed.

Lemma average_is_mean_of_present_witness :
  data (createStatSeries Samples.one_gap_three (str "Avg") average)
  = [Samples.num 2; Samples.num 2; Samples.num 2].
Proof.
  refine (average_is_mean_of_present Samples.one_gap_three _).
  repeat constructor.
Defined.

Lemma Math_min_call_two (arr : list value) :
  (2 <= length arr)%nat -> Math_min_call arr = PrimFloat.nan.
Proof.
  destruct arr as [|a [|b arr]]; simpl; try lia. intros _. by destruct a.
Qed.

(** With two present values or more, the Max overlay and the Min overlay
    are flat lines of NaN. *)
Theorem max_min_nan_from_two_values (s : series) :
  Spec.base_data (data s) ->
  (2 <= length (Spec.present (data s)))%nat ->
  data (createStatSeries s (str "Max") Math_max_call) = Spec.flat (data s) PrimFloat.nan
  /\ data (createStatSeries s (str "Min") Math_min_call) = Spec.flat (data s) PrimFloat.nan.
Proof.
  intros Hd Hlen. rewrite !createStatSeries_flat.
  rewrite Math_max_call_two, Math_min_call_two
    by (by rewrite filter_present_length).
  done.
Qed.

Lemma max_min_nan_from_two_values_witness :
  data (createStatSeries Samples.one_to_five (str "Max") Math_max_call)
  = Spec.flat (data Samples.one_to_five) PrimFloat.nan
  /\ data (createStatSeries Samples.one_to_five (str "Min") Math_min_call)
     = Spec.flat (data Samples.one_to_five) PrimFloat.nan.
Proof.
  apply (max_min_nan_from_two_values Samples.one_to_five).
  - repeat constructor.
  - simpl. lia.
Defined.

Lemma filter_present (d : list value) :
  Spec.base_data d -> List.filter not_null d = map Num (Spec.present d).
Proof.
  induction 1 as [|v d Hv _ IH]; [reflexivity|].
  destruct v; simpl in *; [assumption|contradiction|]. by rewrite IH.
Qed.

Lemma below_neg_infinity (x : number) :
  PrimFloat.is_nan x = false ->
  PrimFloat.ltb PrimFloat.neg_infinity x = false -> x = PrimFloat.neg_infinity.
Proof.
  intros Hn Hlt. rewrite FloatAxioms.ltb_spec in Hlt.
  apply Prim2SF_inj. change (Prim2SF PrimFloat.neg_infinity) with (S754_infinity true) in *.
  destruct (Prim2SF x) as [sx|[]| |sx mx ex] eqn:E; try discriminate Hlt;
    [reflexivity|].
  apply is_nan_Prim2SF in E. congruence.
Qed.

Lemma above_infinity (x : number) :
  PrimFloat.is_nan x = false ->
  PrimFloat.ltb x PrimFloat.infinity = false -> x = PrimFloat.infinity.
Proof.
  intros Hn Hlt. rewrite FloatAxioms.ltb_spec in Hlt.
  apply Prim2SF_inj. change (Prim2SF PrimFloat.infinity) with (S754_infinity false) in *.
  destruct (Prim2SF x) as [sx|[]| |sx mx ex] eqn:E; try discriminate Hlt;
    try (destruct sx; discriminate Hlt); [reflexivity|].
  apply is_nan_Prim2SF in E. congruence.
Qed.

(** [Math.max] and [Math.min] of one number that is not NaN. *)
Lemma Math_max_one (x : number) : PrimFloat.is_nan x = false -> Math_max [x] = x.
Proof.
  intros Hn. unfold Math_max. cbn [fold_left]. unfold max_step.
  change (PrimFloat.is_nan PrimFloat.neg_infinity) with false. cbv iota. rewrite Hn.
  destruct (PrimFloat.ltb PrimFloat.neg_infinity x) eqn:E; [reflexivity|].
  rewrite (below_neg_infinity x Hn E). reflexivity.
Qed.

Lemma Math_min_one (x : number) : PrimFloat.is_nan x = false -> Math_min [x] = x.
Proof.
  intros Hn. unfold Math_min. cbn [fold_left]. unfold min_step.
  change (PrimFloat.is_nan PrimFloat.infinity) with false. cbv iota. rewrite Hn.
  destruct (PrimFloat.ltb x PrimFloat.infinity) eqn:E; [reflexivity|].
  rewrite (above_infinity x Hn E). reflexivity.
Qed.

(** With exactly one present value, not a zero, the Max overlay and the
    Min overlay are the flat line of that value: an array of one number
    reads as that number. *)
Theorem max_min_of_single_value (s : series) (x : number) :
  Spec.base_data (data s) ->
  Spec.present (data s) = [x] ->
  PrimFloat.is_zero x = false ->
  data (createStatSeries s (str "Max") Math_max_call) = Spec.flat (data s) x
  /\ data (createStatSeries s (str "Min") Math_min_call) = Spec.flat (data s) x.
Proof.
  intros Hd Hx Hz. rewrite !createStatSeries_flat, (filter_present _ Hd), Hx.
  assert (Hn : PrimFloat.is_nan x = false).
  { assert (Hin : Forall (fun y => PrimFloat.is_nan y = false) (Spec.present (data s))).
    { clear Hx. induction Hd as [|v d Hv _ IH]; [constructor|].
      destruct v; simpl in *; [assumption|contradiction|by constructor]. }
    rewrite Hx in Hin. by inversion Hin. }
  unfold Math_max_call, Math_min_call. cbn [map Array_ToNumber]. rewrite Hz.
  by rewrite Math_max_one, Math_min_one.
Qed.

Lemma max_min_of_single_value_witness :
  data (createStatSeries (Samples.base [Null; Samples.num 7; Null]) (str "Max")
          Math_max_call)
  = [Samples.num 7; Samples.num 7; Samples.num 7]
  /\ data (createStatSeries (Samples.base [Null; Samples.num 7; Null]) (str "Min")
             Math_min_call)
     = [Samples.num 7; Samples.num 7; Samples.num 7].
Proof.
  apply (max_min_of_single_value (Samples.base [Null; Samples.num 7; Null]) (of_Z 7)).
  - repeat constructor.
  - reflexivity.
  - reflexivity.
Defined.

(** For a column without any number, the Max overlay and the Min overlay
    are flat lines of 0 and the Average overlay is a flat line of NaN. *)
Theorem overlays_of_absent_column (s : series) :
  Notions.all_absent (data s) ->
  data (createStatSeries s (str "Max") Math_max_call) = Spec.flat (data s) PrimFloat.zero
  /\ data (createStatSeries s (str "Min") Math_min_call) = Spec.flat (data s) PrimFloat.zero
  /\ data (createStatSeries s (str "Avg") average) = Spec.flat (data s) PrimFloat.nan.
Proof.
  intros Ha. rewrite !createStatSeries_flat.
  assert (Hf : List.filter not_null (data s) = []).
  { induction Ha as [|v d -> _ IH]; [reflexivity|exact IH]. }
  rewrite Hf. done.
Qed.

Lemma overlays_of_absent_column_witness :
  data (createStatSeries (Samples.base [Null; Null]) (str "Max") Math_max_call)
  = [Samples.num 0; Samples.num 0]
  /\ data (createStatSeries (Samples.base [Null; Null]) (str "Min") Math_min_call)
     = [Samples.num 0; Samples.num 0]
  /\ data (createStatSeries (Samples.base [Null; Null]) (str "Avg") average)
     = [Num PrimFloat.nan; Num PrimFloat.nan].
Proof.
  apply (overlays_of_absent_column (Samples.base [Null; Null])).
  repeat constructor.
Defined.

(** The moving average keeps the length of the series, and it is null
    exactly at the indices below [period - 1], whatever the series holds
    and whatever the period is: a null in the base series gives no null
    in the overlay.  At the other indices it is a number value, which
    can be NaN. *)
Theorem sma_gaps (s : series) (p : Z) (i : nat) :
  (i < length (data s))%nat ->
  length (data (createSMA s p)) = length (data s)
  /\ (data (createSMA s p) !! i = Some Null <-> (Z.of_nat i < p - 1)%Z)
  /\ ((p - 1 <= Z.of_nat i)%Z -> exists x, data (createSMA s p) !! i = Some (Num x)).
Proof.
  intros Hi. split; [apply MovingAverage.createSMA_length|].
  rewrite (MovingAverage.createSMA_lookup s p i Hi).
  destruct (Z.ltb_spec (Z.of_nat i) (p - 1)) as [Hlt|Hge].
  - split; [tauto|]. lia.
  - split; [split; [discriminate|lia]|]. intros _. by eexists.
Qed.

Lemma sma_gaps_witness :
  length (data (createSMA Samples.gap_then_twenty 2)) = 5%nat
  /\ (data (createSMA Samples.gap_then_twenty 2) !! 1%nat = Some Null
      <-> (Z.of_nat 1 < 2 - 1)%Z)
  /\ ((2 - 1 <= Z.of_nat 1)%Z ->
      exists x, data (createSMA Samples.gap_then_twenty 2) !! 1%nat = Some (Num x)).
Proof.
  apply (sma_gaps Samples.gap_then_twenty 2 1). simpl. lia.
Defined.

(** For a base series that is not empty the exponential average has one
    value per index; the first is the first value of the base series,
    and each further one follows the recurrence from the value before it:
    unchanged where the base value is null. *)
Theorem ema_recurrence (s : series) (p : Z) :
  data s <> [] ->
  length (data (createEMA s p)) = length (data s)
  /\ data (createEMA s p) !! 0%nat = data s !! 0%nat
  /\ (forall (i : nat) (e : value),
        data (createEMA s p) !! i = Some e ->
        (data s !! S i = Some Null -> data (createEMA s p) !! S i = Some e)
        /\ (forall x, data s !! S i = Some (Num x) ->
              data (createEMA s p) !! S i
              = Some (Num (Spec.ema_next (smoothing p) x (ToNumber e))))).
Proof.
  intros Hne. split; [by apply Exponential.createEMA_length|].
  split.
  - rewrite Exponential.createEMA_seed. unfold get_value.
    change 0%Z with (Z.of_nat 0). rewrite get_nat.
    destruct (data s); [contradiction|reflexivity].
  - intros i e He. split.
    + intros Hv. by rewrite (Exponential.createEMA_step s p i Null e Hv He).
    + intros x Hv. by rewrite (Exponential.createEMA_step s p i (Num x) e Hv He).
Qed.

Lemma ema_recurrence_witness :
  length (data (createEMA Samples.ten_twenty 3)) = 2%nat
  /\ data (createEMA Samples.ten_twenty 3) !! 1%nat = Some (Samples.num 15).
Proof.
  destruct (ema_recurrence Samples.ten_twenty 3) as (Hlen & H0 & Hstep);
    [discriminate|].
  split; [exact Hlen|].
  exact (proj2 (Hstep 0%nat (Samples.num 10) H0) (of_Z 20) eq_refl).
Defined.

Lemma absent_replicate (d : list value) :
  Notions.all_absent d -> d = replicate (length d) Null.
Proof.
  induction 1 as [|v d Hv _ IH]; [reflexivity|]. simpl. by rewrite Hv, <- IH.
Qed.

(** The exponential average of a column without any number is without
    any number too. *)
Theorem ema_of_absent_column (s : series) (p : Z) :
  data s <> [] -> Notions.all_absent (data s) -> data (createEMA s p) = data s.
Proof.
  intros Hne Ha. rewrite Exponential.createEMA_data.
  pose proof (absent_replicate _ Ha) as Hd.
  rewrite Hd. destruct (length (data s)) as [|n] eqn:Hn.
  - destruct (data s); [contradiction|discriminate].
  - cbn [replicate drop]. rewrite drop_0.
    change (get_value (Null :: replicate n Null) 0) with Null.
    rewrite <- (app_nil_r (replicate n Null)) at 1.
    by rewrite Exponential.ema_trace_nulls, app_nil_r.
Qed.

Lemma ema_of_absent_column_witness :
  data (createEMA (Samples.base [Null; Null; Null]) 5) = [Null; Null; Null].
Proof.
  apply (ema_of_absent_column (Samples.base [Null; Null; Null]) 5).
  - discriminate.
  - repeat constructor.
Defined.

(** The period in the name of an overlay is the number the period is:
    an integer beyond 2^53 is named by the number next to it, and from
    10^21 on in exponent notation. *)
Lemma period_names :
  name (createSMA Samples.one_to_five 3) = Some (str "y (SMA 3)")
  /\ name (createSMA Samples.one_to_five 9007199254740993)
     = Some (str "y (SMA 9007199254740992)")
  /\ name (createEMA Samples.one_to_five 18446744073709551616)
     = Some (str "y (EMA 18446744073709552000)")
  /\ name (createEMA Samples.one_to_five (10 ^ 21)) = Some (str "y (EMA 1e+21)")
  /\ name (createEMA Samples.one_to_five (2 ^ 70))
     = Some (str "y (EMA 1.1805916207174113e+21)")
  /\ name (createEMA Samples.one_to_five (2 ^ 1024)) = Some (str "y (EMA Infinity)").
Proof. repeat split; vm_compute; reflexivity. Qed.

End OverlayMore.

(** ** Periods as integers *)

Module PeriodInteger.
Import JS Extension FloatFacts.
Local Open Scope Z_scope.

(** Read back, the value of a rounded integer rounds to the same number. *)
Lemma integer_of_round (s : bool) (p : positive) :
  binary_normalize prec emax
    (match binary_round prec emax s p 0 with
     | S754_zero _ | S754_nan => 0
     | S754_infinity s => cond_Zopp s (2 ^ 1024)
     | S754_finite s m e =>
         cond_Zopp s (if 0 <=? e then Zpos m * 2 ^ e else Zpos m / 2 ^ (- e))
     end) 0 false
  = binary_round prec emax s p 0.
Proof.
  destruct (Z.le_gt_cases (Zpos (digits2_pos p)) 53) as [Hd|Hd].
  - destruct (binary_round_small s p Hd) as (m & e & Hy & He & Hm).
    rewrite Hy.
    assert (HX : (if 0 <=? e then Zpos m * 2 ^ e else Zpos m / 2 ^ (- e)) = Zpos p).
    { destruct (Z.leb_spec 0 e) as [H0|H0].
      - replace e with 0 in * by lia. simpl in Hm. lia.
      - rewrite Hm. apply Z.div_mul. apply Z.pow_nonzero; lia. }
    rewrite HX, <- Hy. by destruct s.
  - pose proof (binary_round_valid s p 0) as Hv.
    pose proof (binary_round_above s p 0 54 ltac:(lia) ltac:(lia)) as Ha.
    destruct (binary_round prec emax s p 0) as [b|b| |b m e]; simpl in Ha; try tauto.
    + subst b. by destruct s; vm_compute.
    + destruct Ha as [-> Ha].
      pose proof (valid_exponent _ _ _ Hv) as He.
      simpl in Hv. unfold bounded, canonical_mantissa in Hv.
      apply andb_prop in Hv as [Hc _]. apply Z.eqb_eq in Hc.
      assert (He1 : 0 < e) by (rewrite fexp_eq in Hc; lia).
      rewrite (proj2 (Z.leb_le 0 e)) by lia.
      assert (Hp : 0 < Zpos m * 2 ^ e)
        by (assert (0 < 2 ^ e) by (apply Z.pow_pos_nonneg; lia); lia).
      destruct (Zpos m * 2 ^ e) as [|M|M] eqn:EM; try lia.
      assert (Hr : binary_round prec emax s M 0 = S754_finite s m e)
        by (apply binary_round_shifted; [exact Hc|lia|by symmetry]).
      by destruct s.
Qed.

(** The integer that stands for the number an integer becomes, becomes
    that number again. *)
Lemma of_Z_integer_of (z : Z) : of_Z (integer_of (of_Z z)) = of_Z z.
Proof.
  unfold of_Z at 1 3. f_equal.
  unfold integer_of. rewrite Prim2SF_of_Z.
  destruct z as [|p|p]; [reflexivity| |]; cbn [binary_normalize];
    apply integer_of_round.
Qed.

End PeriodInteger.

(** ** Statistics and periods *)

Module Periods.
Import JS FileChart Extension ArrayFacts FloatFacts PeriodInteger.

Lemma sublist_map_inv {A B} (f : A -> B) (L : list A) : forall l,
  sublist l (map f L) -> exists L', sublist L' L /\ l = map f L'.
Proof.
  induction L as [|x L IH]; intros l Hl; simpl in Hl.
  - apply sublist_nil_r in Hl as ->. exists []. split; [constructor|reflexivity].
  - apply sublist_cons_r in Hl as [Hl|(l' & -> & Hl)].
    + destruct (IH l Hl) as (L' & HL' & ->). exists L'. split; [by constructor|done].
    + destruct (IH l' Hl) as (L' & HL' & ->). exists (x :: L').
      split; [by constructor|done].
Qed.

Lemma sublist_filter {A} (f : A -> bool) (l : list A) : sublist (List.filter f l) l.
Proof.
  induction l as [|x l IH]; simpl; [constructor|].
  destruct (f x); by constructor.
Qed.

Lemma selectStatistics_labels (ui : list statItem -> option (list statItem)) :
  Notions.statistics_of_dialog ui ->
  exists sts,
    selectStatistics ui = map Spec.label_of sts
    /\ sublist sts Notions.all_statistics
    /\ Notions.requested (selectStatistics ui) = sts.
Proof.
  intros Hui. unfold selectStatistics.
  destruct (ui statisticOptions) as [picked|] eqn:E.
  - pose proof (Hui _ _ E) as Hsub.
    assert (Hl : sublist (map stat_label picked) (map Spec.label_of Notions.all_statistics)).
    { change (map Spec.label_of Notions.all_statistics)
        with (map stat_label statisticOptions).
      rewrite !map_is_fmap. by apply fmap_sublist. }
    apply sublist_map_inv in Hl as (sts & Hsts & ->).
    exists sts. split; [reflexivity|]. split; [exact Hsts|].
    apply PipelineMore.requested_labels.
  - exists []. repeat split. apply sublist_nil_l.
Qed.

(** A cancelled pick requests no statistic.  Any other answer of the
    dialog requests statistics that [processData] knows, each one once at
    most, in the order of the options. *)
Theorem selected_statistics_known (ui : list statItem -> option (list statItem)) :
  Notions.statistics_of_dialog ui ->
  (ui statisticOptions = None -> selectStatistics ui = [])
  /\ exists sts,
      selectStatistics ui = map Spec.label_of sts
      /\ sublist sts Notions.all_statistics
      /\ Notions.requested (selectStatistics ui) = sts.
Proof.
  intros Hui. split; [|by apply selectStatistics_labels].
  unfold selectStatistics. by intros ->.
Qed.

Lemma selected_statistics_known_witness :
  exists sts,
    selectStatistics (pickStatistics MoreSamples.keen) = map Spec.label_of sts
    /\ sublist sts Notions.all_statistics
    /\ Notions.requested (selectStatistics (pickStatistics MoreSamples.keen)) = sts.
Proof.
  refine (proj2 (selected_statistics_known (pickStatistics MoreSamples.keen) _)).
  intros options picked [= <-]. apply sublist_filter.
Defined.

Lemma digit_of_digit (c : N) :
  is_digit c = true -> digit_of c = Some (Z.of_N (c - 48)) /\ (Z.of_N (c - 48) < 10)%Z.
Proof.
  unfold is_digit, digit_of. intros H. rewrite H.
  apply andb_prop in H as [H1 H2]. apply N.leb_le in H1, H2.
  split; [f_equal|]; lia.
Qed.

Lemma digit_of_other (c : N) :
  is_digit c = false ->
  match digit_of c with
  | Some d => (d <? 10)%Z = false
  | None => True
  end.
Proof.
  unfold is_digit, digit_of. intros ->.
  destruct ((97 <=? c) && (c <=? 122))%N eqn:E1.
  - apply andb_prop in E1 as [H1 H2]. apply N.leb_le in H1, H2.
    apply Z.ltb_ge. lia.
  - destruct ((65 <=? c) && (c <=? 90))%N eqn:E2; [|exact I].
    apply andb_prop in E2 as [H1 H2]. apply N.leb_le in H1, H2.
    apply Z.ltb_ge. lia.
Qed.

Lemma span_radix_decimal (ds r : jsstring) :
  forallb is_digit ds = true -> Notions.ends_integer r ->
  span_radix 10 (ds ++ r) = (map (fun c => Z.of_N (c - 48)) ds, r).
Proof.
  intros Hds Hr. induction ds as [|d ds IH]; simpl in *.
  - destruct r as [|c r]; [reflexivity|]. simpl. destruct Hr as (Hc & _).
    pose proof (digit_of_other c Hc) as H.
    destruct (digit_of c); [by rewrite H|reflexivity].
  - apply andb_prop in Hds as [Hd Hds].
    destruct (digit_of_digit d Hd) as [-> Hlt].
    rewrite (proj2 (Z.ltb_lt _ _) Hlt), IH by assumption. reflexivity.
Qed.

Lemma radix_value_decimal (ds : jsstring) : forall acc,
  fold_left (fun a d => (10 * a + d)%Z) (map (fun c => Z.of_N (c - 48)) ds) acc
  = fold_left (fun a d => (10 * a + Z.of_N (d - 48))%Z) ds acc.
Proof. induction ds as [|d ds IH]; intros acc; simpl; [reflexivity|]. apply IH. Qed.

(** [parseInt] of a text that starts with decimal digits reads the
    integer these digits spell, whatever follows them. *)
Lemma read_integer_prefix (d : N) (ds r : jsstring) :
  is_digit d = true -> forallb is_digit ds = true -> Notions.ends_integer r ->
  read_integer (d :: ds ++ r) = Some (1%Z, digits_value (d :: ds)).
Proof.
  intros Hd Hds Hr.
  assert (Hspan : span_radix 10 (d :: ds ++ r)
                  = (map (fun c => Z.of_N (c - 48)) (d :: ds), r))
    by (apply (span_radix_decimal (d :: ds) r); [simpl; by rewrite Hd|done]).
  unfold read_integer. cbn [trimStart]. rewrite (Cells.digit_not_whitespace d Hd).
  assert (Hsign : match d :: ds ++ r with
                  | 45%N :: t => ((-1)%Z, t)
                  | 43%N :: t => (1%Z, t)
                  | _ => (1%Z, d :: ds ++ r)
                  end = (1%Z, d :: ds ++ r)).
  { unfold is_digit in Hd. apply andb_prop in Hd as [H1 H2].
    apply N.leb_le in H1, H2. destruct d as [|p]; [reflexivity|].
    do 6 (destruct p as [p|p|]; try reflexivity); lia. }
  rewrite Hsign.
  assert (Hhex : match d :: ds ++ r with
                 | 48%N :: 120%N :: t => (16%Z, t)
                 | 48%N :: 88%N :: t => (16%Z, t)
                 | _ => (10%Z, d :: ds ++ r)
                 end = (10%Z, d :: ds ++ r)).
  { assert (Hnext : match ds ++ r with
                    | c :: _ => c <> 120%N /\ c <> 88%N
                    | [] => True
                    end).
    { destruct ds as [|c ds]; simpl in *.
      - destruct r as [|c r]; [exact I|]. by destruct Hr as (_ & ? & ?).
      - apply andb_prop in Hds as [Hc _]. unfold is_digit in Hc.
        apply andb_prop in Hc as [H1 H2]. apply N.leb_le in H1, H2.
        split; intros ->; lia. }
    destruct (ds ++ r) as [|c t].
    - destruct d as [|p]; [reflexivity|].
      do 6 (destruct p as [p|p|]; try reflexivity).
    - destruct Hnext as [Hx HX].
      destruct d as [|p]; [reflexivity|].
      do 6 (destruct p as [p|p|]; try reflexivity).
      destruct c as [|q]; [reflexivity|].
      do 7 (destruct q as [q|q|]; try reflexivity); congruence. }
  rewrite Hhex, Hspan. cbn [map]. do 2 f_equal.
  unfold radix_value, digits_value. rewrite <- radix_value_decimal. reflexivity.
Qed.

Lemma parseInt_prefix (d : N) (ds r : jsstring) :
  is_digit d = true -> forallb is_digit ds = true -> Notions.ends_integer r ->
  parseInt (d :: ds ++ r) = of_Z (digits_value (d :: ds)).
Proof.
  intros Hd Hds Hr. unfold parseInt. rewrite read_integer_prefix by assumption.
  cbn [Z.ltb Z.compare andb]. by rewrite Z.mul_1_l.
Qed.

(** The period box takes any text that starts with a positive decimal
    integer, and the period is that integer as a number: what follows the
    digits (a fraction, an exponent, a unit) is dropped. *)
Theorem period_is_integer_prefix (typed : jsstring -> list jsstring)
        (type digits after : jsstring) (others : list jsstring) :
  typed type = (digits ++ after) :: others ->
  digits <> [] ->
  forallb is_digit digits = true ->
  Notions.ends_integer after ->
  (0 < digits_value digits)%Z ->
  validateInput (digits ++ after) = None
  /\ getMovingAveragePeriod typed type = of_Z (digits_value digits).
Proof.
  intros Htyped Hne Hds Hr Hpos.
  destruct digits as [|d ds]; [contradiction|].
  simpl in Hds. apply andb_prop in Hds as [Hd Hds].
  pose proof (parseInt_prefix d ds after Hd Hds Hr) as Hp.
  assert (Hv : validateInput ((d :: ds) ++ after) = None).
  { unfold validateInput. cbn [app]. rewrite Hp, ltb_zero_of_Z.
    by rewrite (proj2 (Z.ltb_lt _ _) Hpos). }
  split; [exact Hv|].
  unfold getMovingAveragePeriod, showInputBox. rewrite Htyped. cbn [List.find].
  rewrite Hv. exact Hp.
Qed.

Lemma period_is_integer_prefix_witness :
  validateInput (str "2.9") = None
  /\ getMovingAveragePeriod (fun _ => [str "2.9"]) (str "SMA") = of_Z 2.
Proof.
  apply (period_is_integer_prefix (fun _ => [str "2.9"]) (str "SMA")
           (str "2") (str ".9") []); try reflexivity; try discriminate.
  simpl. repeat split; discriminate.
Defined.

Lemma validateInput_accepts (value : jsstring) :
  validateInput value = None -> exists z, parseInt value = of_Z z /\ (0 < z)%Z.
Proof.
  unfold validateInput, parseInt.
  destruct (read_integer value) as [[sign mathInt]|]; [|discriminate].
  destruct ((sign <? 0)%Z && (mathInt =? 0)%Z); [discriminate|].
  rewrite ltb_zero_of_Z.
  destruct (Z.ltb_spec 0 (sign * mathInt)); [|discriminate].
  intros _. by exists (sign * mathInt)%Z.
Qed.

Lemma getMovingAveragePeriod_positive (typed : jsstring -> list jsstring)
      (type : jsstring) :
  exists z, getMovingAveragePeriod typed type = of_Z z /\ (0 < z)%Z.
Proof.
  unfold getMovingAveragePeriod, showInputBox.
  destruct (List.find _ (typed type)) as [value|] eqn:E.
  - apply find_some in E as [Hin Hok].
    destruct (validateInput value) eqn:Hv; [discriminate|].
    destruct (validateInput_accepts value Hv) as (z & Hz & Hpos).
    destruct value as [|c v]; [|by exists z].
    exists 20%Z. split; [reflexivity|lia].
  - exists 20%Z. split; [reflexivity|lia].
Qed.

(** Whatever the user types, the period that comes back is a positive
    integer as a number, never NaN: the first text that validates, read
    by [parseInt], or 20 when no text validates. *)
Theorem period_is_positive (typed : jsstring -> list jsstring) (type : jsstring) :
  (exists z, getMovingAveragePeriod typed type = of_Z z /\ (0 < z)%Z)
  /\ (Forall (fun value => validateInput value <> None) (typed type) ->
      getMovingAveragePeriod typed type = of_Z 20).
Proof.
  split; [apply getMovingAveragePeriod_positive|].
  unfold getMovingAveragePeriod, showInputBox. intros Hall.
  destruct (List.find _ (typed type)) as [value|] eqn:E; [|reflexivity].
  apply find_some in E as [Hin Hok]. rewrite Forall_forall in Hall.
  destruct (validateInput value) eqn:Hv; [discriminate|].
  destruct (Hall value); [by apply list_elem_of_In|exact Hv].
Qed.

(** The integer that stands for a positive number is positive. *)
Lemma integer_of_positive (x : number) :
  Binary64.SFabove 1 false (Prim2SF x) -> (0 < integer_of x)%Z.
Proof.
  unfold integer_of. destruct (Prim2SF x) as [s|s| |s m e]; simpl; try tauto.
  - intros ->. reflexivity.
  - intros [-> Hd]. cbn [cond_Zopp].
    destruct (Z.leb_spec 0 e) as [He|He].
    + assert (0 < 2 ^ e)%Z by (apply Z.pow_pos_nonneg; lia). lia.
    + assert (0 < 2 ^ (- e))%Z by (apply Z.pow_pos_nonneg; lia).
      apply Z.div_str_pos. split; [lia|].
      pose proof (digits2_pos_bounds m) as [Hlow _].
      etransitivity; [|exact Hlow]. apply Z.pow_le_mono_r; lia.
Qed.



(** The periods object has a period exactly for the moving averages that
    were requested, and each period it has is a positive integer as a
    number: when [processData] reads a period, it reads a positive
    integer, and one that stands for the number typed. *)
Theorem periods_for_requested (typed : jsstring -> list jsstring)
        (stats : list jsstring) :
  (if includes_label stats (str "SMA")
   then exists z, periods_sma (getMovingAveragePeriods typed stats) = Some (of_Z z)
                  /\ (0 < z)%Z
                  /\ (0 < sma (periods_of (getMovingAveragePeriods typed stats)))%Z
                  /\ of_Z (sma (periods_of (getMovingAveragePeriods typed stats)))
                     = of_Z z
   else periods_sma (getMovingAveragePeriods typed stats) = None)
  /\ (if includes_label stats (str "EMA")
      then exists z, periods_ema (getMovingAveragePeriods typed stats) = Some (of_Z z)
                     /\ (0 < z)%Z
                     /\ (0 < ema (periods_of (getMovingAveragePeriods typed stats)))%Z
                     /\ of_Z (ema (periods_of (getMovingAveragePeriods typed stats)))
                        = of_Z z
      else periods_ema (getMovingAveragePeriods typed stats) = None).
Proof.
  unfold getMovingAveragePeriods, periods_of.
  cbn [periods_sma periods_ema sma ema period_field].
  split.
  - destruct (includes_label stats (str "SMA")); [|reflexivity].
    destruct (getMovingAveragePeriod_positive typed (str "SMA")) as (z & -> & Hz).
    exists z. split; [reflexivity|]. split; [exact Hz|].
    split; [by apply integer_of_positive, of_Z_positive|apply of_Z_integer_of].
  - destruct (includes_label stats (str "EMA")); [|reflexivity].
    destruct (getMovingAveragePeriod_positive typed (str "EMA")) as (z & -> & Hz).
    exists z. split; [reflexivity|]. split; [exact Hz|].
    split; [by apply integer_of_positive, of_Z_positive|apply of_Z_integer_of].
Qed.

End Periods.

(** ** Panels and stored states *)

Module PanelStore.
Import JS FileChart Extension.

Section WithState.
Context {State : Type}.
Variable basename : jsstring -> jsstring.

Implicit Types (st : @store State) (f g : list N) (s : State).

Lemma panelIdOf_inj f g : panelIdOf f = panelIdOf g -> f = g.
Proof. unfold panelIdOf. apply app_inv_head. Qed.

(** What [showChart] leaves behind, field by field. *)
Lemma showChart_store series categories f chartType st :
  (showChart basename series categories f chartType st).1
  = {| panels :=
         <[panelIdOf f :=
             {| panel_title :=
                  match panels st !! panelIdOf f with
                  | Some p => panel_title p
                  | None => str "Chart: " ++ basename f
                  end;
                panel_html :=
                  Some (getWebviewContent series categories
                          (str "Chart: " ++ basename f) chartType
                          (states st !! panelIdOf f));
                message_listeners :=
                  S (match panels st !! panelIdOf f with
                     | Some p => message_listeners p
                     | None => 0
                     end);
                view_listeners :=
                  S (match panels st !! panelIdOf f with
                     | Some p => view_listeners p
                     | None => 0
                     end) |}]> (panels st);
       states := states st |}.
Proof.
  unfold showChart. destruct (panels st !! panelIdOf f) as [p|]; cbn [fst].
  - reflexivity.
  - by rewrite insert_insert_eq.
Qed.

(** [showChart] opens one panel per file, and no second one: it reveals
    the panel the file has, or creates one when the file has none.
    Either way the panel then shows the new series and categories
    together with the state stored for the file; the panels of other
    files and all stored states stay as they are. *)
Theorem showChart_one_panel_per_file series categories f chartType st :
  dom (panels (showChart basename series categories f chartType st).1)
  = {[panelIdOf f]} ∪ dom (panels st)
  /\ states (showChart basename series categories f chartType st).1 = states st
  /\ (showChart basename series categories f chartType st).2
     = match panels st !! panelIdOf f with
       | Some _ => [RevealPanel (panelIdOf f)]
       | None => [CreatePanel (panelIdOf f) (str "Chart: " ++ basename f)]
       end
  /\ (exists p,
        panels (showChart basename series categories f chartType st).1
          !! panelIdOf f = Some p
        /\ panel_html p
           = Some (getWebviewContent series categories
                     (str "Chart: " ++ basename f) chartType
                     (states st !! panelIdOf f)))
  /\ (forall g, g <> f ->
        panels (showChart basename series categories f chartType st).1
          !! panelIdOf g = panels st !! panelIdOf g).
Proof.
  rewrite showChart_store. cbn [panels states].
  split; [apply dom_insert_L|]. split; [reflexivity|].
  split; [unfold showChart; by destruct (panels st !! panelIdOf f)|].
  split.
  - eexists. split; [apply lookup_insert_eq|reflexivity].
  - intros g Hg. apply lookup_insert_ne. intros H. by apply panelIdOf_inj in H.
Qed.

Lemma run_state_update (id : list N) s n st :
  (1 <= n)%nat ->
  run_listeners n (onDidReceiveMessage id (StateUpdate s)) st
  = ({| panels := panels st; states := <[id := s]> (states st) |}, []).
Proof.
  intros Hn. destruct n as [|n]; [lia|]. clear Hn.
  revert st. induction n as [|n IH]; intros st.
  - reflexivity.
  - change (run_listeners (S (S n)) ?l st)
      with (let '(st1, e1) := l st in
            let '(st2, e2) := run_listeners (S n) l st1 in (st2, e1 ++ e2)).
    cbn [onDidReceiveMessage]. rewrite IH. cbn [panels states].
    by rewrite insert_insert_eq.
Qed.

(** A state the chart of an open panel posts is stored for that file
    alone, in place of the state stored before; it is the state the next
    [showChart] for the file puts into the page, and the state sent back
    when the panel becomes visible. *)
Theorem posted_state_comes_back series categories f chartType st s (p : panel) :
  panels st !! panelIdOf f = Some p ->
  (1 <= message_listeners p)%nat ->
  (1 <= view_listeners p)%nat ->
  receiveMessage f (StateUpdate s) st
  = ({| panels := panels st; states := <[panelIdOf f := s]> (states st) |}, [])
  /\ (forall g, g <> f ->
        states (receiveMessage f (StateUpdate s) st).1 !! panelIdOf g
        = states st !! panelIdOf g)
  /\ (exists q,
        panels (showChart basename series categories f chartType
                  (receiveMessage f (StateUpdate s) st).1).1 !! panelIdOf f = Some q
        /\ (page_state <$> panel_html q) = Some (Some s))
  /\ (exists posts,
        (changeViewState f true (receiveMessage f (StateUpdate s) st).1).2
        = PostRestoreState (panelIdOf f) (Some s) :: posts
        /\ Forall (fun e => e = PostRestoreState (panelIdOf f) (Some s)) posts).
Proof.
  intros Hp Hm Hv.
  assert (Hr : receiveMessage f (StateUpdate s) st
               = ({| panels := panels st;
                     states := <[panelIdOf f := s]> (states st) |}, [])).
  { unfold receiveMessage. rewrite Hp. by apply run_state_update. }
  rewrite Hr. cbn [fst].
  split; [reflexivity|]. split.
  - intros g Hg. cbn [states]. apply lookup_insert_ne.
    intros H. by apply panelIdOf_inj in H.
  - split.
    + rewrite showChart_store. cbn [panels states]. eexists.
      split; [apply lookup_insert_eq|]. cbn. by rewrite lookup_insert_eq.
    + unfold changeViewState. cbn [panels]. rewrite Hp.
      destruct (view_listeners p) as [|n]; [lia|]. clear Hv.
      cbn [run_listeners onDidChangeViewState states]. rewrite lookup_insert_eq.
      set (st1 := {| panels := panels st; states := _ |}).
      assert (Hrun : forall m,
                 (run_listeners m (onDidChangeViewState (panelIdOf f) true) st1).1 = st1
                 /\ Forall (fun e => e = PostRestoreState (panelIdOf f) (Some s))
                      (run_listeners m (onDidChangeViewState (panelIdOf f) true) st1).2).
      { induction m as [|m [IH1 IH2]]; [split; [reflexivity|constructor]|].
        cbn [run_listeners onDidChangeViewState].
        destruct (run_listeners m _ st1) as [st2 e2]. simpl in *. subst st2.
        split; [reflexivity|]. constructor; [|exact IH2].
        unfold st1. cbn [states]. by rewrite lookup_insert_eq. }
      destruct (Hrun n) as [H1 H2].
      destruct (run_listeners n _ st1) as [st2 e2]. simpl in *.
      exists e2. split; [reflexivity|exact H2].
Qed.

(** Closing the panel of a file forgets the panel and the state stored
    for the file, and nothing else; the next [showChart] for the file
    creates a panel whose page has no state to restore. *)
Theorem dispose_forgets series categories f chartType st :
  panels (dispose (panelIdOf f) st) !! panelIdOf f = None
  /\ (is_Some (panels st !! panelIdOf f) ->
      states (dispose (panelIdOf f) st) !! panelIdOf f = None)
  /\ (forall g, g <> f ->
        panels (dispose (panelIdOf f) st) !! panelIdOf g = panels st !! panelIdOf g
        /\ states (dispose (panelIdOf f) st) !! panelIdOf g
           = states st !! panelIdOf g)
  /\ (is_Some (panels st !! panelIdOf f) ->
      (showChart basename series categories f chartType (dispose (panelIdOf f) st)).2
      = [CreatePanel (panelIdOf f) (str "Chart: " ++ basename f)]
      /\ exists q,
          panels (showChart basename series categories f chartType
                    (dispose (panelIdOf f) st)).1 !! panelIdOf f = Some q
          /\ (page_state <$> panel_html q) = Some None
          /\ message_listeners q = 1%nat).
Proof.
  unfold dispose. destruct (panels st !! panelIdOf f) as [p|] eqn:Hp.
  - split; [apply lookup_delete_eq|]. split; [intros _; apply lookup_delete_eq|].
    split.
    + intros g Hg. split; apply lookup_delete_ne; intros H;
        by apply panelIdOf_inj in H.
    + intros _. split.
      * unfold showChart, onDidDispose. cbn [panels]. by rewrite lookup_delete_eq.
      * rewrite showChart_store. unfold onDidDispose. cbn [panels states]. eexists.
        split; [apply lookup_insert_eq|]. cbn. by rewrite !lookup_delete_eq.
  - split; [exact Hp|]. split; [by intros [? ?]|].
    split; [done|]. by intros [? ?].
Qed.

Lemma run_error (id : list N) (text : jsstring) n st :
  run_listeners n (onDidReceiveMessage id (Error text)) st
  = (st, replicate n (ShowErrorMessage text)).
Proof.
  induction n as [|n IH]; [reflexivity|].
  cbn [run_listeners onDidReceiveMessage]. by rewrite IH.
Qed.

Lemma iter_showChart_listeners series categories f chartType st n :
  panels st !! panelIdOf f = None ->
  exists q,
    panels (Nat.iter (S n)
              (fun st => (showChart basename series categories f chartType st).1) st)
      !! panelIdOf f = Some q
    /\ message_listeners q = S n.
Proof.
  intros Hnone. induction n as [|n (q & Hq & Hn)].
  - cbn [Nat.iter nat_rect]. rewrite showChart_store. cbn [panels]. eexists.
    split; [apply lookup_insert_eq|]. cbn [message_listeners]. by rewrite Hnone.
  - change (Nat.iter (S (S n)) ?F st) with (F (Nat.iter (S n) F st)).
    cbv beta. rewrite showChart_store. cbn [panels]. eexists.
    split; [apply lookup_insert_eq|]. cbn [message_listeners]. by rewrite Hq, Hn.
Qed.

(** Every [showChart] for a file adds a message listener to the panel of
    the file: after [n] calls on a panel that stays open, one error the
    chart reports is shown [n] times. *)
Theorem error_shown_once_per_call series categories f chartType st
        (text : jsstring) (n : nat) :
  panels st !! panelIdOf f = None ->
  (receiveMessage f (Error text)
     (Nat.iter (S n)
        (fun st => (showChart basename series categories f chartType st).1) st)).2
  = replicate (S n) (ShowErrorMessage text).
Proof.
  intros Hnone.
  destruct (iter_showChart_listeners series categories f chartType st n Hnone)
    as (q & Hq & Hn).
  unfold receiveMessage. rewrite Hq, run_error, Hn. reflexivity.
Qed.

Lemma run_listeners_keep (P : @store State -> Prop) n
      (listener : @store State -> @store State * list effect) :
  (forall st, P st -> P (listener st).1) ->
  forall st, P st -> P (run_listeners n listener st).1.
Proof.
  intros Hl. induction n as [|n IH]; intros st Hst; [exact Hst|].
  cbn [run_listeners]. specialize (Hl st Hst).
  destruct (listener st) as [st1 e1]. specialize (IH st1 Hl).
  by destruct (run_listeners n listener st1).
Qed.

Lemma showChart_ok series categories f chartType st :
  Notions.store_ok st ->
  Notions.store_ok (showChart basename series categories f chartType st).1.
Proof.
  intros [Hs Hp]. rewrite showChart_store. split; cbn [panels states].
  - intros id Hid. destruct (decide (id = panelIdOf f)) as [->|Hne];
      [by rewrite lookup_insert_eq|].
    rewrite lookup_insert_ne by done. by apply Hs.
  - intros id p H. destruct (decide (id = panelIdOf f)) as [->|Hne].
    + rewrite lookup_insert_eq in H. injection H as <-. simpl.
      split; [done|]. lia.
    + rewrite lookup_insert_ne in H by done. by apply (Hp id p).
Qed.

Lemma message_ok (id : list N) (m : message) st :
  Notions.store_ok st /\ is_Some (panels st !! id) ->
  Notions.store_ok (onDidReceiveMessage id m st).1
  /\ is_Some (panels (onDidReceiveMessage id m st).1 !! id).
Proof.
  intros [[Hs Hp] Hopen].
  destruct m as [state|text|]; [|split; [by split|exact Hopen]..].
  cbn [onDidReceiveMessage fst panels].
  split; [|exact Hopen]. split; [|exact Hp]. cbn [states]. intros id' Hid.
  destruct (decide (id' = id)) as [->|Hne]; [exact Hopen|].
  rewrite lookup_insert_ne in Hid by done. by apply Hs.
Qed.

Lemma dispose_ok (id : list N) st :
  Notions.store_ok st -> Notions.store_ok (dispose id st).
Proof.
  intros [Hs Hp]. unfold dispose.
  destruct (panels st !! id) as [q|] eqn:Hq; [|by split].
  split; cbn.
  - intros id' Hid. destruct (decide (id' = id)) as [->|Hne].
    + rewrite lookup_delete_eq in Hid. by destruct Hid.
    + rewrite lookup_delete_ne in Hid by done. rewrite lookup_delete_ne by done.
      by apply Hs.
  - intros id' p H. destruct (decide (id' = id)) as [->|Hne].
    + by rewrite lookup_delete_eq in H.
    + rewrite lookup_delete_ne in H by done. by apply (Hp id' p).
Qed.

(** At every moment a state is stored only for a panel that is open, and
    every open panel shows a page and has its listeners: this holds
    before the first chart, and [showChart], a message, a change of
    visibility and closing a panel keep it. *)
Theorem store_stays_ok series categories f chartType (m : message)
        (visible : bool) st :
  Notions.store_ok (@Notions.no_charts State)
  /\ (Notions.store_ok st ->
      Notions.store_ok (showChart basename series categories f chartType st).1
      /\ Notions.store_ok (receiveMessage f m st).1
      /\ Notions.store_ok (changeViewState f visible st).1
      /\ Notions.store_ok (dispose (panelIdOf f) st)).
Proof.
  split.
  { split; [intros id [x Hx]|intros id p Hp]; cbn in *;
      by rewrite lookup_empty in *. }
  intros Hok. split; [by apply showChart_ok|].
  split; [|split; [|by apply dispose_ok]].
  - unfold receiveMessage.
    destruct (panels st !! panelIdOf f) as [q|] eqn:Hq; [|exact Hok].
    apply (run_listeners_keep
             (fun st => Notions.store_ok st /\ is_Some (panels st !! panelIdOf f))).
    + intros st1. apply message_ok.
    + split; [exact Hok|]. by rewrite Hq.
  - unfold changeViewState.
    destruct (panels st !! panelIdOf f) as [q|] eqn:Hq; [|exact Hok].
    apply (run_listeners_keep Notions.store_ok); [|exact Hok].
    intros st1 H1. unfold onDidChangeViewState. by destruct visible.
Qed.

End WithState.

Lemma posted_state_comes_back_witness :
  receiveMessage (str "report.csv") (StateUpdate 7%nat) MoreSamples.shown_once
  = ({| panels := panels MoreSamples.shown_once;
        states := <[panelIdOf (str "report.csv") := 7%nat]>
                    (states MoreSamples.shown_once) |}, []).
Proof.
  refine (proj1 (posted_state_comes_back MoreSamples.basename [] []
                   (str "report.csv") (str "line") MoreSamples.shown_once 7%nat
                   _ _ _ _)).
  - reflexivity.
  - simpl. lia.
  - simpl. lia.
Defined.

Lemma error_shown_once_per_call_witness :
  (receiveMessage (str "report.csv") (Error (str "boom"))
     (Nat.iter 3
        (fun st => (showChart MoreSamples.basename [] [] (str "report.csv")
                      (str "line") st).1)
        (@Notions.no_charts nat))).2
  = [ShowErrorMessage (str "boom"); ShowErrorMessage (str "boom");
     ShowErrorMessage (str "boom")].
Proof.
  apply (error_shown_once_per_call MoreSamples.basename [] [] (str "report.csv")
           (str "line") (@Notions.no_charts nat) (str "boom") 2).
  reflexivity.
Defined.

End PanelStore.

(** ** The command *)

Module Command.
Import JS FileChart Extension.

Section WithState.
Context {State : Type}.
Variable basename : jsstring -> jsstring.

Implicit Types (u : user) (w : @world State) (doc : document).

(** A file whose lines are all blank gets the message that it holds no
    valid data, and nothing else happens: no pick is asked for, nothing is
    stored, no panel is touched. *)
Theorem blank_file_is_refused u doc w :
  Spec.kept_lines (getText doc) = [] ->
  fileChart basename u (Some doc) w
  = (w, [ShowErrorMessage (str "No valid data found in the file.")]).
Proof.
  intros Hk. unfold fileChart. rewrite ParserMore.parseFile_kept, Hk. reflexivity.
Qed.

Lemma headers_positive (content : jsstring) :
  Spec.kept_lines content <> [] ->
  (0 <? length (parsed_headers (parseFile content)))%nat = true.
Proof.
  intros Hk. apply Nat.ltb_lt. rewrite ParserMore.parseFile_kept.
  destruct (Spec.kept_lines content) as [|first rest]; [done|].
  cbn [parsed_headers].
  pose proof (Parser.split_not_nil (Spec.delimiter first).1 first) as Hne.
  destruct (split _ first); [done|]. simpl. lia.
Qed.

(** When the selector returns no selection, or the pick of the chart
    type is cancelled, no panel is created, revealed or written to and
    no state is touched; the user sees the parser's warning at most.
    What the selector stored is kept all the same: columns that were
    picked are remembered even when the chart type is then cancelled. *)
Theorem no_chart_without_answers u doc w :
  Spec.kept_lines (getText doc) <> [] ->
  (selectColumns (pickColumns u) (parsed_headers (parseFile (getText doc)))
     (fileName doc) (lastUsedColumns w)).1 = None
  \/ Notions.no_chart_type (pickChartType u chartTypes) ->
  charts (fileChart basename u (Some doc) w).1 = charts w
  /\ lastUsedColumns (fileChart basename u (Some doc) w).1
     = (selectColumns (pickColumns u) (parsed_headers (parseFile (getText doc)))
          (fileName doc) (lastUsedColumns w)).2
  /\ (fileChart basename u (Some doc) w).2
     = map ShowWarningMessage (parsed_warnings (parseFile (getText doc))).
Proof.
  intros Hk Hno. unfold fileChart. rewrite (headers_positive _ Hk).
  destruct (selectColumns _ _ _ _) as [[sel|] lu]; cbn [fst snd] in *.
  - destruct Hno as [Hno|[Hno|Hno]]; [discriminate|rewrite Hno..]; done.
  - done.
Qed.


End WithState.

Lemma blank_file_is_refused_witness :
  fileChart MoreSamples.basename MoreSamples.keen (Some MoreSamples.blank_document)
    MoreSamples.fresh_world
  = (MoreSamples.fresh_world,
     [ShowErrorMessage (str "No valid data found in the file.")]).
Proof.
  apply (blank_file_is_refused MoreSamples.basename MoreSamples.keen
           MoreSamples.blank_document MoreSamples.fresh_world).
  reflexivity.
Defined.

Lemma no_chart_without_answers_witness :
  charts (fileChart MoreSamples.basename MoreSamples.hesitant
            (Some MoreSamples.report) MoreSamples.fresh_world).1
  = charts MoreSamples.fresh_world
  /\ lastUsedColumns (fileChart MoreSamples.basename MoreSamples.hesitant
                        (Some MoreSamples.report) MoreSamples.fresh_world).1
     = (selectColumns (pickColumns MoreSamples.hesitant)
          (parsed_headers (parseFile (getText MoreSamples.report)))
          (fileName MoreSamples.report)
          (lastUsedColumns MoreSamples.fresh_world)).2
  /\ (fileChart MoreSamples.basename MoreSamples.hesitant
        (Some MoreSamples.report) MoreSamples.fresh_world).2
     = map ShowWarningMessage
         (parsed_warnings (parseFile (getText MoreSamples.report))).
Proof.
  apply (no_chart_without_answers MoreSamples.basename MoreSamples.hesitant
           MoreSamples.report MoreSamples.fresh_world).
  - vm_compute. discriminate.
  - right. left. reflexivity.
Defined.


End Command.
